(** * kube-pulse: the dashboard's reducer, its filter / sort / pagination
      engine and the fetch commands that feed it.

    The development follows the later of the two source files (the one with
    search, sorting, the container picker and the cleanse flow); the older
    [main.go] shares [calculatePagination], the issues filter and the note
    resolution of [fetchPods] verbatim.

    Go values are embedded as follows: [int], [int32] and [int64] are [Z] with
    the wrap-around of the machine operation written out, [string] is
    [string] (a sequence of bytes), slices are lists, the [map] of running
    port-forwards is a [gmap], a nil pointer is [None], and a run-time panic
    (index out of range, nil dereference) is the [None] of [option]. *)

From Stdlib Require Import ZArith Lia Bool List Permutation DecimalString.
From Stdlib Require Sorted OrderedTypeEx.
From stdpp Require Import base option strings gmap.
Import ListNotations.

#[local] Set Warnings "-register-all".
#[local] Open Scope string_scope.
#[local] Open Scope list_scope.
#[local] Open Scope Z_scope.

(** ** Machine integers *)

Definition wrap (bits z : Z) : Z := (z + 2 ^ (bits - 1)) mod 2 ^ bits - 2 ^ (bits - 1).

Definition max_int : Z := 2 ^ 63 - 1.
Definition min_int : Z := - 2 ^ 63.

Definition int_add (a b : Z) : Z := wrap 64 (a + b).
Definition int_sub (a b : Z) : Z := wrap 64 (a - b).
Definition int32_add (a b : Z) : Z := wrap 32 (a + b).

(** [len] of a slice, as the [int] Go returns. *)
Definition len {A} (l : list A) : Z := Z.of_nat (length l).

(** [l[i]]: a panic when [i] is out of range. *)
Definition index {A} (l : list A) (i : Z) : option A :=
  if i <? 0 then None else l !! Z.to_nat i.

(** ** Strings *)

(** The [%d] verb of [fmt.Sprintf]. *)
Definition fmt_d (z : Z) : string := NilZero.string_of_int (Z.to_int z).

(** [strings.Contains]: some suffix of [s] starts with [substr]. *)
Fixpoint strings_Contains (s substr : string) : bool :=
  String.prefix substr s
  || match s with
     | EmptyString => false
     | String _ s' => strings_Contains s' substr
     end.

(** A [switch] case listing several keys. *)
Definition key_in (key : string) (cases : list string) : bool :=
  existsb (String.eqb key) cases.

(** [truncate]: a string longer than [l] bytes is cut to [l - 2] bytes and
    ".." is appended.  The slice [s[:l-2]] panics when [l - 2] is negative
    (or, after wrap-around, beyond the string). *)
Definition truncate (s : string) (l : Z) : option string :=
  if l <? Z.of_nat (String.length s) then
    let n := int_sub l 2 in
    if (n <? 0) || (Z.of_nat (String.length s) <? n) then None
    else Some (String.substring 0 (Z.to_nat n) s +:+ "..")
  else Some s.

(** The key of a pod in the map of port-forwards and in the usage map:
    [Namespace + "/" + Name]. *)
Definition podKey (namespace name : string) : string := namespace +:+ "/" +:+ name.

(** ** Data (the [PodInfo], [ClusterStats] structs and the two enums) *)

Record PodInfo := {
  Namespace : string;
  Name : string;
  Ready : string;
  Status : string;
  Restarts : Z;
  CpuUsage : string;
  MemUsage : string;
  RawCpu : Z;
  RawMem : Z;
  NodeName : string;
  PodIP : string;
  IsReady : bool;
  Message : string;
  Port : Z;
  Age : string;
  Containers : list string
}.

Record ClusterStats := {
  TotalCpuUsage : Z;
  TotalMemUsage : Z;
  TotalCpuCap : Z;
  TotalMemCap : Z;
  NodeCount : Z
}.

(** [ClusterStats{}] *)
Definition ClusterStats_zero : ClusterStats :=
  {| TotalCpuUsage := 0; TotalMemUsage := 0; TotalCpuCap := 0; TotalMemCap := 0;
     NodeCount := 0 |}.

Inductive sessionState :=
| viewList
| viewLogs
| viewDiagnosis
| viewYaml
| viewDeleteConfirm
| viewRestartConfirm
| viewCleanseConfirm
| viewContainerSelect.

Inductive sortMode := sortDefault | sortCPU | sortMem.

(** The outcome of a call to the cluster: a value, or the text of the error. *)
Inductive result (A : Type) :=
| Ok (a : A)
| Err (e : string).
Arguments Ok {A} a.
Arguments Err {A} e.

(** ** The parts of the Kubernetes objects that [fetchPods] and
       [fetchClusterStats] read *)

Module corev1.

Record ContainerStateWaiting := { WaitingReason : string }.

Record ContainerStateTerminated := { TerminatedReason : string; ExitCode : Z }.

Record ContainerState := {
  Waiting : option ContainerStateWaiting;
  Terminated : option ContainerStateTerminated
}.

Record ContainerStatus := {
  RestartCount : Z;
  Ready : bool;
  State : ContainerState
}.

Record Container := {
  ContainerName : string;
  Ports : list Z  (* the ContainerPort of each declared port *)
}.

Record Pod := {
  Namespace : string;
  Name : string;
  CreationTimestamp : Z;
  SpecContainers : list Container;
  NodeName : string;
  Phase : string;
  PodIP : string;
  ContainerStatuses : list ContainerStatus
}.

End corev1.

(** ** Messages

    The messages [Update] switches on.  A key arrives as its [String()]. *)

Inductive Msg :=
| WindowSizeMsg (Width Height : Z)
| KeyMsg (key : string)
| tickMsg
| podsMsg (l : list PodInfo)
| statsMsg (s : ClusterStats)
| nsMsg (l : list string)
| logsMsg (s : string)
| diagMsg (s : string)
| yamlMsg (s : string)
| deleteMsg (s : string)
| nilMsg  (* [nil]; stands for every message [Update] has no case for, too *).

(** ** [sort.Slice]

    The sort of Go's [sort] package since Go 1.19: a pattern-defeating
    quicksort over the [Less] and [Swap] of the slice ([pdqsort_func] and its
    helpers).  Slices of at most twelve elements are insertion-sorted; longer
    ones are partitioned around a pivot.  Two escapes of the algorithm are
    left out, the scattering of elements after an unbalanced partition
    ([breakPatterns]) and the heap sort it falls back to when partitions kept
    being unbalanced: a run that reaches either has no result here ([None]),
    as has a loop that would outrun its bound. *)

Module GoSort.

Inductive sortedHint := unknownHint | increasingHint | decreasingHint.

Section Sort.

Context {A : Type} (less : A -> A -> bool).

(** A computation on the slice being sorted. *)
Definition M (X : Type) : Type := list A -> option (X * list A).

Definition ret {X} (x : X) : M X := fun data => Some (x, data).

Definition bind {X Y} (m : M X) (f : X -> M Y) : M Y :=
  fun data =>
    match m data with
    | Some (x, data) => f x data
    | None => None
    end.

Definition no_result {X} : M X := fun _ => None.

#[local] Instance M_ret : MRet M := @ret.
#[local] Instance M_bind : MBind M := fun X Y f m => bind m f.

(** [data.Less(i, j)] and [data.Swap(i, j)] *)
Definition Less (i j : Z) : M bool :=
  fun data =>
    match index data i, index data j with
    | Some x, Some y => Some (less x y, data)
    | _, _ => None
    end.

Definition Swap (i j : Z) : M unit :=
  fun data =>
    match index data i, index data j with
    | Some x, Some y => Some (tt, <[Z.to_nat j := x]> (<[Z.to_nat i := y]> data))
    | _, _ => None
    end.

(** [for j := i; j > a && data.Less(j, j-1); j-- { data.Swap(j, j-1) }] *)
Fixpoint insertionInner (n : nat) (a j : Z) : M unit :=
  match n with
  | O => no_result
  | S n =>
      if a <? j then
        lt ← Less j (j - 1);
        if lt : bool then Swap j (j - 1);; insertionInner n a (j - 1) else mret tt
      else mret tt
  end.

(** [for i := a + 1; i < b; i++ { ... }] *)
Fixpoint insertionOuter (n : nat) (a b i : Z) : M unit :=
  match n with
  | O => no_result
  | S n =>
      if i <? b then
        insertionInner (S (Z.to_nat (i - a))) a i;; insertionOuter n a b (i + 1)
      else mret tt
  end.

Definition insertionSort_func (a b : Z) : M unit :=
  insertionOuter (S (Z.to_nat (b - a))) a b (a + 1).

(** [order2_func], [median_func], [medianAdjacent_func]: the counter [swaps]
    is passed along. *)
Definition order2_func (a b swaps : Z) : M (Z * Z * Z) :=
  lt ← Less b a;
  if lt : bool then mret (b, a, swaps + 1) else mret (a, b, swaps).

Definition median_func (a b c swaps : Z) : M (Z * Z) :=
  '(a, b, swaps) ← order2_func a b swaps;
  '(b, c, swaps) ← order2_func b c swaps;
  '(a, b, swaps) ← order2_func a b swaps;
  mret (b, swaps).

Definition medianAdjacent_func (a swaps : Z) : M (Z * Z) :=
  median_func (a - 1) a (a + 1) swaps.

Definition shortestNinther : Z := 50.
Definition maxSwaps : Z := 4 * 3.

Definition choosePivot_func (a b : Z) : M (Z * sortedHint) :=
  let l := b - a in
  let swaps := 0 in
  let i := a + l ÷ 4 * 1 in
  let j := a + l ÷ 4 * 2 in
  let k := a + l ÷ 4 * 3 in
  '(j, swaps) ←
    (if 8 <=? l then
       '(i, j, k, swaps) ←
         (if shortestNinther <=? l then
            '(i, swaps) ← medianAdjacent_func i swaps;
            '(j, swaps) ← medianAdjacent_func j swaps;
            '(k, swaps) ← medianAdjacent_func k swaps;
            mret (i, j, k, swaps)
          else mret (i, j, k, swaps));
       median_func i j k swaps
     else mret (j, swaps));
  mret (j, if swaps =? 0 then increasingHint
           else if swaps =? maxSwaps then decreasingHint
           else unknownHint).

(** [reverseRange_func]: [for i < j { data.Swap(i, j); i++; j-- }] *)
Fixpoint reverseRangeLoop (n : nat) (i j : Z) : M unit :=
  match n with
  | O => no_result
  | S n => if i <? j then Swap i j;; reverseRangeLoop n (i + 1) (j - 1) else mret tt
  end.

Definition reverseRange_func (a b : Z) : M unit :=
  reverseRangeLoop (S (Z.to_nat (b - a))) a (b - 1).

(** [partialInsertionSort_func]: its three inner loops, then its rounds. *)

(** [for i < b && !data.Less(i, i-1) { i++ }] *)
Fixpoint skipOrdered (n : nat) (b i : Z) : M Z :=
  match n with
  | O => no_result
  | S n =>
      if i <? b then
        lt ← Less i (i - 1);
        if negb lt then skipOrdered n b (i + 1) else mret i
      else mret i
  end.

(** [for j := i - 1; j >= 1; j-- { if !data.Less(j, j-1) { break }; data.Swap(j, j-1) }] *)
Fixpoint shiftLeft (n : nat) (j : Z) : M unit :=
  match n with
  | O => no_result
  | S n =>
      if 1 <=? j then
        lt ← Less j (j - 1);
        if negb lt then mret tt else Swap j (j - 1);; shiftLeft n (j - 1)
      else mret tt
  end.

(** [for j := i + 1; j < b; j++ { if !data.Less(j, j-1) { break }; data.Swap(j, j-1) }] *)
Fixpoint shiftRight (n : nat) (b j : Z) : M unit :=
  match n with
  | O => no_result
  | S n =>
      if j <? b then
        lt ← Less j (j - 1);
        if negb lt then mret tt else Swap j (j - 1);; shiftRight n b (j + 1)
      else mret tt
  end.

Definition maxSteps : nat := 5.
Definition shortestShifting : Z := 50.

Fixpoint partialInsertionSteps (steps : nat) (a b i : Z) : M bool :=
  match steps with
  | O => mret false
  | S steps =>
      i ← skipOrdered (S (Z.to_nat (b - i))) b i;
      if i =? b then mret true
      else if b - a <? shortestShifting then mret false
      else
        Swap i (i - 1);;
        (if 2 <=? i - a then shiftLeft (S (Z.to_nat i)) (i - 1) else mret tt);;
        (if 2 <=? b - i then shiftRight (S (Z.to_nat (b - i))) b (i + 1) else mret tt);;
        partialInsertionSteps steps a b i
  end.

Definition partialInsertionSort_func (a b : Z) : M bool :=
  partialInsertionSteps maxSteps a b (a + 1).

(** [partition_func]: its two scans, its loop, then the function. *)

(** [for i <= j && data.Less(i, a) { i++ }] *)
Fixpoint scanLess (n : nat) (a j i : Z) : M Z :=
  match n with
  | O => no_result
  | S n =>
      if i <=? j then
        lt ← Less i a;
        if lt : bool then scanLess n a j (i + 1) else mret i
      else mret i
  end.

(** [for i <= j && !data.Less(j, a) { j-- }] *)
Fixpoint scanNotLess (n : nat) (a i j : Z) : M Z :=
  match n with
  | O => no_result
  | S n =>
      if i <=? j then
        lt ← Less j a;
        if negb lt then scanNotLess n a i (j - 1) else mret j
      else mret j
  end.

Definition span (i j : Z) : nat := S (Z.to_nat (j - i + 1)).

Fixpoint partitionLoop (n : nat) (a i j : Z) : M Z :=
  match n with
  | O => no_result
  | S n =>
      i ← scanLess (span i j) a j i;
      j ← scanNotLess (span i j) a i j;
      if j <? i then mret j
      else Swap i j;; partitionLoop n a (i + 1) (j - 1)
  end.

Definition partition_func (a b pivot : Z) : M (Z * bool) :=
  Swap a pivot;;
  let i := a + 1 in
  let j := b - 1 in
  i ← scanLess (span i j) a j i;
  j ← scanNotLess (span i j) a i j;
  if j <? i then
    Swap j a;; mret (j, true)
  else
    Swap i j;;
    let i := i + 1 in
    let j := j - 1 in
    j ← partitionLoop (span i j) a i j;
    Swap j a;; mret (j, false).

(** [partitionEqual_func] *)

(** [for i <= j && !data.Less(a, i) { i++ }] *)
Fixpoint scanNotGreater (n : nat) (a j i : Z) : M Z :=
  match n with
  | O => no_result
  | S n =>
      if i <=? j then
        lt ← Less a i;
        if negb lt then scanNotGreater n a j (i + 1) else mret i
      else mret i
  end.

(** [for i <= j && data.Less(a, j) { j-- }] *)
Fixpoint scanGreater (n : nat) (a i j : Z) : M Z :=
  match n with
  | O => no_result
  | S n =>
      if i <=? j then
        lt ← Less a j;
        if lt : bool then scanGreater n a i (j - 1) else mret j
      else mret j
  end.

Fixpoint partitionEqualLoop (n : nat) (a i j : Z) : M Z :=
  match n with
  | O => no_result
  | S n =>
      i ← scanNotGreater (span i j) a j i;
      j ← scanGreater (span i j) a i j;
      if j <? i then mret i
      else Swap i j;; partitionEqualLoop n a (i + 1) (j - 1)
  end.

Definition partitionEqual_func (a b pivot : Z) : M Z :=
  Swap a pivot;;
  partitionEqualLoop (span (a + 1) (b - 1)) a (a + 1) (b - 1).

Definition maxInsertion : Z := 12.

(** The loop of [pdqsort_func], on [(a, b, wasBalanced, wasPartitioned)];
    [limit] never changes, for the round that decrements it is left out. *)
Fixpoint pdqsortLoop (n : nat) (a b limit : Z) (wasBalanced wasPartitioned : bool)
  : M unit :=
  match n with
  | O => no_result
  | S n =>
      let length := b - a in
      if length <=? maxInsertion then insertionSort_func a b
      else if limit =? 0 then no_result  (* heapSort_func *)
      else if negb wasBalanced then no_result  (* breakPatterns_func *)
      else
        '(pivot, hint) ← choosePivot_func a b;
        '(pivot, hint) ←
          (match hint with
           | decreasingHint =>
               reverseRange_func a b;;
               mret ((b - 1) - (pivot - a), increasingHint)
           | _ => mret (pivot, hint)
           end);
        sorted ←
          (match hint with
           | increasingHint =>
               if wasBalanced && wasPartitioned
               then partialInsertionSort_func a b else mret false
           | _ => mret false
           end);
        if sorted : bool then mret tt
        else
          equal ← (if 0 <? a
                   then lt ← Less (a - 1) pivot; mret (negb lt)
                   else mret false);
          if equal : bool then
            mid ← partitionEqual_func a b pivot;
            pdqsortLoop n mid b limit wasBalanced wasPartitioned
          else
            '(mid, alreadyPartitioned) ← partition_func a b pivot;
            let leftLen := mid - a in
            let rightLen := b - mid in
            let balanceThreshold := length ÷ 8 in
            if leftLen <? rightLen then
              pdqsortLoop n a mid limit true true;;
              pdqsortLoop n (mid + 1) b limit
                (balanceThreshold <=? leftLen) alreadyPartitioned
            else
              pdqsortLoop n (mid + 1) b limit true true;;
              pdqsortLoop n a mid limit
                (balanceThreshold <=? rightLen) alreadyPartitioned
  end.

Definition pdqsort_func (n : nat) (a b limit : Z) : M unit :=
  pdqsortLoop n a b limit true true.

(** [bits.Len(uint(n))], for [n] a length *)
Definition bits_Len (n : Z) : Z := if n <=? 0 then 0 else Z.log2 n + 1.

(** [Slice]: the sorted slice. *)
Definition Slice (x : list A) : option (list A) :=
  let length := len x in
  let limit := bits_Len length in
  snd <$> pdqsort_func (S (Datatypes.length x)) 0 length limit x.

(** Insertion of [x] into the sorted elements before it, which are listed
    from the nearest one: [x] moves past each it is less than. *)
Fixpoint insertBack (x : A) (before : list A) : list A :=
  match before with
  | [] => [x]
  | y :: before' => if less x y then y :: insertBack x before' else x :: before
  end.

(** Insertion sort as a function of the list: what [insertionSort_func]
    leaves of the whole slice (lemma [insertionSort_func_spec]). *)
Definition insertionSort (x : list A) : list A :=
  rev (fold_left (fun before y => insertBack y before) x []).

End Sort.

Arguments M : clear implicits.

End GoSort.

(** ** What the program takes from its libraries

    The dashboard calls into Go's standard library ([sort], [strings],
    [os/exec], [time]), the Bubble Tea widgets and the Kubernetes quantity
    type.  Their code is not part of the repository: the reducer is a function
    of them, and is verified for every implementation (of [sort.Slice] only
    its contract, that it rearranges the slice, is ever assumed). *)

Record Externals := {
  (** [sort.Slice(x, less)], with [less] read on the elements it compares *)
  sort_Slice : forall A : Type, (A -> A -> bool) -> list A -> list A;
  (** [sort.Strings] *)
  sort_Strings : list string -> list string;
  strings_ToLower : string -> string;
  (** [exec.Command(args...).Start()]: [Some] of the error's text on failure *)
  exec_Start : list string -> option string;
  (** [shortAge(time.Since(t))], read off the clock when the fetch runs *)
  pod_age : Z -> string;
  (** commands the widgets hand back (cursor blink, scrolling) *)
  LibCmd : Type;
  textinput_Model : Type;
  textinput_Value : textinput_Model -> string;
  textinput_Focus : textinput_Model -> textinput_Model;
  textinput_Blur : textinput_Model -> textinput_Model;
  textinput_Update : textinput_Model -> string -> textinput_Model * LibCmd;
  viewport_Model : Type;
  viewport_zero : viewport_Model;
  viewport_New : Z -> Z -> viewport_Model;
  viewport_Update : viewport_Model -> string -> viewport_Model * LibCmd;
  viewport_SetContent : viewport_Model -> string -> viewport_Model;
  viewport_GotoTop : viewport_Model -> viewport_Model;
  viewport_GotoBottom : viewport_Model -> viewport_Model;
  (** [resource.Quantity] *)
  Quantity : Type;
  quantity_zero : Quantity;
  quantity_Add : Quantity -> Quantity -> Quantity;
  quantity_MilliValue : Quantity -> Z;
  quantity_Value : Quantity -> Z
}.

Existing Class Externals.

Section Dashboard.

Context {E : Externals}.

(** ** The [model] struct

    The two API clients are handles that no transition reads; they are left
    out.  A running port-forward ([*exec.Cmd]) is kept as its argument list. *)

Record model := {
  kubeconfig : string;
  pods : list PodInfo;
  filteredPods : list PodInfo;
  clusterStats : ClusterStats;
  namespaces : list string;
  currentNsIdx : Z;
  state : sessionState;
  sort : sortMode;
  cursor : Z;
  showIssues : bool;
  loading : bool;
  msg : string;
  textInput : textinput_Model E;
  searchActive : bool;
  podToDelete : option PodInfo;
  viewport : viewport_Model E;
  logContent : string;
  diagContent : string;
  yamlContent : string;
  selectedPod : option PodInfo;
  containerList : list string;
  containerCursor : Z;
  targetAction : string;
  width : Z;
  height : Z;
  activeForwards : gmap string (list string)
}.

(** Field updates ([m.f = v]). *)

Definition set_kubeconfig (v : string) (m : model) : model :=
  {| kubeconfig := v; pods := pods m; filteredPods := filteredPods m;
     clusterStats := clusterStats m; namespaces := namespaces m;
     currentNsIdx := currentNsIdx m; state := state m; sort := sort m;
     cursor := cursor m; showIssues := showIssues m; loading := loading m;
     msg := msg m; textInput := textInput m; searchActive := searchActive m;
     podToDelete := podToDelete m; viewport := viewport m; logContent := logContent m;
     diagContent := diagContent m; yamlContent := yamlContent m;
     selectedPod := selectedPod m; containerList := containerList m;
     containerCursor := containerCursor m; targetAction := targetAction m;
     width := width m; height := height m; activeForwards := activeForwards m |}.

Definition set_pods (v : list PodInfo) (m : model) : model :=
  {| kubeconfig := kubeconfig m; pods := v; filteredPods := filteredPods m;
     clusterStats := clusterStats m; namespaces := namespaces m;
     currentNsIdx := currentNsIdx m; state := state m; sort := sort m;
     cursor := cursor m; showIssues := showIssues m; loading := loading m;
     msg := msg m; textInput := textInput m; searchActive := searchActive m;
     podToDelete := podToDelete m; viewport := viewport m; logContent := logContent m;
     diagContent := diagContent m; yamlContent := yamlContent m;
     selectedPod := selectedPod m; containerList := containerList m;
     containerCursor := containerCursor m; targetAction := targetAction m;
     width := width m; height := height m; activeForwards := activeForwards m |}.

Definition set_filteredPods (v : list PodInfo) (m : model) : model :=
  {| kubeconfig := kubeconfig m; pods := pods m; filteredPods := v;
     clusterStats := clusterStats m; namespaces := namespaces m;
     currentNsIdx := currentNsIdx m; state := state m; sort := sort m;
     cursor := cursor m; showIssues := showIssues m; loading := loading m;
     msg := msg m; textInput := textInput m; searchActive := searchActive m;
     podToDelete := podToDelete m; viewport := viewport m; logContent := logContent m;
     diagContent := diagContent m; yamlContent := yamlContent m;
     selectedPod := selectedPod m; containerList := containerList m;
     containerCursor := containerCursor m; targetAction := targetAction m;
     width := width m; height := height m; activeForwards := activeForwards m |}.

Definition set_clusterStats (v : ClusterStats) (m : model) : model :=
  {| kubeconfig := kubeconfig m; pods := pods m; filteredPods := filteredPods m;
     clusterStats := v; namespaces := namespaces m; currentNsIdx := currentNsIdx m;
     state := state m; sort := sort m; cursor := cursor m; showIssues := showIssues m;
     loading := loading m; msg := msg m; textInput := textInput m;
     searchActive := searchActive m; podToDelete := podToDelete m;
     viewport := viewport m; logContent := logContent m; diagContent := diagContent m;
     yamlContent := yamlContent m; selectedPod := selectedPod m;
     containerList := containerList m; containerCursor := containerCursor m;
     targetAction := targetAction m; width := width m; height := height m;
     activeForwards := activeForwards m |}.

Definition set_namespaces (v : list string) (m : model) : model :=
  {| kubeconfig := kubeconfig m; pods := pods m; filteredPods := filteredPods m;
     clusterStats := clusterStats m; namespaces := v; currentNsIdx := currentNsIdx m;
     state := state m; sort := sort m; cursor := cursor m; showIssues := showIssues m;
     loading := loading m; msg := msg m; textInput := textInput m;
     searchActive := searchActive m; podToDelete := podToDelete m;
     viewport := viewport m; logContent := logContent m; diagContent := diagContent m;
     yamlContent := yamlContent m; selectedPod := selectedPod m;
     containerList := containerList m; containerCursor := containerCursor m;
     targetAction := targetAction m; width := width m; height := height m;
     activeForwards := activeForwards m |}.

Definition set_currentNsIdx (v : Z) (m : model) : model :=
  {| kubeconfig := kubeconfig m; pods := pods m; filteredPods := filteredPods m;
     clusterStats := clusterStats m; namespaces := namespaces m; currentNsIdx := v;
     state := state m; sort := sort m; cursor := cursor m; showIssues := showIssues m;
     loading := loading m; msg := msg m; textInput := textInput m;
     searchActive := searchActive m; podToDelete := podToDelete m;
     viewport := viewport m; logContent := logContent m; diagContent := diagContent m;
     yamlContent := yamlContent m; selectedPod := selectedPod m;
     containerList := containerList m; containerCursor := containerCursor m;
     targetAction := targetAction m; width := width m; height := height m;
     activeForwards := activeForwards m |}.

Definition set_state (v : sessionState) (m : model) : model :=
  {| kubeconfig := kubeconfig m; pods := pods m; filteredPods := filteredPods m;
     clusterStats := clusterStats m; namespaces := namespaces m;
     currentNsIdx := currentNsIdx m; state := v; sort := sort m; cursor := cursor m;
     showIssues := showIssues m; loading := loading m; msg := msg m;
     textInput := textInput m; searchActive := searchActive m;
     podToDelete := podToDelete m; viewport := viewport m; logContent := logContent m;
     diagContent := diagContent m; yamlContent := yamlContent m;
     selectedPod := selectedPod m; containerList := containerList m;
     containerCursor := containerCursor m; targetAction := targetAction m;
     width := width m; height := height m; activeForwards := activeForwards m |}.

Definition set_sort (v : sortMode) (m : model) : model :=
  {| kubeconfig := kubeconfig m; pods := pods m; filteredPods := filteredPods m;
     clusterStats := clusterStats m; namespaces := namespaces m;
     currentNsIdx := currentNsIdx m; state := state m; sort := v; cursor := cursor m;
     showIssues := showIssues m; loading := loading m; msg := msg m;
     textInput := textInput m; searchActive := searchActive m;
     podToDelete := podToDelete m; viewport := viewport m; logContent := logContent m;
     diagContent := diagContent m; yamlContent := yamlContent m;
     selectedPod := selectedPod m; containerList := containerList m;
     containerCursor := containerCursor m; targetAction := targetAction m;
     width := width m; height := height m; activeForwards := activeForwards m |}.

Definition set_cursor (v : Z) (m : model) : model :=
  {| kubeconfig := kubeconfig m; pods := pods m; filteredPods := filteredPods m;
     clusterStats := clusterStats m; namespaces := namespaces m;
     currentNsIdx := currentNsIdx m; state := state m; sort := sort m; cursor := v;
     showIssues := showIssues m; loading := loading m; msg := msg m;
     textInput := textInput m; searchActive := searchActive m;
     podToDelete := podToDelete m; viewport := viewport m; logContent := logContent m;
     diagContent := diagContent m; yamlContent := yamlContent m;
     selectedPod := selectedPod m; containerList := containerList m;
     containerCursor := containerCursor m; targetAction := targetAction m;
     width := width m; height := height m; activeForwards := activeForwards m |}.

Definition set_showIssues (v : bool) (m : model) : model :=
  {| kubeconfig := kubeconfig m; pods := pods m; filteredPods := filteredPods m;
     clusterStats := clusterStats m; namespaces := namespaces m;
     currentNsIdx := currentNsIdx m; state := state m; sort := sort m;
     cursor := cursor m; showIssues := v; loading := loading m; msg := msg m;
     textInput := textInput m; searchActive := searchActive m;
     podToDelete := podToDelete m; viewport := viewport m; logContent := logContent m;
     diagContent := diagContent m; yamlContent := yamlContent m;
     selectedPod := selectedPod m; containerList := containerList m;
     containerCursor := containerCursor m; targetAction := targetAction m;
     width := width m; height := height m; activeForwards := activeForwards m |}.

Definition set_loading (v : bool) (m : model) : model :=
  {| kubeconfig := kubeconfig m; pods := pods m; filteredPods := filteredPods m;
     clusterStats := clusterStats m; namespaces := namespaces m;
     currentNsIdx := currentNsIdx m; state := state m; sort := sort m;
     cursor := cursor m; showIssues := showIssues m; loading := v; msg := msg m;
     textInput := textInput m; searchActive := searchActive m;
     podToDelete := podToDelete m; viewport := viewport m; logContent := logContent m;
     diagContent := diagContent m; yamlContent := yamlContent m;
     selectedPod := selectedPod m; containerList := containerList m;
     containerCursor := containerCursor m; targetAction := targetAction m;
     width := width m; height := height m; activeForwards := activeForwards m |}.

Definition set_msg (v : string) (m : model) : model :=
  {| kubeconfig := kubeconfig m; pods := pods m; filteredPods := filteredPods m;
     clusterStats := clusterStats m; namespaces := namespaces m;
     currentNsIdx := currentNsIdx m; state := state m; sort := sort m;
     cursor := cursor m; showIssues := showIssues m; loading := loading m; msg := v;
     textInput := textInput m; searchActive := searchActive m;
     podToDelete := podToDelete m; viewport := viewport m; logContent := logContent m;
     diagContent := diagContent m; yamlContent := yamlContent m;
     selectedPod := selectedPod m; containerList := containerList m;
     containerCursor := containerCursor m; targetAction := targetAction m;
     width := width m; height := height m; activeForwards := activeForwards m |}.

Definition set_textInput (v : textinput_Model E) (m : model) : model :=
  {| kubeconfig := kubeconfig m; pods := pods m; filteredPods := filteredPods m;
     clusterStats := clusterStats m; namespaces := namespaces m;
     currentNsIdx := currentNsIdx m; state := state m; sort := sort m;
     cursor := cursor m; showIssues := showIssues m; loading := loading m;
     msg := msg m; textInput := v; searchActive := searchActive m;
     podToDelete := podToDelete m; viewport := viewport m; logContent := logContent m;
     diagContent := diagContent m; yamlContent := yamlContent m;
     selectedPod := selectedPod m; containerList := containerList m;
     containerCursor := containerCursor m; targetAction := targetAction m;
     width := width m; height := height m; activeForwards := activeForwards m |}.

Definition set_searchActive (v : bool) (m : model) : model :=
  {| kubeconfig := kubeconfig m; pods := pods m; filteredPods := filteredPods m;
     clusterStats := clusterStats m; namespaces := namespaces m;
     currentNsIdx := currentNsIdx m; state := state m; sort := sort m;
     cursor := cursor m; showIssues := showIssues m; loading := loading m;
     msg := msg m; textInput := textInput m; searchActive := v;
     podToDelete := podToDelete m; viewport := viewport m; logContent := logContent m;
     diagContent := diagContent m; yamlContent := yamlContent m;
     selectedPod := selectedPod m; containerList := containerList m;
     containerCursor := containerCursor m; targetAction := targetAction m;
     width := width m; height := height m; activeForwards := activeForwards m |}.

Definition set_podToDelete (v : option PodInfo) (m : model) : model :=
  {| kubeconfig := kubeconfig m; pods := pods m; filteredPods := filteredPods m;
     clusterStats := clusterStats m; namespaces := namespaces m;
     currentNsIdx := currentNsIdx m; state := state m; sort := sort m;
     cursor := cursor m; showIssues := showIssues m; loading := loading m;
     msg := msg m; textInput := textInput m; searchActive := searchActive m;
     podToDelete := v; viewport := viewport m; logContent := logContent m;
     diagContent := diagContent m; yamlContent := yamlContent m;
     selectedPod := selectedPod m; containerList := containerList m;
     containerCursor := containerCursor m; targetAction := targetAction m;
     width := width m; height := height m; activeForwards := activeForwards m |}.

Definition set_viewport (v : viewport_Model E) (m : model) : model :=
  {| kubeconfig := kubeconfig m; pods := pods m; filteredPods := filteredPods m;
     clusterStats := clusterStats m; namespaces := namespaces m;
     currentNsIdx := currentNsIdx m; state := state m; sort := sort m;
     cursor := cursor m; showIssues := showIssues m; loading := loading m;
     msg := msg m; textInput := textInput m; searchActive := searchActive m;
     podToDelete := podToDelete m; viewport := v; logContent := logContent m;
     diagContent := diagContent m; yamlContent := yamlContent m;
     selectedPod := selectedPod m; containerList := containerList m;
     containerCursor := containerCursor m; targetAction := targetAction m;
     width := width m; height := height m; activeForwards := activeForwards m |}.

Definition set_logContent (v : string) (m : model) : model :=
  {| kubeconfig := kubeconfig m; pods := pods m; filteredPods := filteredPods m;
     clusterStats := clusterStats m; namespaces := namespaces m;
     currentNsIdx := currentNsIdx m; state := state m; sort := sort m;
     cursor := cursor m; showIssues := showIssues m; loading := loading m;
     msg := msg m; textInput := textInput m; searchActive := searchActive m;
     podToDelete := podToDelete m; viewport := viewport m; logContent := v;
     diagContent := diagContent m; yamlContent := yamlContent m;
     selectedPod := selectedPod m; containerList := containerList m;
     containerCursor := containerCursor m; targetAction := targetAction m;
     width := width m; height := height m; activeForwards := activeForwards m |}.

Definition set_diagContent (v : string) (m : model) : model :=
  {| kubeconfig := kubeconfig m; pods := pods m; filteredPods := filteredPods m;
     clusterStats := clusterStats m; namespaces := namespaces m;
     currentNsIdx := currentNsIdx m; state := state m; sort := sort m;
     cursor := cursor m; showIssues := showIssues m; loading := loading m;
     msg := msg m; textInput := textInput m; searchActive := searchActive m;
     podToDelete := podToDelete m; viewport := viewport m; logContent := logContent m;
     diagContent := v; yamlContent := yamlContent m; selectedPod := selectedPod m;
     containerList := containerList m; containerCursor := containerCursor m;
     targetAction := targetAction m; width := width m; height := height m;
     activeForwards := activeForwards m |}.

Definition set_yamlContent (v : string) (m : model) : model :=
  {| kubeconfig := kubeconfig m; pods := pods m; filteredPods := filteredPods m;
     clusterStats := clusterStats m; namespaces := namespaces m;
     currentNsIdx := currentNsIdx m; state := state m; sort := sort m;
     cursor := cursor m; showIssues := showIssues m; loading := loading m;
     msg := msg m; textInput := textInput m; searchActive := searchActive m;
     podToDelete := podToDelete m; viewport := viewport m; logContent := logContent m;
     diagContent := diagContent m; yamlContent := v; selectedPod := selectedPod m;
     containerList := containerList m; containerCursor := containerCursor m;
     targetAction := targetAction m; width := width m; height := height m;
     activeForwards := activeForwards m |}.

Definition set_selectedPod (v : option PodInfo) (m : model) : model :=
  {| kubeconfig := kubeconfig m; pods := pods m; filteredPods := filteredPods m;
     clusterStats := clusterStats m; namespaces := namespaces m;
     currentNsIdx := currentNsIdx m; state := state m; sort := sort m;
     cursor := cursor m; showIssues := showIssues m; loading := loading m;
     msg := msg m; textInput := textInput m; searchActive := searchActive m;
     podToDelete := podToDelete m; viewport := viewport m; logContent := logContent m;
     diagContent := diagContent m; yamlContent := yamlContent m; selectedPod := v;
     containerList := containerList m; containerCursor := containerCursor m;
     targetAction := targetAction m; width := width m; height := height m;
     activeForwards := activeForwards m |}.

Definition set_containerList (v : list string) (m : model) : model :=
  {| kubeconfig := kubeconfig m; pods := pods m; filteredPods := filteredPods m;
     clusterStats := clusterStats m; namespaces := namespaces m;
     currentNsIdx := currentNsIdx m; state := state m; sort := sort m;
     cursor := cursor m; showIssues := showIssues m; loading := loading m;
     msg := msg m; textInput := textInput m; searchActive := searchActive m;
     podToDelete := podToDelete m; viewport := viewport m; logContent := logContent m;
     diagContent := diagContent m; yamlContent := yamlContent m;
     selectedPod := selectedPod m; containerList := v;
     containerCursor := containerCursor m; targetAction := targetAction m;
     width := width m; height := height m; activeForwards := activeForwards m |}.

Definition set_containerCursor (v : Z) (m : model) : model :=
  {| kubeconfig := kubeconfig m; pods := pods m; filteredPods := filteredPods m;
     clusterStats := clusterStats m; namespaces := namespaces m;
     currentNsIdx := currentNsIdx m; state := state m; sort := sort m;
     cursor := cursor m; showIssues := showIssues m; loading := loading m;
     msg := msg m; textInput := textInput m; searchActive := searchActive m;
     podToDelete := podToDelete m; viewport := viewport m; logContent := logContent m;
     diagContent := diagContent m; yamlContent := yamlContent m;
     selectedPod := selectedPod m; containerList := containerList m;
     containerCursor := v; targetAction := targetAction m; width := width m;
     height := height m; activeForwards := activeForwards m |}.

Definition set_targetAction (v : string) (m : model) : model :=
  {| kubeconfig := kubeconfig m; pods := pods m; filteredPods := filteredPods m;
     clusterStats := clusterStats m; namespaces := namespaces m;
     currentNsIdx := currentNsIdx m; state := state m; sort := sort m;
     cursor := cursor m; showIssues := showIssues m; loading := loading m;
     msg := msg m; textInput := textInput m; searchActive := searchActive m;
     podToDelete := podToDelete m; viewport := viewport m; logContent := logContent m;
     diagContent := diagContent m; yamlContent := yamlContent m;
     selectedPod := selectedPod m; containerList := containerList m;
     containerCursor := containerCursor m; targetAction := v; width := width m;
     height := height m; activeForwards := activeForwards m |}.

Definition set_width (v : Z) (m : model) : model :=
  {| kubeconfig := kubeconfig m; pods := pods m; filteredPods := filteredPods m;
     clusterStats := clusterStats m; namespaces := namespaces m;
     currentNsIdx := currentNsIdx m; state := state m; sort := sort m;
     cursor := cursor m; showIssues := showIssues m; loading := loading m;
     msg := msg m; textInput := textInput m; searchActive := searchActive m;
     podToDelete := podToDelete m; viewport := viewport m; logContent := logContent m;
     diagContent := diagContent m; yamlContent := yamlContent m;
     selectedPod := selectedPod m; containerList := containerList m;
     containerCursor := containerCursor m; targetAction := targetAction m; width := v;
     height := height m; activeForwards := activeForwards m |}.

Definition set_height (v : Z) (m : model) : model :=
  {| kubeconfig := kubeconfig m; pods := pods m; filteredPods := filteredPods m;
     clusterStats := clusterStats m; namespaces := namespaces m;
     currentNsIdx := currentNsIdx m; state := state m; sort := sort m;
     cursor := cursor m; showIssues := showIssues m; loading := loading m;
     msg := msg m; textInput := textInput m; searchActive := searchActive m;
     podToDelete := podToDelete m; viewport := viewport m; logContent := logContent m;
     diagContent := diagContent m; yamlContent := yamlContent m;
     selectedPod := selectedPod m; containerList := containerList m;
     containerCursor := containerCursor m; targetAction := targetAction m;
     width := width m; height := v; activeForwards := activeForwards m |}.

Definition set_activeForwards (v : gmap string (list string)) (m : model) : model :=
  {| kubeconfig := kubeconfig m; pods := pods m; filteredPods := filteredPods m;
     clusterStats := clusterStats m; namespaces := namespaces m;
     currentNsIdx := currentNsIdx m; state := state m; sort := sort m;
     cursor := cursor m; showIssues := showIssues m; loading := loading m;
     msg := msg m; textInput := textInput m; searchActive := searchActive m;
     podToDelete := podToDelete m; viewport := viewport m; logContent := logContent m;
     diagContent := diagContent m; yamlContent := yamlContent m;
     selectedPod := selectedPod m; containerList := containerList m;
     containerCursor := containerCursor m; targetAction := targetAction m;
     width := width m; height := height m; activeForwards := v |}.

(** ** Commands

    A [tea.Cmd] is kept as data: which function built it and what it captured.
    What running it sends back is given further down ([fetchPods_run], ...). *)

Inductive Cmd :=
| cmdNil
| tea_Quit
| tea_Batch (cs : list Cmd)
| textinput_Blink
| libCmd (c : LibCmd E)
| fetchPods
| fetchClusterStats
| fetchNamespaces
| tick
| fetchLogs (p : PodInfo) (container : string)
| openShell (namespace pod container kubeconfig : string)
| diagnosePod (pod : PodInfo)
| fetchYaml (namespace pod : string)
| cleanseNamespace (namespace : string)
| deletePod (p : PodInfo).

(** [initialModel] *)
Definition initialModel (k : string) (ti : textinput_Model E) : model :=
  {| kubeconfig := k; pods := []; filteredPods := []; clusterStats := ClusterStats_zero;
     namespaces := ["ALL"]; currentNsIdx := 0; state := viewList; sort := sortDefault;
     cursor := 0; showIssues := false; loading := true; msg := ""; textInput := ti;
     searchActive := false; podToDelete := None; viewport := viewport_zero E;
     logContent := ""; diagContent := ""; yamlContent := ""; selectedPod := None;
     containerList := []; containerCursor := 0; targetAction := ""; width := 0;
     height := 0; activeForwards := ∅ |}.

(** ** Filter and sort *)

(** The pods the issues filter drops. *)
Definition healthy (p : PodInfo) : bool :=
  (String.eqb (Status p) "Running" || String.eqb (Status p) "Succeeded")
  && (Restarts p =? 0) && IsReady p.

(** The body of the loop over [m.pods]: [false] where it says [continue]. *)
Definition retained (selectedNs searchTerm : string) (issues : bool) (p : PodInfo) : bool :=
  if negb (String.eqb selectedNs "ALL") && negb (String.eqb (Namespace p) selectedNs)
  then false
  else if issues && healthy p
  then false
  else if negb (String.eqb searchTerm "")
          && negb (strings_Contains (strings_ToLower E (Name p)) searchTerm)
  then false
  else true.

(** The comparison handed to [sort.Slice]. *)
Definition less (s : sortMode) (a b : PodInfo) : bool :=
  match s with
  | sortCPU => RawCpu b <? RawCpu a
  | sortMem => RawMem b <? RawMem a
  | sortDefault =>
      if negb (String.eqb (Status a) "Running") && String.eqb (Status b) "Running"
      then true
      else if String.eqb (Status a) "Running" && negb (String.eqb (Status b) "Running")
      then false
      else String.ltb (Name a) (Name b)
  end.

(** [filterPods]: the loop over the snapshot, then the sort.  It panics when
    the namespace index is out of range. *)
Definition filterPods (m : model) : option model :=
  selectedNs ← index (namespaces m) (currentNsIdx m);
  let searchTerm := strings_ToLower E (textinput_Value E (textInput m)) in
  let target := List.filter (retained selectedNs searchTerm (showIssues m)) (pods m) in
  let target := sort_Slice E PodInfo (less (sort m)) target in
  Some (set_filteredPods target m).

(** ** Pagination *)

(** The viewport capacity, the local [perPage] of [calculatePagination]. *)
Definition perPage (m : model) : Z :=
  let perPage := int_sub (height m) 12 in
  if perPage <=? 0 then 5 else perPage.

(** [calculatePagination]: the window [(start, end)] of rows to draw. *)
Definition calculatePagination (m : model) : Z * Z :=
  let perPage := perPage m in
  if perPage <? len (filteredPods m) then
    if cursor m <? perPage then (0, perPage)
    else (int_add (int_sub (cursor m) perPage) 1, int_add (cursor m) 1)
  else (0, len (filteredPods m)).

(** ** Choosing the container *)

(** [initiateAction]: into the picker for a pod of several containers, else
    straight to the logs or the shell of its only container. *)
Definition initiateAction (m : model) (pod : PodInfo) (action : string) : model * Cmd :=
  if 1 <? len (Containers pod) then
    let m := set_selectedPod (Some pod) m in
    let m := set_containerList (Containers pod) m in
    let m := set_targetAction action m in
    let m := set_state viewContainerSelect m in
    let m := set_containerCursor 0 m in
    (m, cmdNil)
  else
    let container := match Containers pod with c :: _ => c | [] => "" end in
    if String.eqb action "logs" then
      let m := set_selectedPod (Some pod) m in
      let m := set_state viewLogs m in
      let m := set_msg ("Logs: " +:+ Name pod) m in
      (m, fetchLogs pod container)
    else
      (m, openShell (Namespace pod) (Name pod) container (kubeconfig m)).

(** ** The reducer

    [Update] is split along its [switch]: one definition per session state,
    each returning the model and command of the [return] it reaches, or
    [None] where the Go code panics. *)

(** The search bar is open: every key goes to it. *)
Definition updateSearch (m : model) (key : string) : option (model * Cmd) :=
  if key_in key ["enter"; "esc"] then
    let m := set_searchActive false m in
    let m := set_textInput (textinput_Blur E (textInput m)) m in
    Some (m, cmdNil)
  else
    let '(ti, cmd) := textinput_Update E (textInput m) key in
    let m := set_textInput ti m in
    m ← filterPods m;
    Some (m, libCmd cmd).

(** [case "f"]: toggle the port-forward of the selected pod. *)
Definition toggleForward (m : model) (selected : PodInfo) : model :=
  let key := Namespace selected +:+ "/" +:+ Name selected in
  match activeForwards m !! key with
  | Some _ =>
      let m := set_activeForwards (delete key (activeForwards m)) m in
      set_msg ("Stopped forwarding " +:+ Name selected) m
  | None =>
      let targetPort := if Port selected =? 0 then 80 else Port selected in
      let c := ["kubectl"; "port-forward"; "-n"; Namespace selected; Name selected;
                "8080:" +:+ fmt_d targetPort] in
      match exec_Start E c with
      | None =>
          let m := set_activeForwards (<[key := c]> (activeForwards m)) m in
          set_msg ("Forwarding " +:+ Name selected +:+ " -> :8080") m
      | Some err => set_msg ("Forward fail: " +:+ err) m
      end
  end.

Definition updateList (m : model) (key : string) : option (model * Cmd) :=
  if key_in key ["q"; "ctrl+c"] then
    (* every running port-forward is killed first: an effect on the processes only *)
    Some (m, tea_Quit)
  else if key_in key ["up"; "k"] then
    let m := if 0 <? cursor m then set_cursor (int_sub (cursor m) 1) m else m in
    Some (m, cmdNil)
  else if key_in key ["down"; "j"] then
    let m := if cursor m <? int_sub (len (filteredPods m)) 1
             then set_cursor (int_add (cursor m) 1) m else m in
    Some (m, cmdNil)
  else if String.eqb key "/" then
    let m := set_searchActive true m in
    let m := set_textInput (textinput_Focus E (textInput m)) m in
    Some (m, textinput_Blink)
  else if String.eqb key "c" then
    let m := set_sort sortCPU m in
    m ← filterPods m;
    Some (set_msg "Sort: CPU Usage" m, cmdNil)
  else if String.eqb key "m" then
    let m := set_sort sortMem m in
    m ← filterPods m;
    Some (set_msg "Sort: Memory Usage" m, cmdNil)
  else if String.eqb key "n" then
    if 1 <? len (namespaces m) then
      let m := set_currentNsIdx (int_add (currentNsIdx m) 1) m in
      let m := if len (namespaces m) <=? currentNsIdx m then set_currentNsIdx 0 m else m in
      let m := set_cursor 0 m in
      let m := set_sort sortDefault m in
      m ← filterPods m;
      Some (m, cmdNil)
    else Some (m, cmdNil)
  else if String.eqb key "tab" then
    let m := set_showIssues (negb (showIssues m)) m in
    let m := set_cursor 0 m in
    m ← filterPods m;
    let m := if showIssues m then set_msg "Filter: Issues Only" m
             else set_msg "Filter: Showing All" m in
    Some (m, cmdNil)
  else if String.eqb key "enter" then
    if 0 <? len (filteredPods m) then
      pod ← index (filteredPods m) (cursor m);
      Some (initiateAction m pod "logs")
    else Some (m, cmdNil)
  else if String.eqb key "s" then
    if 0 <? len (filteredPods m) then
      pod ← index (filteredPods m) (cursor m);
      Some (initiateAction m pod "shell")
    else Some (m, cmdNil)
  else if String.eqb key "?" then
    if 0 <? len (filteredPods m) then
      selected ← index (filteredPods m) (cursor m);
      let m := set_selectedPod (Some selected) m in
      let m := set_state viewDiagnosis m in
      let m := set_msg ("Diagnosing " +:+ Name selected +:+ "...") m in
      Some (m, diagnosePod selected)
    else Some (m, cmdNil)
  else if String.eqb key "y" then
    if 0 <? len (filteredPods m) then
      selected ← index (filteredPods m) (cursor m);
      let m := set_selectedPod (Some selected) m in
      let m := set_state viewYaml m in
      let m := set_msg "Fetching YAML..." m in
      Some (m, fetchYaml (Namespace selected) (Name selected))
    else Some (m, cmdNil)
  else if String.eqb key "r" then
    if 0 <? len (filteredPods m) then
      selected ← index (filteredPods m) (cursor m);
      let m := set_podToDelete (Some selected) m in
      let m := set_state viewRestartConfirm m in
      Some (m, cmdNil)
    else Some (m, cmdNil)
  else if String.eqb key "d" then
    if 0 <? len (filteredPods m) then
      selected ← index (filteredPods m) (cursor m);
      let m := set_podToDelete (Some selected) m in
      let m := set_state viewDeleteConfirm m in
      Some (m, cmdNil)
    else Some (m, cmdNil)
  else if String.eqb key "C" then
    currentNs ← index (namespaces m) (currentNsIdx m);
    if String.eqb currentNs "ALL" then
      Some (set_msg "⚠️ Cannot Cleanse 'ALL'. Select a namespace." m, cmdNil)
    else Some (set_state viewCleanseConfirm m, cmdNil)
  else if String.eqb key "f" then
    if 0 <? len (filteredPods m) then
      selected ← index (filteredPods m) (cursor m);
      Some (toggleForward m selected, cmdNil)
    else Some (m, cmdNil)
  else Some (m, cmdNil).

Definition updateContainerSelect (m : model) (key : string) : option (model * Cmd) :=
  if key_in key ["esc"; "q"] then
    let m := set_state viewList m in
    Some (set_msg "Cancelled" m, cmdNil)
  else if key_in key ["up"; "k"] then
    let m := if 0 <? containerCursor m
             then set_containerCursor (int_sub (containerCursor m) 1) m else m in
    Some (m, cmdNil)
  else if key_in key ["down"; "j"] then
    let m := if containerCursor m <? int_sub (len (containerList m)) 1
             then set_containerCursor (int_add (containerCursor m) 1) m else m in
    Some (m, cmdNil)
  else if String.eqb key "enter" then
    container ← index (containerList m) (containerCursor m);
    let m := set_state viewList m in
    if String.eqb (targetAction m) "logs" then
      let m := set_state viewLogs m in
      pod ← selectedPod m;
      Some (m, fetchLogs pod container)
    else if String.eqb (targetAction m) "shell" then
      pod ← selectedPod m;
      Some (m, openShell (Namespace pod) (Name pod) container (kubeconfig m))
    else Some (m, cmdNil)
  else Some (m, cmdNil).

Definition updateCleanseConfirm (m : model) (key : string) : option (model * Cmd) :=
  if key_in key ["y"; "Y"] then
    ns ← index (namespaces m) (currentNsIdx m);
    let cmd := cleanseNamespace ns in
    let m := set_state viewList m in
    Some (m, cmd)
  else if key_in key ["n"; "N"; "esc"; "q"] then
    let m := set_state viewList m in
    Some (set_msg "Cleanse cancelled." m, cmdNil)
  else Some (m, cmdNil).

Definition updateRestartConfirm (m : model) (key : string) : option (model * Cmd) :=
  if key_in key ["y"; "Y"] then
    target ← podToDelete m;
    let m := set_msg ("Restarting " +:+ Name target +:+ "...") m in
    let cmd := deletePod target in
    let m := set_podToDelete None m in
    let m := set_state viewList m in
    Some (m, cmd)
  else if key_in key ["n"; "N"; "esc"; "q"] then
    let m := set_podToDelete None m in
    let m := set_state viewList m in
    Some (set_msg "Restart cancelled." m, cmdNil)
  else Some (m, cmdNil).

Definition updateDeleteConfirm (m : model) (key : string) : option (model * Cmd) :=
  if key_in key ["y"; "Y"] then
    target ← podToDelete m;
    let m := set_msg ("Deleting " +:+ Name target +:+ "...") m in
    let cmd := deletePod target in
    let m := set_podToDelete None m in
    let m := set_state viewList m in
    Some (m, cmd)
  else if key_in key ["n"; "N"; "esc"; "q"] then
    let m := set_podToDelete None m in
    let m := set_state viewList m in
    Some (set_msg "Delete cancelled." m, cmdNil)
  else Some (m, cmdNil).

(** [case viewLogs, viewDiagnosis, viewYaml] *)
Definition updateViewer (m : model) (key : string) : option (model * Cmd) :=
  if key_in key ["esc"; "q"] then
    let m := set_state viewList m in
    Some (set_msg "Dashboard" m, cmdNil)
  else
    let '(vp, cmd) := viewport_Update E (viewport m) key in
    Some (set_viewport vp m, libCmd cmd).

Definition updateKey (m : model) (key : string) : option (model * Cmd) :=
  if searchActive m then updateSearch m key
  else
    match state m with
    | viewList => updateList m key
    | viewContainerSelect => updateContainerSelect m key
    | viewCleanseConfirm => updateCleanseConfirm m key
    | viewRestartConfirm => updateRestartConfirm m key
    | viewDeleteConfirm => updateDeleteConfirm m key
    | viewLogs | viewDiagnosis | viewYaml => updateViewer m key
    end.

Definition Update (m : model) (tmsg : Msg) : option (model * Cmd) :=
  match tmsg with
  | WindowSizeMsg w h =>
      let m := set_width w m in
      let m := set_height h m in
      let m := set_viewport (viewport_New E w (int_sub h 10)) m in
      Some (m, cmdNil)
  | KeyMsg key => updateKey m key
  | tickMsg => Some (m, tea_Batch [fetchPods; fetchClusterStats; tick])
  | podsMsg l =>
      let m := set_pods l m in
      let m := set_loading false m in
      m ← filterPods m;
      let m :=
        if len (filteredPods m) <=? cursor m then
          if 0 <? len (filteredPods m)
          then set_cursor (int_sub (len (filteredPods m)) 1) m
          else set_cursor 0 m
        else m in
      Some (m, cmdNil)
  | statsMsg s => Some (set_clusterStats s m, cmdNil)
  | nsMsg l => Some (set_namespaces ("ALL" :: l) m, cmdNil)
  | logsMsg s =>
      let m := set_logContent s m in
      let vp := viewport_SetContent E (viewport m) (logContent m) in
      Some (set_viewport (viewport_GotoBottom E vp) m, cmdNil)
  | diagMsg s =>
      let m := set_diagContent s m in
      let vp := viewport_SetContent E (viewport m) (diagContent m) in
      Some (set_viewport (viewport_GotoTop E vp) m, cmdNil)
  | yamlMsg s =>
      let m := set_yamlContent s m in
      let vp := viewport_SetContent E (viewport m) (yamlContent m) in
      Some (set_viewport (viewport_GotoTop E vp) m, cmdNil)
  | deleteMsg s => Some (set_msg s m, fetchPods)
  | nilMsg => Some (m, cmdNil)
  end.

(** The program's event loop, as far as the model goes: the messages are
    applied one after the other; a panic ends the run. *)
Fixpoint run (m : model) (events : list Msg) : option model :=
  match events with
  | [] => Some m
  | e :: events => '(m, _) ← Update m e; run m events
  end.

(** ** What the commands send back

    Each command is a closure over the cluster client; run, it makes its API
    calls and returns one message.  The answers of the cluster are the
    arguments here. *)

Record ContainerMetrics := { UsageCpu : Quantity E; UsageMemory : Quantity E }.

Record PodMetrics := {
  MetricsNamespace : string;
  MetricsName : string;
  MetricsContainers : list ContainerMetrics
}.

Record Node := { AllocatableCpu : Quantity E; AllocatableMemory : Quantity E }.

Record NodeMetrics := { NodeUsageCpu : Quantity E; NodeUsageMemory : Quantity E }.

(** [uMap]: the summed usage of each pod's containers, by "namespace/name". *)
Definition usageMap (mList : option (list PodMetrics))
  : gmap string (Quantity E * Quantity E) :=
  match mList with
  | None => ∅
  | Some items =>
      fold_left
        (fun uMap i =>
           let '(cT, mT) :=
             fold_left
               (fun '(cT, mT) c =>
                  (quantity_Add E cT (UsageCpu c), quantity_Add E mT (UsageMemory c)))
               (MetricsContainers i) (quantity_zero E, quantity_zero E) in
           <[MetricsNamespace i +:+ "/" +:+ MetricsName i := (cT, mT)]> uMap)
        items ∅
  end.

(** The [else if] on the terminated state; [msg] is the note so far. *)
Definition terminatedNote (c : corev1.ContainerStatus) (msg : string) : string :=
  match corev1.Terminated (corev1.State c) with
  | Some t =>
      if negb (String.eqb (corev1.TerminatedReason t) "") then
        let msg := corev1.TerminatedReason t in
        if negb (corev1.ExitCode t =? 0)
        then msg +:+ " (" +:+ fmt_d (corev1.ExitCode t) +:+ ")"
        else msg
      else msg
  | None => msg
  end.

(** The [if] on the waiting state, with its [else if]. *)
Definition containerNote (c : corev1.ContainerStatus) (msg : string) : string :=
  match corev1.Waiting (corev1.State c) with
  | Some w =>
      if negb (String.eqb (corev1.WaitingReason w) "")
      then corev1.WaitingReason w
      else terminatedNote c msg
  | None => terminatedNote c msg
  end.

(** One round of the loop over [p.Status.ContainerStatuses], on
    [(r, ready, msg)]. *)
Definition statusStep (acc : Z * Z * string) (c : corev1.ContainerStatus)
  : Z * Z * string :=
  let '(r, ready, msg) := acc in
  let r := int32_add r (corev1.RestartCount c) in
  let ready := if corev1.Ready c then int_add ready 1 else ready in
  (r, ready, containerNote c msg).

(** The body of the loop over [pList.Items]. *)
Definition podInfoOf (uMap : gmap string (Quantity E * Quantity E)) (p : corev1.Pod)
  : PodInfo :=
  let total := len (corev1.ContainerStatuses p) in
  let port :=
    match corev1.SpecContainers p with
    | c :: _ => match corev1.Ports c with pt :: _ => pt | [] => 0 end
    | [] => 0
    end in
  let containerNames := map corev1.ContainerName (corev1.SpecContainers p) in
  let '(r, ready, msg) := fold_left statusStep (corev1.ContainerStatuses p) (0, 0, "[OK]") in
  let msg := if String.eqb (corev1.Phase p) "Running" && (ready =? total)
             then "[OK]" else msg in
  let msg := if String.eqb (corev1.Phase p) "Succeeded" then "Completed" else msg in
  let '(rawCpu, rawMem, cStr, mStr) :=
    match uMap !! (corev1.Namespace p +:+ "/" +:+ corev1.Name p) with
    | Some (cpu, mem) =>
        let rawCpu := quantity_MilliValue E cpu in
        let rawMem := quantity_Value E mem in
        (rawCpu, rawMem, fmt_d rawCpu +:+ "m", fmt_d (rawMem ÷ (1024 * 1024)) +:+ "Mi")
    | None => (0, 0, "-", "-")
    end in
  let isReady := ((ready =? total) && (0 <? total))
                 || String.eqb (corev1.Phase p) "Succeeded" in
  let readyStr := fmt_d ready +:+ "/" +:+ fmt_d total in
  let age := pod_age E (corev1.CreationTimestamp p) in
  {| Namespace := corev1.Namespace p; Name := corev1.Name p; Ready := readyStr;
     Status := corev1.Phase p; Restarts := r; CpuUsage := cStr; MemUsage := mStr;
     RawCpu := rawCpu; RawMem := rawMem; NodeName := corev1.NodeName p;
     PodIP := corev1.PodIP p; IsReady := isReady; Message := msg; Port := port;
     Age := age; Containers := containerNames |}.

(** [fetchPods]: [pList] is the answer to the pod listing, [mList] the answer
    to the metrics listing ([None] when it is nil). *)
Definition fetchPods_run (pList : result (list corev1.Pod))
    (mList : option (list PodMetrics)) : Msg :=
  match pList with
  | Err _ => nilMsg
  | Ok items => podsMsg (map (podInfoOf (usageMap mList)) items)
  end.

(** [fetchClusterStats] *)
Definition fetchClusterStats_run (nodes : result (list Node))
    (nodeMetrics : option (list NodeMetrics)) : Msg :=
  match nodes with
  | Err _ => statsMsg ClusterStats_zero
  | Ok items =>
      let '(totalCpuCap, totalMemCap) :=
        fold_left
          (fun '(cpu, mem) n =>
             (int_add cpu (quantity_MilliValue E (AllocatableCpu n)),
              int_add mem (quantity_Value E (AllocatableMemory n))))
          items (0, 0) in
      let '(totalCpuUse, totalMemUse) :=
        match nodeMetrics with
        | Some ms =>
            fold_left
              (fun '(cpu, mem) nm =>
                 (int_add cpu (quantity_MilliValue E (NodeUsageCpu nm)),
                  int_add mem (quantity_Value E (NodeUsageMemory nm))))
              ms (0, 0)
        | None => (0, 0)
        end in
      statsMsg {| TotalCpuUsage := totalCpuUse; TotalMemUsage := totalMemUse;
                  TotalCpuCap := totalCpuCap; TotalMemCap := totalMemCap;
                  NodeCount := len items |}
  end.

(** [fetchNamespaces] *)
Definition fetchNamespaces_run (l : result (list string)) : Msg :=
  match l with
  | Err _ => nilMsg
  | Ok names => nsMsg (sort_Strings E names)
  end.

(** [deletePod]: [answer] is what the cluster's delete returned, [Some] of
    the error's text when it refused.  The closure drops it. *)
Definition deletePod_run (p : PodInfo) (answer : option string) : Msg :=
  deleteMsg "Pod deleted.".

(** [cleanseNamespace], likewise for the delete of the whole collection. *)
Definition cleanseNamespace_run (namespace : string) (answer : option string) : Msg :=
  match answer with
  | Some err => deleteMsg ("Cleanse failed: " +:+ err)
  | None => deleteMsg ("ALL PODS IN '" +:+ namespace +:+ "' HAVE BEEN DELETED.")
  end.

(** ** What [View] reads of the model

    [View] draws with the styling and table libraries; what is kept of it
    here is which rows it indexes and which colour it picks for a row. *)

(** The loop [for i := start; i < end; i++ { p := m.filteredPods[i] ... }]:
    the rows of the table, or a panic when one is out of range. *)
Definition tableRows (m : model) : option (list PodInfo) :=
  let '(start, stop) := calculatePagination m in
  mapM (fun k => index (filteredPods m) (start + Z.of_nat k))
    (seq 0 (Z.to_nat (stop - start))).

Inductive rowStyle := selectedRowStyle | cRed | cOrange | cSecondary.

(** The style of row [i] showing pod [p]. *)
Definition rowStyleOf (m : model) (i : Z) (p : PodInfo) : rowStyle :=
  if i =? cursor m then selectedRowStyle
  else if (negb (String.eqb (Status p) "Running")
           && negb (String.eqb (Status p) "Succeeded"))
          || negb (IsReady p)
  then cRed
  else if 0 <? Restarts p then cOrange
  else cSecondary.

(** The FWD column of a row. *)
Definition fwdStatus (m : model) (p : PodInfo) : string :=
  match activeForwards m !! (Namespace p +:+ "/" +:+ Name p) with
  | Some _ => "● 8080"
  | None => "-"
  end.

(** [strings.Repeat(s, count)] panics on a negative count; the modal views
    call it with [m.height/3]. *)
Definition topMargin (m : model) : option unit :=
  if height m ÷ 3 <? 0 then None else Some tt.

(** [View], as far as it can fail: the string it returns is left out, every
    index expression, pointer dereference and [strings.Repeat] it evaluates on
    the way is kept, in the order of the code.  (The slices inside
    [truncate] are not repeated here: at the widths [View] passes, 15 to 55,
    [truncate] returns.) *)
Definition View (m : model) : option unit :=
  if width m =? 0 then Some tt
  else
    match state m with
    | viewDeleteConfirm | viewRestartConfirm =>
        _ ← podToDelete m; topMargin m
    | viewCleanseConfirm =>
        _ ← index (namespaces m) (currentNsIdx m); topMargin m
    | viewContainerSelect => topMargin m
    | viewLogs | viewDiagnosis | viewYaml =>
        _ ← selectedPod m; Some tt
    | viewList =>
        _ ← index (namespaces m) (currentNsIdx m);
        _ ← (if (0 <? len (filteredPods m)) && (cursor m <? len (filteredPods m))
             then _ ← index (filteredPods m) (cursor m); Some tt
             else Some tt);
        _ ← tableRows m;
        Some tt
    end.

(** [Init] *)
Definition Init (m : model) : Cmd :=
  tea_Batch [fetchPods; fetchClusterStats; fetchNamespaces; tick].

(** The commands a command is made of. *)
Fixpoint commands (c : Cmd) : list Cmd :=
  match c with
  | tea_Batch cs => flat_map commands cs
  | cmdNil => []
  | _ => [c]
  end.

(** ** The one-shot fetches *)

(** [fetchLogs]: [stream] is the log stream read to its end, or the error of
    opening it. *)
Definition fetchLogs_run (p : PodInfo) (container : string) (stream : result string)
  : Msg :=
  match stream with
  | Err _ => logsMsg "Error fetching logs"
  | Ok text => logsMsg text
  end.

(** [fetchYaml]: [out] is the standard output of kubectl, or the error of
    running it. *)
Definition fetchYaml_run (namespace pod : string) (out : result string) : Msg :=
  match out with
  | Err err => yamlMsg ("Error: " +:+ err)
  | Ok text => yamlMsg text
  end.

(** ** The diagnosis report *)

(** What [diagnosePod] reads of an event. *)
Record Event := { EventType : string; EventReason : string; EventMessage : string }.

(** The line feed. *)
Definition newline : string := String (Ascii.ascii_of_nat 10) EmptyString.

Section Diagnosis.

(** The three styles of the report: [diagTitleStyle.Render], the red
    foreground and the dim foreground. *)
Variables diagTitle redText dimText : string -> string.

(** [diagnosePod]: [events] is the answer to the listing of the pod's events,
    [stream] the tail of its log read to the end, [None] when there is no
    stream.  [report] is the [strings.Builder]. *)
Definition diagnosePod_run (pod : PodInfo) (events : result (list Event))
    (stream : option string) : Msg :=
  let report := "" in
  let report := report +:+ (diagTitle "[EVENTS]" +:+ newline) in
  let report :=
    match events with
    | Ok items =>
        if 0 <? len items then
          fold_left
            (fun report e =>
               if String.eqb (EventType e) "Warning"
               then report +:+ ("* " +:+ redText (EventReason e) +:+ ": "
                                +:+ EventMessage e +:+ newline)
               else report)
            items report
        else report +:+ ("No critical events." +:+ newline)
    | Err _ => report +:+ ("No critical events." +:+ newline)
    end in
  let report := report +:+ (newline +:+ diagTitle "[ANALYSIS]" +:+ newline) in
  let report :=
    if 5 <? Restarts pod
    then report +:+ ("[!] High Restarts: App likely crashing on init." +:+ newline)
    else report in
  let report :=
    if String.eqb (Status pod) "Pending"
    then report +:+ ("[!] Pending: Check Node Capacity / PVC." +:+ newline)
    else report in
  let report :=
    if negb (IsReady pod) && String.eqb (Status pod) "Running"
    then report +:+ ("[!] Running but Not Ready: Readiness probe failed or app starting."
                     +:+ newline)
    else report in
  let report := report +:+ (newline +:+ diagTitle "[LOGS]" +:+ newline) in
  let report :=
    match stream with
    | Some text => report +:+ dimText text
    | None => report
    end in
  diagMsg report.

End Diagnosis.

End Dashboard.

Arguments model : clear implicits.
Arguments Cmd : clear implicits.

(** ** A concrete environment

    One implementation of the library operations, to run the reducer on
    examples: Go's sort as modelled above (an insertion sort standing in where
    that model gives no result), ASCII lower-casing, a text field that appends
    the typed character, a viewport that holds its content, a process launcher
    that always succeeds, and quantities counted in thousandths. *)

Module Ref.

Definition slice (A : Type) (less : A -> A -> bool) (x : list A) : list A :=
  match GoSort.Slice less x with
  | Some sorted => sorted
  | None => GoSort.insertionSort less x
  end.

Definition lower (c : Ascii.ascii) : Ascii.ascii :=
  let n := Ascii.N_of_ascii c in
  if ((65 <=? n) && (n <=? 90))%N then Ascii.ascii_of_N (n + 32) else c.

Fixpoint ToLower (s : string) : string :=
  match s with
  | EmptyString => EmptyString
  | String c s => String (lower c) (ToLower s)
  end.

Record textinput := { Value : string; Focused : bool }.

Fixpoint dropLast (s : string) : string :=
  match s with
  | EmptyString => EmptyString
  | String c EmptyString => EmptyString
  | String c s => String c (dropLast s)
  end.

Definition typeKey (ti : textinput) (key : string) : textinput * unit :=
  if Focused ti then
    if String.eqb key "backspace" then
      ({| Value := dropLast (Value ti); Focused := true |}, tt)
    else if (String.length key =? 1)%nat then
      ({| Value := Value ti +:+ key; Focused := true |}, tt)
    else (ti, tt)
  else (ti, tt).

Record viewport := { Width : Z; Height : Z; Content : string; YOffset : Z }.

Definition externals : Externals :=
  {| sort_Slice := slice;
     sort_Strings := GoSort.insertionSort String.ltb;
     strings_ToLower := ToLower;
     exec_Start := fun _ => None;
     pod_age := fun _ => "1h";
     LibCmd := unit;
     textinput_Model := textinput;
     textinput_Value := Value;
     textinput_Focus := fun ti => {| Value := Value ti; Focused := true |};
     textinput_Blur := fun ti => {| Value := Value ti; Focused := false |};
     textinput_Update := typeKey;
     viewport_Model := viewport;
     viewport_zero := {| Width := 0; Height := 0; Content := ""; YOffset := 0 |};
     viewport_New := fun w h => {| Width := w; Height := h; Content := ""; YOffset := 0 |};
     viewport_Update := fun vp _ => (vp, tt);
     viewport_SetContent :=
       fun vp s => {| Width := Width vp; Height := Height vp; Content := s;
                      YOffset := YOffset vp |};
     viewport_GotoTop :=
       fun vp => {| Width := Width vp; Height := Height vp; Content := Content vp;
                    YOffset := 0 |};
     viewport_GotoBottom := fun vp => vp;
     Quantity := Z;
     quantity_zero := 0;
     quantity_Add := Z.add;
     quantity_MilliValue := fun q => q;
     quantity_Value := fun q => (q + 999) / 1000 |}.

(** The dashboard as it starts, with an empty search field. *)
Definition start : model externals :=
  initialModel (E := externals) "" {| Value := ""; Focused := false |}.

(** A pod in phase [Running], every container ready. *)
Definition pod (namespace name : string) (cpu : Z) (containers : list string) : PodInfo :=
  {| Namespace := namespace; Name := name; Ready := "1/1"; Status := "Running";
     Restarts := 0; CpuUsage := "-"; MemUsage := "-"; RawCpu := cpu; RawMem := 0;
     NodeName := "node-1"; PodIP := "10.0.0.1"; IsReady := true; Message := "[OK]";
     Port := 0; Age := "1h"; Containers := containers |}.

(** A pod with one container waiting in a crash loop and a second one
    terminated with exit code 1. *)
Definition crashing : corev1.Pod :=
  {| corev1.Namespace := "default"; corev1.Name := "web-0"; corev1.CreationTimestamp := 0;
     corev1.SpecContainers :=
       [ {| corev1.ContainerName := "app"; corev1.Ports := [8080] |};
         {| corev1.ContainerName := "sidecar"; corev1.Ports := [] |} ];
     corev1.NodeName := "node-1"; corev1.Phase := "Running"; corev1.PodIP := "10.0.0.7";
     corev1.ContainerStatuses :=
       [ {| corev1.RestartCount := 3; corev1.Ready := false;
            corev1.State :=
              {| corev1.Waiting := Some {| corev1.WaitingReason := "CrashLoopBackOff" |};
                 corev1.Terminated := None |} |};
         {| corev1.RestartCount := 1; corev1.Ready := false;
            corev1.State :=
              {| corev1.Waiting := None;
                 corev1.Terminated :=
                   Some {| corev1.TerminatedReason := "Error"; corev1.ExitCode := 1 |} |} |} ]
  |}.


(** Twelve idle pods, "a" to "l", and a thirteenth, "m", that uses CPU. *)
Definition thirteen : list PodInfo :=
  map (fun name => pod "default" name 0 ["app"])
    ["a"; "b"; "c"; "d"; "e"; "f"; "g"; "h"; "i"; "j"; "k"; "l"]
  ++ [pod "default" "m" 5 ["app"]].

(** Three pods, the last one with a sidecar. *)
Definition three : list PodInfo :=
  [pod "default" "a" 0 ["app"]; pod "default" "b" 0 []; pod "kube-system" "c" 0 ["app"; "sidecar"]].

(** A pod that has restarted, so that the issues filter keeps it. *)
Definition restarted : PodInfo :=
  {| Namespace := "default"; Name := "job"; Ready := "1/1"; Status := "Running";
     Restarts := 4; CpuUsage := "-"; MemUsage := "-"; RawCpu := 0; RawMem := 0;
     NodeName := "node-1"; PodIP := "10.0.0.9"; IsReady := true; Message := "[OK]";
     Port := 0; Age := "2d"; Containers := ["job"] |}.

(** The list view over [three] and [restarted], in a terminal 14 rows high,
    with three namespaces known and the cursor on the third row. *)
Definition listing : model externals :=
  set_cursor 2
    (set_height 14
       (set_namespaces ["ALL"; "default"; "kube-system"]
          (set_filteredPods (three ++ [restarted])
             (set_pods (three ++ [restarted]) start)))).

End Ref.

(** ** Notions the properties are stated with *)

(** What is assumed of [sort.Slice]: it only moves the elements around. *)
Definition rearranges (E : Externals) : Prop :=
  forall (A : Type) (less : A -> A -> bool) (l : list A),
    Permutation l (sort_Slice E A less l).

(** The [sort.Slice] of the environment is Go's, wherever the model of it
    gives a result. *)
Definition sorts_as_go (E : Externals) : Prop :=
  forall (A : Type) (less : A -> A -> bool) (l sorted : list A),
    GoSort.Slice less l = Some sorted -> sort_Slice E A less l = sorted.

(** Two pods compare equal under the sort key: neither is less. *)
Definition sameKey (s : sortMode) (p q : PodInfo) : bool :=
  negb (less s p q) && negb (less s q p).

(** A sort is stable when the pods of every key come out in the order they
    went in. *)
Definition stable (s : sortMode) (before after : list PodInfo) : Prop :=
  forall p, List.filter (sameKey s p) after = List.filter (sameKey s p) before.

(** The cursor points into the filtered view, or is zero when it is empty. *)
Definition cursor_valid {E : Externals} (m : model E) : Prop :=
  0 <= cursor m < len (filteredPods m) \/ (filteredPods m = [] /\ cursor m = 0).

(** The reason a container status carries, if any: the waiting one before
    the terminated one. *)
Definition waitingReason (c : corev1.ContainerStatus) : option string :=
  match corev1.Waiting (corev1.State c) with
  | Some w =>
      if String.eqb (corev1.WaitingReason w) "" then None
      else Some (corev1.WaitingReason w)
  | None => None
  end.

Definition terminatedReason (c : corev1.ContainerStatus) : option string :=
  match corev1.Terminated (corev1.State c) with
  | Some t =>
      if String.eqb (corev1.TerminatedReason t) "" then None
      else if corev1.ExitCode t =? 0 then Some (corev1.TerminatedReason t)
      else Some (corev1.TerminatedReason t +:+ " (" +:+ fmt_d (corev1.ExitCode t) +:+ ")")
  | None => None
  end.

Definition ownReason (c : corev1.ContainerStatus) : option string :=
  match waitingReason c with
  | Some r => Some r
  | None => terminatedReason c
  end.

(** The note in the order the specification words it: a waiting reason, else
    a terminated reason, else "[OK]" for a running pod with every container
    ready, else "Completed" for a succeeded pod, else the note so far (which
    is the initial "[OK]"). *)
Definition statedNote (p : corev1.Pod) : string :=
  let cs := corev1.ContainerStatuses p in
  match head (omap waitingReason cs) with
  | Some r => r
  | None =>
      match head (omap terminatedReason cs) with
      | Some r => r
      | None =>
          if String.eqb (corev1.Phase p) "Running" && forallb corev1.Ready cs then "[OK]"
          else if String.eqb (corev1.Phase p) "Succeeded" then "Completed"
          else "[OK]"
      end
  end.

(** The number of ready containers, as the loop counts them. *)
Definition readyCount (cs : list corev1.ContainerStatus) : Z :=
  len (List.filter corev1.Ready cs).

(** A computation of the sort leaves a rearrangement of the slice it
    started from. *)
Definition preserves {A X} (m : GoSort.M A X) : Prop :=
  forall data x data', m data = Some (x, data') -> Permutation data data'.

(** *** Notions of the further properties *)

(** The commands that only read the cluster or drive a widget. *)
Definition readOnly {E : Externals} (c : Cmd E) : bool :=
  match c with
  | cmdNil | textinput_Blink | libCmd _ | fetchLogs _ _
  | openShell _ _ _ _ | diagnosePod _ | fetchYaml _ _ => true
  | _ => false
  end.

(** The commands that delete pods. *)
Definition destructive {E : Externals} (c : Cmd E) : bool :=
  match c with
  | deletePod _ | cleanseNamespace _ => true
  | _ => false
  end.

(** What every state of a run keeps: the namespace list starts with "ALL";
    the search bar is only open over the list; a delete or restart
    confirmation has its pod staged; the picker has its pod, that pod's
    containers (more than one) and the action; a viewer has its pod. *)
Definition well_staged {E : Externals} (m : model E) : Prop :=
  hd_error (namespaces m) = Some "ALL"
  /\ (searchActive m = true -> state m = viewList)
  /\ (state m = viewDeleteConfirm \/ state m = viewRestartConfirm ->
      exists p, podToDelete m = Some p)
  /\ (state m = viewContainerSelect ->
      exists p, selectedPod m = Some p /\ containerList m = Containers p
                /\ 1 < len (Containers p)
                /\ (targetAction m = "logs" \/ targetAction m = "shell"))
  /\ (state m = viewLogs \/ state m = viewDiagnosis \/ state m = viewYaml ->
      exists p, selectedPod m = Some p).

(** The indices the reducer reads are in range. *)
Definition indices_in_range {E : Externals} (m : model E) : Prop :=
  len (namespaces m) <= max_int
  /\ (exists ns, index (namespaces m) (currentNsIdx m) = Some ns)
  /\ (filteredPods m <> [] -> exists p, index (filteredPods m) (cursor m) = Some p)
  /\ (state m = viewContainerSelect ->
      exists c, index (containerList m) (containerCursor m) = Some c).

(** The sum of [f] over a list. *)
Definition sumOf {A} (f : A -> Z) (l : list A) : Z :=
  fold_right (fun x acc => f x + acc) 0 l.

(** The usage a metrics item reports for its pod: the sums over its
    containers, as the inner loop of [fetchPods] adds them up. *)
Definition containerTotals {E : Externals} (i : PodMetrics) : Quantity E * Quantity E :=
  fold_left
    (fun '(cT, mT) c => (quantity_Add E cT (UsageCpu c), quantity_Add E mT (UsageMemory c)))
    (MetricsContainers i) (quantity_zero E, quantity_zero E).

(** [a] may stand before [b] in a list sorted by [less]: [b] is not less
    than [a]. *)
Definition inOrder {A} (less : A -> A -> bool) (a b : A) : Prop := less b a = false.

(** The state a run ends in (the state it began in, should it panic). *)
Definition after {E : Externals} (m : model E) (events : list Msg) : model E :=
  default m (run m events).

(** *** Sample states *)

Module Sample.

(** A pod in phase [Running] whose only container is ready and has never
    restarted. *)
Definition running : corev1.Pod :=
  {| corev1.Namespace := "default"; corev1.Name := "api-0"; corev1.CreationTimestamp := 0;
     corev1.SpecContainers := [ {| corev1.ContainerName := "api"; corev1.Ports := [8443] |} ];
     corev1.NodeName := "node-1"; corev1.Phase := "Running"; corev1.PodIP := "10.0.0.8";
     corev1.ContainerStatuses :=
       [ {| corev1.RestartCount := 0; corev1.Ready := true;
            corev1.State := {| corev1.Waiting := None; corev1.Terminated := None |} |} ]
  |}.

(** [Ref.listing] in a terminal 80 columns wide. *)
Definition wide : model Ref.externals := set_width 80 Ref.listing.

(** [Ref.listing] with the search bar open. *)
Definition searching : model Ref.externals := set_searchActive true Ref.listing.

(** The delete confirmation for [Ref.restarted]. *)
Definition confirming : model Ref.externals :=
  set_podToDelete (Some Ref.restarted) (set_state viewDeleteConfirm Ref.listing).

End Sample.

(** ** Properties *)

(** *** Machine arithmetic that stays in range *)

Lemma int_add_small (a b : Z) : min_int <= a + b <= max_int -> int_add a b = a + b.
Proof.
  unfold int_add, wrap, min_int, max_int. intros H.
  rewrite Z.mod_small; lia.
Qed.

Lemma int_sub_small (a b : Z) : min_int <= a - b <= max_int -> int_sub a b = a - b.
Proof.
  unfold int_sub, wrap, min_int, max_int. intros H.
  rewrite Z.mod_small; lia.
Qed.

Lemma int_sub_range (a b : Z) : min_int <= int_sub a b <= max_int.
Proof.
  unfold int_sub, wrap, min_int, max_int.
  pose proof (Z.mod_pos_bound (a - b + 2 ^ (64 - 1)) (2 ^ 64) ltac:(lia)). lia.
Qed.

Lemma len_nonneg {A} (l : list A) : 0 <= len l.
Proof. unfold len. lia. Qed.

Lemma len_nil_iff {A} (l : list A) : len l = 0 <-> l = [].
Proof.
  unfold len. destruct l; simpl; split; intros H; try reflexivity; try lia; discriminate.
Qed.

Lemma index_in_range {A} (l : list A) (i : Z) :
  0 <= i < len l -> exists x, index l i = Some x.
Proof.
  intros [H0 H1]. unfold index, len in *.
  destruct (Z.ltb_spec i 0); [lia|].
  destruct (l !! Z.to_nat i) eqn:Hnth; [eauto|].
  apply lookup_ge_None in Hnth. lia.
Qed.

Lemma index_Some_range {A} (l : list A) (i : Z) (x : A) :
  index l i = Some x -> 0 <= i < len l.
Proof.
  unfold index, len. destruct (Z.ltb_spec i 0); [discriminate|].
  intros H'. apply lookup_lt_Some in H'. lia.
Qed.

(** The tests of a [switch] on a key that is known are decided by
    computation. *)
Ltac decide_keys :=
  repeat match goal with
    | |- context [key_in ?k ?l] =>
        let b := eval vm_compute in (key_in k l) in
        lazymatch b with
        | true => change (key_in k l) with true
        | false => change (key_in k l) with false
        end
    | |- context [String.eqb ?a ?b] =>
        let v := eval vm_compute in (String.eqb a b) in
        lazymatch v with
        | true => change (String.eqb a b) with true
        | false => change (String.eqb a b) with false
        end
    end;
  cbv iota.


(** *** [sort.Slice] *)

Section GoSortProperties.

Context {A : Type} (less : A -> A -> bool).

Lemma index_of_nat (l : list A) (n : nat) : index l (Z.of_nat n) = l !! n.
Proof.
  unfold index. destruct (Z.ltb_spec (Z.of_nat n) 0); [lia|].
  rewrite Nat2Z.id. reflexivity.
Qed.

(** Exchanging two elements rearranges the slice. *)
Lemma insert_head_perm (l : list A) (j : nat) (a y : A) :
  l !! j = Some y -> Permutation (y :: <[j := a]> l) (a :: l).
Proof.
  revert j. induction l as [|b l IH]; intros j Hj; [discriminate|].
  destruct j as [|j]; cbn in *.
  - injection Hj as ->. apply perm_swap.
  - rewrite perm_swap. rewrite (IH j Hj). apply perm_swap.
Qed.

Lemma exchange_perm (l : list A) (i j : nat) (x y : A) :
  l !! i = Some x -> l !! j = Some y ->
  Permutation l (<[j := x]> (<[i := y]> l)).
Proof.
  revert i j. induction l as [|a l IH]; intros i j Hi Hj; [discriminate|].
  destruct i as [|i], j as [|j]; cbn in *.
  - injection Hi as ->. reflexivity.
  - injection Hi as ->. symmetry. apply insert_head_perm. exact Hj.
  - injection Hj as ->. symmetry. apply insert_head_perm. exact Hi.
  - apply perm_skip. apply IH; assumption.
Qed.

Lemma preserves_ret {X} (x : X) : preserves (GoSort.ret (A := A) x).
Proof. intros data y data' [= <- <-]. reflexivity. Qed.

Lemma preserves_no_result {X} : preserves (GoSort.no_result : GoSort.M A X).
Proof. intros data y data' [=]. Qed.

Lemma preserves_bind {X Y} (m : GoSort.M A X) (f : X -> GoSort.M A Y) :
  preserves m -> (forall x, preserves (f x)) -> preserves (GoSort.bind m f).
Proof.
  intros Hm Hf data y data' H. unfold GoSort.bind in H.
  destruct (m data) as [[x data1]|] eqn:Hm1; [|discriminate].
  etransitivity; [eapply Hm; exact Hm1 | eapply Hf; exact H].
Qed.

Lemma preserves_Less (i j : Z) : preserves (GoSort.Less less i j).
Proof.
  intros data b data' H. unfold GoSort.Less in H.
  destruct (index data i), (index data j); try discriminate.
  injection H as _ <-. reflexivity.
Qed.

Lemma preserves_Swap (i j : Z) : preserves (GoSort.Swap (A := A) i j).
Proof.
  intros data u data' H. unfold GoSort.Swap, index in H.
  destruct (i <? 0); [discriminate|].
  destruct (data !! Z.to_nat i) as [x|] eqn:Hi; [|discriminate].
  destruct (j <? 0); [discriminate|].
  destruct (data !! Z.to_nat j) as [y|] eqn:Hj; [|discriminate].
  injection H as _ <-. apply exchange_perm; assumption.
Qed.


Ltac unfold_monad :=
  unfold mbind, mret, GoSort.M_bind, GoSort.M_ret.

Ltac pres :=
  repeat first
    [ assumption
    | apply preserves_ret
    | apply preserves_no_result
    | apply preserves_Less
    | apply preserves_Swap
    | apply preserves_bind; [| intros ?]
    | match goal with
      | |- preserves (if ?b then _ else _) => destruct b
      | |- preserves (match ?x with _ => _ end) => destruct x
      | IH : forall _, _ |- _ => apply IH
      end ].

Lemma preserves_insertionInner (n : nat) (a j : Z) :
  preserves (GoSort.insertionInner less n a j).
Proof. revert a j. induction n; intros; cbn [GoSort.insertionInner]; unfold_monad; pres. Qed.

Lemma preserves_insertionOuter (n : nat) (a b i : Z) :
  preserves (GoSort.insertionOuter less n a b i).
Proof.
  revert a b i. induction n; intros; cbn [GoSort.insertionOuter]; unfold_monad; pres.
  apply preserves_insertionInner.
Qed.

Lemma preserves_insertionSort_func (a b : Z) :
  preserves (GoSort.insertionSort_func less a b).
Proof. apply preserves_insertionOuter. Qed.

Lemma preserves_order2_func (a b swaps : Z) :
  preserves (GoSort.order2_func less a b swaps).
Proof. unfold GoSort.order2_func. unfold_monad. pres. Qed.

Lemma preserves_median_func (a b c swaps : Z) :
  preserves (GoSort.median_func less a b c swaps).
Proof.
  unfold GoSort.median_func. unfold_monad.
  repeat (apply preserves_bind; [apply preserves_order2_func | intros [[? ?] ?]]).
  apply preserves_ret.
Qed.

Lemma preserves_choosePivot_func (a b : Z) :
  preserves (GoSort.choosePivot_func less a b).
Proof.
  unfold GoSort.choosePivot_func, GoSort.medianAdjacent_func. unfold_monad.
  apply preserves_bind; [| intros [? ?]; apply preserves_ret].
  destruct (8 <=? b - a); [| apply preserves_ret].
  apply preserves_bind; [| intros [[[? ?] ?] ?]; apply preserves_median_func].
  destruct (GoSort.shortestNinther <=? b - a); [| apply preserves_ret].
  repeat (apply preserves_bind; [apply preserves_median_func | intros [? ?]]).
  apply preserves_ret.
Qed.

Lemma preserves_reverseRangeLoop (n : nat) (i j : Z) :
  preserves (GoSort.reverseRangeLoop (A := A) n i j).
Proof. revert i j. induction n; intros; cbn [GoSort.reverseRangeLoop]; unfold_monad; pres. Qed.

Lemma preserves_skipOrdered (n : nat) (b i : Z) :
  preserves (GoSort.skipOrdered less n b i).
Proof. revert b i. induction n; intros; cbn [GoSort.skipOrdered]; unfold_monad; pres. Qed.

Lemma preserves_shiftLeft (n : nat) (j : Z) : preserves (GoSort.shiftLeft less n j).
Proof. revert j. induction n; intros; cbn [GoSort.shiftLeft]; unfold_monad; pres. Qed.

Lemma preserves_shiftRight (n : nat) (b j : Z) : preserves (GoSort.shiftRight less n b j).
Proof. revert b j. induction n; intros; cbn [GoSort.shiftRight]; unfold_monad; pres. Qed.

Lemma preserves_partialInsertionSteps (steps : nat) (a b i : Z) :
  preserves (GoSort.partialInsertionSteps less steps a b i).
Proof.
  revert a b i. induction steps; intros; cbn [GoSort.partialInsertionSteps]; unfold_monad.
  - apply preserves_ret.
  - apply preserves_bind; [apply preserves_skipOrdered | intros i'].
    destruct (i' =? b); [apply preserves_ret|].
    destruct (b - a <? GoSort.shortestShifting); [apply preserves_ret|].
    apply preserves_bind; [apply preserves_Swap | intros _].
    apply preserves_bind; [destruct (2 <=? i' - a);
                           [apply preserves_shiftLeft | apply preserves_ret] | intros _].
    apply preserves_bind; [destruct (2 <=? b - i');
                           [apply preserves_shiftRight | apply preserves_ret] | intros _].
    apply IHsteps.
Qed.

Lemma preserves_scanLess (n : nat) (a j i : Z) : preserves (GoSort.scanLess less n a j i).
Proof. revert a j i. induction n; intros; cbn [GoSort.scanLess]; unfold_monad; pres. Qed.

Lemma preserves_scanNotLess (n : nat) (a i j : Z) :
  preserves (GoSort.scanNotLess less n a i j).
Proof. revert a i j. induction n; intros; cbn [GoSort.scanNotLess]; unfold_monad; pres. Qed.

Lemma preserves_scanNotGreater (n : nat) (a j i : Z) :
  preserves (GoSort.scanNotGreater less n a j i).
Proof. revert a j i. induction n; intros; cbn [GoSort.scanNotGreater]; unfold_monad; pres. Qed.

Lemma preserves_scanGreater (n : nat) (a i j : Z) :
  preserves (GoSort.scanGreater less n a i j).
Proof. revert a i j. induction n; intros; cbn [GoSort.scanGreater]; unfold_monad; pres. Qed.

Lemma preserves_partitionLoop (n : nat) (a i j : Z) :
  preserves (GoSort.partitionLoop less n a i j).
Proof.
  revert a i j. induction n; intros; cbn [GoSort.partitionLoop]; unfold_monad.
  - apply preserves_no_result.
  - apply preserves_bind; [apply preserves_scanLess | intros i'].
    apply preserves_bind; [apply preserves_scanNotLess | intros j'].
    destruct (j' <? i'); [apply preserves_ret|].
    apply preserves_bind; [apply preserves_Swap | intros _]. apply IHn.
Qed.

Lemma preserves_partition_func (a b pivot : Z) :
  preserves (GoSort.partition_func less a b pivot).
Proof.
  unfold GoSort.partition_func. unfold_monad.
  apply preserves_bind; [apply preserves_Swap | intros _].
  apply preserves_bind; [apply preserves_scanLess | intros i'].
  apply preserves_bind; [apply preserves_scanNotLess | intros j'].
  destruct (j' <? i').
  - apply preserves_bind; [apply preserves_Swap | intros _]. apply preserves_ret.
  - apply preserves_bind; [apply preserves_Swap | intros _].
    apply preserves_bind; [apply preserves_partitionLoop | intros j''].
    apply preserves_bind; [apply preserves_Swap | intros _]. apply preserves_ret.
Qed.

Lemma preserves_partitionEqualLoop (n : nat) (a i j : Z) :
  preserves (GoSort.partitionEqualLoop less n a i j).
Proof.
  revert a i j. induction n; intros; cbn [GoSort.partitionEqualLoop]; unfold_monad.
  - apply preserves_no_result.
  - apply preserves_bind; [apply preserves_scanNotGreater | intros i'].
    apply preserves_bind; [apply preserves_scanGreater | intros j'].
    destruct (j' <? i'); [apply preserves_ret|].
    apply preserves_bind; [apply preserves_Swap | intros _]. apply IHn.
Qed.

Lemma preserves_partitionEqual_func (a b pivot : Z) :
  preserves (GoSort.partitionEqual_func less a b pivot).
Proof.
  unfold GoSort.partitionEqual_func. unfold_monad.
  apply preserves_bind; [apply preserves_Swap | intros _].
  apply preserves_partitionEqualLoop.
Qed.

Lemma preserves_pdqsortLoop (n : nat) (a b limit : Z) (wasBalanced wasPartitioned : bool) :
  preserves (GoSort.pdqsortLoop less n a b limit wasBalanced wasPartitioned).
Proof.
  revert a b limit wasBalanced wasPartitioned.
  induction n as [|n IH]; intros; cbn [GoSort.pdqsortLoop]; unfold_monad.
  - apply preserves_no_result.
  - destruct (b - a <=? GoSort.maxInsertion); [apply preserves_insertionSort_func|].
    destruct (limit =? 0); [apply preserves_no_result|].
    destruct (negb wasBalanced); [apply preserves_no_result|].
    apply preserves_bind; [apply preserves_choosePivot_func | intros [pivot hint]].
    apply preserves_bind.
    { destruct hint; try apply preserves_ret.
      apply preserves_bind; [apply preserves_reverseRangeLoop | intros _].
      apply preserves_ret. }
    intros [pivot' hint'].
    apply preserves_bind.
    { destruct hint'; try apply preserves_ret.
      destruct (wasBalanced && wasPartitioned); [|apply preserves_ret].
      apply preserves_partialInsertionSteps. }
    intros sorted. destruct sorted; [apply preserves_ret|].
    apply preserves_bind.
    { destruct (0 <? a); [|apply preserves_ret].
      apply preserves_bind; [apply preserves_Less | intros ?; apply preserves_ret]. }
    intros equal. destruct equal.
    + apply preserves_bind; [apply preserves_partitionEqual_func | intros mid]. apply IH.
    + apply preserves_bind; [apply preserves_partition_func | intros [mid already]].
      destruct (mid - a <? b - mid);
        (apply preserves_bind; [apply IH | intros _; apply IH]).
Qed.

(** Whenever the model of [sort.Slice] gives a result, it is a
    rearrangement of the slice. *)
Lemma Slice_perm (x sorted : list A) :
  GoSort.Slice less x = Some sorted -> Permutation x sorted.
Proof.
  unfold GoSort.Slice, GoSort.pdqsort_func. intros H.
  destruct (GoSort.pdqsortLoop less _ _ _ _ _ _ x) as [[u data']|] eqn:Hrun;
    [|discriminate].
  injection H as <-. eapply preserves_pdqsortLoop. exact Hrun.
Qed.


(** *** Short slices: insertion sort *)

Lemma insertBack_length (x : A) (before : list A) :
  length (GoSort.insertBack less x before) = S (length before).
Proof.
  induction before as [|y before IH]; cbn; [reflexivity|].
  destruct (less x y); cbn; [rewrite IH|]; reflexivity.
Qed.

Lemma index_adjacent (l1 l2 : list A) (y x : A) :
  index (l1 ++ y :: x :: l2) (len l1) = Some y
  /\ index (l1 ++ y :: x :: l2) (len l1 + 1) = Some x.
Proof.
  unfold len. split.
  - rewrite index_of_nat. apply list_lookup_middle. reflexivity.
  - replace (Z.of_nat (length l1) + 1) with (Z.of_nat (length (l1 ++ [y])))
      by (rewrite length_app; cbn; lia).
    rewrite index_of_nat.
    change (l1 ++ y :: x :: l2) with (l1 ++ [y] ++ x :: l2). rewrite app_assoc.
    apply list_lookup_middle. reflexivity.
Qed.

Lemma exchange_adjacent (l1 l2 : list A) (y x : A) :
  <[Z.to_nat (len l1) := x]>
    (<[Z.to_nat (len l1 + 1) := y]> (l1 ++ y :: x :: l2))
  = l1 ++ x :: y :: l2.
Proof.
  unfold len.
  replace (Z.to_nat (Z.of_nat (length l1))) with (length l1 + 0)%nat by lia.
  replace (Z.to_nat (Z.of_nat (length l1) + 1)) with (length l1 + 1)%nat by lia.
  rewrite !insert_app_r. reflexivity.
Qed.

(** The inner loop moves the element at [j] back past the elements it is
    less than. *)
Lemma insertionInner_spec (before after : list A) (x : A) (n : nat) (j : Z) :
  (length before < n)%nat ->
  j = len before ->
  GoSort.insertionInner less n 0 j (rev before ++ x :: after)
  = Some (tt, rev (GoSort.insertBack less x before) ++ after).
Proof.
  revert after n j. induction before as [|y before IH]; intros after n j Hn ->.
  - destruct n; [lia|]. reflexivity.
  - destruct n; [cbn in Hn; lia|].
    assert (Hj : len (y :: before) = len (rev before) + 1)
      by (unfold len; rewrite length_rev; cbn [length]; lia).
    cbn [GoSort.insertionInner]. rewrite Hj.
    pose proof (len_nonneg (rev before)) as H0.
    destruct (Z.ltb_spec 0 (len (rev before) + 1)); [|lia].
    cbn [rev]. rewrite <- app_assoc. cbn [app].
    destruct (index_adjacent (rev before) after y x) as [Hy Hx].
    unfold_monad. rewrite Z.add_simpl_r. unfold GoSort.bind at 1. unfold GoSort.Less.
    rewrite Hx, Hy.
    cbn [GoSort.insertBack]. destruct (less x y) eqn:Hless.
    + unfold GoSort.bind at 1. unfold GoSort.Swap.
      rewrite Hx, Hy, exchange_adjacent.
      rewrite (IH (y :: after) n (len (rev before))).
      * cbn [rev]. rewrite <- app_assoc. reflexivity.
      * cbn in Hn. lia.
      * unfold len. rewrite length_rev. lia.
    + cbn [rev]. unfold GoSort.ret. rewrite <- !app_assoc. reflexivity.
Qed.

(** The outer loop inserts the remaining elements one after the other. *)
Lemma insertionOuter_spec (rest before : list A) (n : nat) (b i : Z) :
  (length rest < n)%nat ->
  i = len before ->
  b = len before + len rest ->
  GoSort.insertionOuter less n 0 b i (rev before ++ rest)
  = Some (tt, rev (fold_left (fun before y => GoSort.insertBack less y before) rest before)).
Proof.
  revert before n b i. induction rest as [|x rest IH]; intros before n b i Hn -> ->.
  - destruct n; [lia|]. cbn [GoSort.insertionOuter].
    unfold len at 3. cbn [length Z.of_nat]. rewrite Z.add_0_r, Z.ltb_irrefl.
    rewrite app_nil_r. reflexivity.
  - destruct n; [cbn in Hn; lia|]. cbn [GoSort.insertionOuter].
    assert (Hlen : len (x :: rest) = 1 + len rest) by (unfold len; cbn [length]; lia).
    pose proof (len_nonneg rest). pose proof (len_nonneg before).
    destruct (Z.ltb_spec (len before) (len before + len (x :: rest))); [|lia].
    unfold_monad. unfold GoSort.bind.
    rewrite (insertionInner_spec before rest x _ (len before)); [| |reflexivity].
    + cbn [fold_left]. apply IH.
      * cbn in Hn. lia.
      * unfold len. rewrite insertBack_length. lia.
      * unfold len in *. rewrite insertBack_length. lia.
    + unfold len. lia.
Qed.

Lemma insertionSort_func_spec (x : list A) :
  GoSort.insertionSort_func less 0 (len x) x = Some (tt, GoSort.insertionSort less x).
Proof.
  unfold GoSort.insertionSort_func, GoSort.insertionSort.
  destruct x as [|x0 rest].
  - reflexivity.
  - change (x0 :: rest) with (rev [x0] ++ rest) at 3.
    rewrite (insertionOuter_spec rest [x0]); [reflexivity | | |].
    + unfold len. cbn [length]. lia.
    + reflexivity.
    + unfold len. cbn [length]. lia.
Qed.

(** A slice of at most twelve elements is insertion-sorted. *)
Lemma Slice_short (x : list A) :
  len x <= 12 -> GoSort.Slice less x = Some (GoSort.insertionSort less x).
Proof.
  intros H. unfold GoSort.Slice, GoSort.pdqsort_func. cbn [GoSort.pdqsortLoop].
  rewrite Z.sub_0_r. unfold GoSort.maxInsertion.
  destruct (Z.leb_spec (len x) 12); [|lia].
  rewrite insertionSort_func_spec. reflexivity.
Qed.

(** Insertion sort keeps the order of the elements that satisfy [P], as
    long as none of them is less than another. *)
Lemma insertBack_filter (P : A -> bool) (x : A) (before : list A) :
  (forall u v, P u = true -> P v = true -> less u v = false) ->
  List.filter P (rev (GoSort.insertBack less x before))
  = List.filter P (rev before ++ [x]).
Proof.
  intros HP. induction before as [|y before IH]; [reflexivity|].
  cbn [GoSort.insertBack]. destruct (less x y) eqn:Hless; [|reflexivity].
  cbn [rev]. rewrite (List.filter_app P (rev (GoSort.insertBack less x before))), IH.
  rewrite !List.filter_app, <- !app_assoc. f_equal.
  cbn [List.filter]. destruct (P x) eqn:Hx, (P y) eqn:Hy; try reflexivity.
  rewrite (HP x y Hx Hy) in Hless. discriminate.
Qed.

Lemma insertionSort_filter (P : A -> bool) (x : list A) :
  (forall u v, P u = true -> P v = true -> less u v = false) ->
  List.filter P (GoSort.insertionSort less x) = List.filter P x.
Proof.
  intros HP. unfold GoSort.insertionSort.
  enough (H : forall rest before,
             List.filter P
               (rev (fold_left (fun before y => GoSort.insertBack less y before) rest before))
             = List.filter P (rev before ++ rest))
    by (apply (H x [])).
  induction rest as [|y rest IH]; intros before; cbn [fold_left].
  - rewrite app_nil_r. reflexivity.
  - rewrite IH, List.filter_app, (insertBack_filter P y before HP).
    rewrite <- List.filter_app, <- app_assoc. reflexivity.
Qed.

Lemma insertionSort_perm (x : list A) : Permutation x (GoSort.insertionSort less x).
Proof.
  eapply (preserves_insertionSort_func 0 (len x)). apply insertionSort_func_spec.
Qed.

End GoSortProperties.

Section Properties.

Context {E : Externals}.

(** *** Pagination *)

Lemma perPage_pos (m : model E) : 1 <= perPage m <= max_int.
Proof.
  unfold perPage. pose proof (int_sub_range (height m) 12) as H.
  destruct (Z.leb_spec (int_sub (height m) 12) 0); unfold max_int in *; lia.
Qed.

(** C3, as amended.  For a valid cursor, [calculatePagination] returns the
    window [start, stop) the specification describes: it starts at
    [max 0 (cursor - P + 1)] once the cursor has reached [P] and at 0 before,
    holds at most [P] rows, ends within the list, is the whole list when that
    fits, and contains the cursor when the list is not empty.  The capacity
    [P] is the terminal height less 12 when that is positive and 5
    otherwise: it is at least 1, not at least 5. *)
Theorem calculatePagination_window (m : model E) :
  cursor_valid m ->
  len (filteredPods m) <= max_int ->
  let P := perPage m in
  let start := fst (calculatePagination m) in
  let stop := snd (calculatePagination m) in
  1 <= P
  /\ (13 <= height m <= max_int -> P = height m - 12)
  /\ (min_int + 12 <= height m <= 12 -> P = 5)
  /\ start = (if P <=? cursor m then Z.max 0 (cursor m - P + 1) else 0)
  /\ stop = Z.min (start + P) (len (filteredPods m))
  /\ 0 <= start <= stop
  /\ stop - start <= P
  /\ stop <= len (filteredPods m)
  /\ (len (filteredPods m) <= P -> start = 0 /\ stop = len (filteredPods m))
  /\ (filteredPods m <> [] -> start <= cursor m < stop).
Proof.
  intros Hc Hlen P start stop.
  pose proof (perPage_pos m) as HP. fold P in HP.
  assert (HP13 : 13 <= height m <= max_int -> P = height m - 12).
  { intros Hh. unfold P, perPage. rewrite int_sub_small by (unfold min_int, max_int in *; lia).
    destruct (Z.leb_spec (height m - 12) 0); lia. }
  assert (HP5 : min_int + 12 <= height m <= 12 -> P = 5).
  { intros Hh. unfold P, perPage. rewrite int_sub_small by (unfold min_int, max_int in *; lia).
    destruct (Z.leb_spec (height m - 12) 0); lia. }
  pose proof (len_nonneg (filteredPods m)) as Hl0.
  assert (Hcur : 0 <= cursor m
                 /\ (cursor m < len (filteredPods m)
                     \/ (len (filteredPods m) = 0 /\ cursor m = 0))).
  { destruct Hc as [Hc | [Hnil Hc0]]; [lia|]. rewrite Hnil, Hc0. unfold len. simpl. lia. }
  assert (Hne : filteredPods m <> [] -> cursor m < len (filteredPods m)).
  { intros Hne. destruct Hcur as [_ [H | [H _]]]; [exact H|].
    apply len_nil_iff in H. contradiction. }
  subst start stop. unfold calculatePagination. fold P.
  destruct (Z.ltb_spec P (len (filteredPods m))) as [Hbig | Hfit].
  - destruct (Z.ltb_spec (cursor m) P) as [Hlow | Hhigh]; cbn [fst snd].
    + destruct (Z.leb_spec P (cursor m)); [lia|].
      repeat split; intros; try lia.
    + rewrite (int_sub_small (cursor m) P) by (unfold min_int, max_int in *; lia).
      rewrite !int_add_small by (unfold min_int, max_int in *; lia).
      destruct (Z.leb_spec P (cursor m)); [|lia].
      repeat split; intros; try lia.
  - cbn [fst snd].
    destruct (Z.leb_spec P (cursor m)) as [Hge | Hlt];
      repeat split; intros; try lia;
      match goal with H : filteredPods m <> [] |- _ => specialize (Hne H); lia end.
Qed.

(** *** The filter *)

Lemma healthy_true_iff (p : PodInfo) :
  healthy p = true <->
  (Status p = "Running" \/ Status p = "Succeeded") /\ Restarts p = 0 /\ IsReady p = true.
Proof.
  unfold healthy.
  rewrite !andb_true_iff, orb_true_iff, !String.eqb_eq, Z.eqb_eq. tauto.
Qed.

Lemma retained_true_iff (selectedNs searchTerm : string) (issues : bool) (p : PodInfo) :
  retained selectedNs searchTerm issues p = true <->
  (selectedNs = "ALL" \/ Namespace p = selectedNs)
  /\ (issues = true -> healthy p = false)
  /\ (searchTerm = "" \/ strings_Contains (strings_ToLower E (Name p)) searchTerm = true).
Proof.
  unfold retained.
  destruct (String.eqb_spec selectedNs "ALL") as [Hall | Hall];
    destruct (String.eqb_spec (Namespace p) selectedNs) as [Hns | Hns];
    destruct issues; destruct (healthy p);
    destruct (String.eqb_spec searchTerm "") as [Hs | Hs];
    destruct (strings_Contains (strings_ToLower E (Name p)) searchTerm);
    cbn; intuition congruence.
Qed.

Lemma filterPods_eq (m : model E) (selectedNs : string) :
  index (namespaces m) (currentNsIdx m) = Some selectedNs ->
  filterPods m =
  Some (set_filteredPods
          (sort_Slice E PodInfo (less (sort m))
             (List.filter
                (retained selectedNs (strings_ToLower E (textinput_Value E (textInput m)))
                   (showIssues m))
                (pods m)))
          m).
Proof. intros H. unfold filterPods. rewrite H. reflexivity. Qed.

Lemma filterPods_panics (m : model E) :
  index (namespaces m) (currentNsIdx m) = None -> filterPods m = None.
Proof. intros H. unfold filterPods. rewrite H. reflexivity. Qed.

(** What [filterPods] leaves in the view: the pods that pass the three
    tests, whatever order the sort puts them in. *)
Lemma filterPods_In (m : model E) (selectedNs : string) (p : PodInfo) :
  rearranges E ->
  index (namespaces m) (currentNsIdx m) = Some selectedNs ->
  exists m', filterPods m = Some m'
    /\ (In p (filteredPods m') <->
        In p (pods m)
        /\ retained selectedNs (strings_ToLower E (textinput_Value E (textInput m)))
             (showIssues m) p = true).
Proof.
  intros Hperm Hns. eexists. split; [apply filterPods_eq; exact Hns|].
  cbn. rewrite <- filter_In. split; intros H.
  - eapply Permutation_in; [apply Permutation_sym, Hperm | exact H].
  - eapply Permutation_in; [apply Hperm | exact H].
Qed.

(** C1.  With the issues-only toggle on, a pod of the snapshot that passes
    the namespace and the search test is in the filtered view if and only if
    it is not the case that its status is Running or Succeeded, its restart
    count is 0 and it is ready. *)
Theorem filterPods_issues_only (m : model E) (selectedNs : string) :
  rearranges E ->
  showIssues m = true ->
  index (namespaces m) (currentNsIdx m) = Some selectedNs ->
  exists m', filterPods m = Some m'
    /\ forall p,
         In p (pods m) ->
         (selectedNs = "ALL" \/ Namespace p = selectedNs) ->
         (strings_ToLower E (textinput_Value E (textInput m)) = ""
          \/ strings_Contains (strings_ToLower E (Name p))
               (strings_ToLower E (textinput_Value E (textInput m))) = true) ->
         (In p (filteredPods m') <->
          ~ ((Status p = "Running" \/ Status p = "Succeeded")
             /\ Restarts p = 0 /\ IsReady p = true)).
Proof.
  intros Hperm Hissues Hns.
  eexists. split; [apply filterPods_eq; exact Hns|].
  intros p Hin Hnsp Hsearch.
  destruct (filterPods_In m selectedNs p Hperm Hns) as (m' & Hm' & Hiff).
  rewrite (filterPods_eq m selectedNs Hns) in Hm'. injection Hm' as <-.
  rewrite Hiff, retained_true_iff, Hissues, <- healthy_true_iff.
  destruct (healthy p); intuition congruence.
Qed.

(** *** The sort *)

Lemma ltb_false_eq (a b : string) :
  String.ltb a b = false -> String.ltb b a = false -> a = b.
Proof.
  unfold String.ltb. pose proof (String.compare_antisym a b) as Hanti.
  destruct (String.compare a b) eqn:Hab; [| discriminate |].
  - intros _ _. apply String.compare_eq_iff. exact Hab.
  - destruct (String.compare b a); cbn in Hanti; discriminate.
Qed.

Lemma ltb_irrefl (a : string) : String.ltb a a = false.
Proof.
  unfold String.ltb.
  pose proof (String.compare_antisym a a) as Hanti.
  destruct (String.compare a a); [reflexivity | discriminate | reflexivity].
Qed.

(** Of two pods that compare equal to a third, neither is less than the
    other: the comparisons of [filterPods] are those of an ordering by key. *)
Lemma sameKey_not_less (s : sortMode) (p u v : PodInfo) :
  sameKey s p u = true -> sameKey s p v = true -> less s u v = false.
Proof.
  unfold sameKey. rewrite !andb_true_iff, !negb_true_iff.
  intros [Hpu Hup] [Hpv Hvp]. destruct s; cbn [less] in *.
  - assert (Hu : String.eqb (Status p) "Running" = String.eqb (Status u) "Running"
                 /\ Name p = Name u).
    { destruct (String.eqb (Status p) "Running"), (String.eqb (Status u) "Running");
        cbn in Hpu, Hup; try discriminate; split; try reflexivity;
        apply ltb_false_eq; assumption. }
    assert (Hv : String.eqb (Status p) "Running" = String.eqb (Status v) "Running"
                 /\ Name p = Name v).
    { destruct (String.eqb (Status p) "Running"), (String.eqb (Status v) "Running");
        cbn in Hpv, Hvp; try discriminate; split; try reflexivity;
        apply ltb_false_eq; assumption. }
    destruct Hu as [Hu1 Hu2], Hv as [Hv1 Hv2].
    rewrite <- Hu1, <- Hv1, <- Hu2, <- Hv2, ltb_irrefl.
    destruct (String.eqb (Status p) "Running"); reflexivity.
  - apply Z.ltb_ge. apply Z.ltb_ge in Hpu, Hup, Hpv, Hvp. lia.
  - apply Z.ltb_ge. apply Z.ltb_ge in Hpu, Hup, Hpv, Hvp. lia.
Qed.

(** C2, as amended.  For every sort mode the sorted view is a rearrangement
    of the pods that pass the filters, and when at most twelve pods pass
    them (Go's [sort.Slice] is then an insertion sort) the pods that compare
    equal under the sort key keep the order they had.  Nothing is promised
    of the order of equal keys in longer lists. *)
Theorem filterPods_sort_stable_when_short (m : model E) (selectedNs : string) :
  rearranges E ->
  sorts_as_go E ->
  index (namespaces m) (currentNsIdx m) = Some selectedNs ->
  let target :=
    List.filter
      (retained selectedNs (strings_ToLower E (textinput_Value E (textInput m)))
         (showIssues m))
      (pods m) in
  exists m',
    filterPods m = Some m'
    /\ Permutation target (filteredPods m')
    /\ (len target <= 12 -> stable (sort m) target (filteredPods m')).
Proof.
  intros Hperm Hgo Hns target.
  eexists. split; [apply filterPods_eq; exact Hns|]. cbn. fold target.
  split; [apply Hperm|].
  intros Hshort p.
  rewrite (Hgo _ _ _ _ (Slice_short (less (sort m)) target Hshort)).
  apply insertionSort_filter. intros u v. apply sameKey_not_less.
Qed.

(** *** Keys in the list state *)


Lemma initiateAction_several (m : model E) (pod : PodInfo) (action : string) :
  1 < len (Containers pod) ->
  initiateAction m pod action =
  (set_containerCursor 0
     (set_state viewContainerSelect
        (set_targetAction action
           (set_containerList (Containers pod) (set_selectedPod (Some pod) m)))),
   cmdNil).
Proof.
  intros H. unfold initiateAction.
  destruct (Z.ltb_spec 1 (len (Containers pod))); [reflexivity | lia].
Qed.

Lemma initiateAction_few (m : model E) (pod : PodInfo) (action : string) :
  len (Containers pod) <= 1 ->
  initiateAction m pod action =
  if String.eqb action "logs"
  then (set_msg ("Logs: " +:+ Name pod) (set_state viewLogs (set_selectedPod (Some pod) m)),
        fetchLogs pod (hd "" (Containers pod)))
  else (m, openShell (Namespace pod) (Name pod) (hd "" (Containers pod)) (kubeconfig m)).
Proof.
  intros H. unfold initiateAction.
  destruct (Z.ltb_spec 1 (len (Containers pod))); [lia|].
  destruct (Containers pod); reflexivity.
Qed.

(** C8.  For the pod under the cursor and the keys "enter" (view logs) and
    "s" (open a shell): the container picker is entered if and only if the
    pod has more than one container, and it then holds the pod, its
    containers and the action; with exactly one container the action is
    dispatched at once with that container's name, with none it is
    dispatched with the empty name. *)
Theorem container_picker_iff_several (m : model E) (pod : PodInfo) (key : string) :
  searchActive m = false ->
  state m = viewList ->
  index (filteredPods m) (cursor m) = Some pod ->
  key = "enter" \/ key = "s" ->
  exists m' c,
    Update m (KeyMsg key) = Some (m', c)
    /\ (state m' = viewContainerSelect <-> 1 < len (Containers pod))
    /\ (1 < len (Containers pod) ->
        c = cmdNil /\ selectedPod m' = Some pod /\ containerList m' = Containers pod
        /\ containerCursor m' = 0
        /\ targetAction m' = (if String.eqb key "enter" then "logs" else "shell"))
    /\ (forall name, Containers pod = [name] ->
        c = if String.eqb key "enter" then fetchLogs pod name
            else openShell (Namespace pod) (Name pod) name (kubeconfig m))
    /\ (Containers pod = [] ->
        c = if String.eqb key "enter" then fetchLogs pod ""
            else openShell (Namespace pod) (Name pod) "" (kubeconfig m)).
Proof.
  intros Hs Hst Hpod Hkey.
  pose proof (index_Some_range _ _ _ Hpod) as Hrange.
  assert (Hup : Update m (KeyMsg key)
                = Some (initiateAction m pod
                          (if String.eqb key "enter" then "logs" else "shell"))).
  { unfold Update, updateKey. rewrite Hs, Hst. unfold updateList.
    destruct Hkey as [-> | ->]; decide_keys;
      (destruct (Z.ltb_spec 0 (len (filteredPods m))) as [_ | ?]; [|lia]);
      rewrite Hpod; reflexivity. }
  rewrite Hup. clear Hup.
  set (action := if String.eqb key "enter" then "logs" else "shell").
  destruct (Z.ltb_spec 1 (len (Containers pod))) as [Hmany | Hfew].
  - rewrite (initiateAction_several m pod action Hmany).
    do 2 eexists. split; [reflexivity|]. cbn.
    split; [tauto|]. split; [auto|].
    split; intros; match goal with H : Containers pod = _ |- _ => rewrite H in Hmany end;
      unfold len in Hmany; cbn in Hmany; lia.
  - rewrite (initiateAction_few m pod action Hfew).
    assert (Hact : String.eqb action "logs" = String.eqb key "enter").
    { unfold action. destruct Hkey as [-> | ->]; reflexivity. }
    rewrite Hact.
    destruct (String.eqb key "enter"); do 2 eexists; (split; [reflexivity|]); cbn.
    + split; [split; [discriminate | lia]|]. split; [lia|].
      split; intros; match goal with H : Containers pod = _ |- _ => rewrite H end;
        reflexivity.
    + rewrite Hst. split; [split; [discriminate | lia]|]. split; [lia|].
      split; intros; match goal with H : Containers pod = _ |- _ => rewrite H end;
        reflexivity.
Qed.

(** *** The cursor *)

(** A key typed into the search bar recomputes the view and leaves the
    cursor where it was. *)
Lemma search_keystroke_keeps_cursor (m m' : model E) (key : string) (c : Cmd E) :
  searchActive m = true ->
  Update m (KeyMsg key) = Some (m', c) ->
  cursor m' = cursor m.
Proof.
  intros Hs. unfold Update, updateKey. rewrite Hs. unfold updateSearch.
  destruct (key_in key ["enter"; "esc"]).
  - intros [= <- _]. reflexivity.
  - destruct (textinput_Update E (textInput m) key) as [ti cmd].
    unfold filterPods. cbn.
    destruct (index (namespaces m) (currentNsIdx m)); cbn; [|discriminate].
    intros [= <- _]. reflexivity.
Qed.

(** A new snapshot pulls the cursor back into the view. *)
Lemma snapshot_reclamps_cursor (m m' : model E) (l : list PodInfo) (c : Cmd E) :
  rearranges E ->
  0 <= cursor m ->
  len l <= max_int ->
  Update m (podsMsg l) = Some (m', c) ->
  cursor_valid m'.
Proof.
  intros Hperm H0 Hmax. unfold Update, filterPods. cbn.
  destruct (index (namespaces m) (currentNsIdx m)) as [ns|]; cbn; [|discriminate].
  set (view := sort_Slice E PodInfo _ _).
  assert (Hview : 0 <= len view <= max_int).
  { split; [apply len_nonneg|]. unfold view, len in *.
    rewrite <- (Permutation_length (Hperm _ _ _)).
    pose proof (List.filter_length_le
                  (retained ns (strings_ToLower E (textinput_Value E (textInput m)))
                     (showIssues m)) l).
    lia. }
  unfold cursor_valid.
  destruct (Z.leb_spec (len view) (cursor m)) as [Hout | Hin].
  - destruct (Z.ltb_spec 0 (len view)) as [Hpos | Hzero]; intros [= <- _]; cbn.
    + left. rewrite int_sub_small by (unfold min_int, max_int in *; lia). lia.
    + right. split; [|reflexivity]. apply len_nil_iff. lia.
  - intros [= <- _]. cbn. left. lia.
Qed.

(** *** Confirmations *)

(** C9.  With the same pod staged, the affirmative key dispatches the same
    command from the restart confirmation as from the delete confirmation,
    the delete of that one pod; both clear the staged pod and go back to the
    list. *)
Theorem restart_confirm_is_delete_confirm
    (m1 m2 : model E) (p : PodInfo) (key : string) :
  searchActive m1 = false ->
  searchActive m2 = false ->
  state m1 = viewRestartConfirm ->
  state m2 = viewDeleteConfirm ->
  podToDelete m1 = Some p ->
  podToDelete m2 = Some p ->
  key = "y" \/ key = "Y" ->
  exists m1' m2',
    Update m1 (KeyMsg key) = Some (m1', deletePod p)
    /\ Update m2 (KeyMsg key) = Some (m2', deletePod p)
    /\ podToDelete m1' = None /\ podToDelete m2' = None
    /\ state m1' = viewList /\ state m2' = viewList.
Proof.
  intros Hs1 Hs2 Hst1 Hst2 Hp1 Hp2 Hkey.
  unfold Update, updateKey. rewrite Hs1, Hs2, Hst1, Hst2.
  unfold updateRestartConfirm, updateDeleteConfirm. rewrite Hp1, Hp2.
  destruct Hkey as [-> | ->]; decide_keys; cbn [mbind option_bind];
    do 2 eexists; repeat split; reflexivity.
Qed.

(** *** Results of commands *)

(** C4, on the code.  A failed listing of the pods sends [nil], which leaves
    the model as it is; a failed listing of the nodes sends zeroed statistics,
    which replace the ones displayed. *)
Theorem failed_stats_fetch_blanks_the_summary
    (m : model E) (err : string) (mList : option (list PodMetrics))
    (nodeMetrics : option (list NodeMetrics)) :
  Update m (fetchPods_run (Err err) mList) = Some (m, cmdNil)
  /\ Update m (fetchClusterStats_run (Err err) nodeMetrics)
     = Some (set_clusterStats ClusterStats_zero m, cmdNil)
  /\ pods (set_clusterStats ClusterStats_zero m) = pods m
  /\ clusterStats (set_clusterStats ClusterStats_zero m) = ClusterStats_zero.
Proof. repeat split; reflexivity. Qed.

(** C7, on the code.  Whatever the cluster answers to the delete of a pod,
    error or not, the status line reads "Pod deleted."; the error of a
    refused cleanse does reach the status line.  Neither message changes the
    session state. *)
Theorem refused_delete_reports_success
    (m : model E) (p : PodInfo) (namespace err : string) :
  Update m (deletePod_run p (Some err)) = Some (set_msg "Pod deleted." m, fetchPods)
  /\ deletePod_run p (Some err) = deletePod_run p None
  /\ Update m (cleanseNamespace_run namespace (Some err))
     = Some (set_msg ("Cleanse failed: " +:+ err) m, fetchPods)
  /\ state (set_msg "Pod deleted." m) = state m.
Proof. repeat split; reflexivity. Qed.

(** *** The note of a pod *)

Lemma containerNote_ownReason (c : corev1.ContainerStatus) (msg : string) :
  containerNote c msg = default msg (ownReason c).
Proof.
  unfold containerNote, terminatedNote, ownReason, waitingReason, terminatedReason.
  destruct (corev1.Waiting (corev1.State c)) as [w|];
    [destruct (String.eqb (corev1.WaitingReason w) ""); [|reflexivity]|];
    (destruct (corev1.Terminated (corev1.State c)) as [t|]; [|reflexivity];
     destruct (String.eqb (corev1.TerminatedReason t) ""); [reflexivity|];
     destruct (corev1.ExitCode t =? 0); reflexivity).
Qed.

Lemma default_last_cons (msg r : string) (l : list string) :
  default msg (last (r :: l)) = default r (last l).
Proof. rewrite last_cons. destruct (last l); reflexivity. Qed.

Lemma default_last_omap_cons {A} (f : A -> option string) (msg : string) (c : A)
    (cs : list A) :
  default msg (last (omap f (c :: cs))) = default (default msg (f c)) (last (omap f cs)).
Proof.
  change (omap f (c :: cs))
    with (match f c with Some y => y :: omap f cs | None => omap f cs end).
  destruct (f c); [apply default_last_cons | reflexivity].
Qed.

Lemma readyCount_le (cs : list corev1.ContainerStatus) : 0 <= readyCount cs <= len cs.
Proof.
  unfold readyCount, len. induction cs as [|c cs IH]; cbn; [lia|].
  destruct (corev1.Ready c); cbn; lia.
Qed.

Lemma readyCount_all (cs : list corev1.ContainerStatus) :
  (readyCount cs =? len cs) = forallb corev1.Ready cs.
Proof.
  induction cs as [|c cs IH]; [reflexivity|].
  pose proof (readyCount_le cs) as Hle.
  unfold readyCount, len in *. cbn. destruct (corev1.Ready c); cbn.
  - rewrite <- IH.
    destruct (Z.eqb_spec (Z.of_nat (length (List.filter corev1.Ready cs)))
                (Z.of_nat (length cs)));
      [apply Z.eqb_eq | apply Z.eqb_neq]; lia.
  - apply Z.eqb_neq. lia.
Qed.

Lemma fold_statusStep (cs : list corev1.ContainerStatus) (r ready : Z) (msg : string) :
  0 <= ready ->
  ready + len cs <= max_int ->
  exists r',
    fold_left statusStep cs (r, ready, msg)
    = (r', ready + readyCount cs, default msg (last (omap ownReason cs))).
Proof.
  revert r ready msg. induction cs as [|c cs IH]; intros r ready msg H0 Hmax.
  - exists r. cbn. unfold readyCount, len. cbn. f_equal. f_equal. lia.
  - assert (Hlen : len (c :: cs) = 1 + len cs) by (unfold len; cbn [length]; lia).
    pose proof (len_nonneg cs) as Hcs.
    cbn [fold_left statusStep]. rewrite containerNote_ownReason.
    destruct (corev1.Ready c) eqn:Hready.
    + rewrite int_add_small by (unfold min_int, max_int in *; lia).
      destruct (IH (int32_add r (corev1.RestartCount c)) (ready + 1)
                  (default msg (ownReason c)) ltac:(lia) ltac:(lia)) as [r' Hr'].
      exists r'. rewrite Hr', default_last_omap_cons. unfold readyCount, len.
      cbn [List.filter]. rewrite Hready. cbn [length]. f_equal. f_equal. lia.
    + destruct (IH (int32_add r (corev1.RestartCount c)) ready
                  (default msg (ownReason c)) ltac:(lia) ltac:(lia)) as [r' Hr'].
      exists r'. rewrite Hr', default_last_omap_cons. unfold readyCount, len.
      cbn [List.filter]. rewrite Hready. reflexivity.
Qed.

(** C5, as amended.  The note of a pod is "Completed" when its phase is
    Succeeded; else "[OK]" when its phase is Running and every container
    status is ready; else the reason of the last container status that
    carries one, where a container's waiting reason goes before its
    terminated reason and a terminated reason has the exit code appended
    when that is not zero; else "[OK]". *)
Theorem note_priority
    (uMap : gmap string (Quantity E * Quantity E)) (p : corev1.Pod) :
  len (corev1.ContainerStatuses p) <= max_int ->
  Message (podInfoOf uMap p) =
  if String.eqb (corev1.Phase p) "Succeeded" then "Completed"
  else if String.eqb (corev1.Phase p) "Running"
          && forallb corev1.Ready (corev1.ContainerStatuses p)
  then "[OK]"
  else default "[OK]" (last (omap ownReason (corev1.ContainerStatuses p))).
Proof.
  intros Hmax. unfold podInfoOf.
  destruct (fold_statusStep (corev1.ContainerStatuses p) 0 0 "[OK]" ltac:(lia) ltac:(lia))
    as [r' Hfold].
  rewrite Hfold.
  destruct (uMap !! _) as [[cpu mem]|]; cbn [Message];
    rewrite Z.add_0_l, readyCount_all; reflexivity.
Qed.

End Properties.

(** C3, the input on which the stated bound fails: in a terminal 13 rows
    high the capacity is 1. *)
Lemma perPage_below_five :
  perPage <$> run Ref.start [WindowSizeMsg 80 13] = Some 1
  /\ ~ (forall m : model Ref.externals, 5 <= perPage m).
Proof.
  split; [vm_compute; reflexivity|].
  intros H. specialize (H (set_height 13 Ref.start)).
  vm_compute in H. apply H. reflexivity.
Qed.

(** C5, the input on which the stated order fails: a pod with one container
    waiting in a crash loop and another terminated with exit code 1.  The
    waiting reason does not come first: the note is the reason of the
    container listed last. *)
Lemma note_is_not_waiting_reason_first :
  Message (podInfoOf (E := Ref.externals) ∅ Ref.crashing) = "Error (1)"
  /\ statedNote Ref.crashing = "CrashLoopBackOff"
  /\ Message (podInfoOf (E := Ref.externals) ∅ Ref.crashing) <> statedNote Ref.crashing.
Proof.
  split; [vm_compute; reflexivity|]. split; [vm_compute; reflexivity|].
  vm_compute. discriminate.
Qed.

(** *** The concrete environment *)

Lemma Ref_rearranges : rearranges Ref.externals.
Proof.
  intros A less l. cbn. unfold Ref.slice.
  destruct (GoSort.Slice less l) as [sorted|] eqn:Hsorted.
  - apply (Slice_perm less). exact Hsorted.
  - apply insertionSort_perm.
Qed.

Lemma Ref_sorts_as_go : sorts_as_go Ref.externals.
Proof. intros A less l sorted H. cbn. unfold Ref.slice. rewrite H. reflexivity. Qed.

(** C2, the input on which stability fails: twelve pods without CPU usage
    followed by one with some, sorted by CPU.  The partition round of
    [sort.Slice] exchanges the first pod with the pivot, and the pods "a" and
    "g", equal under the key, come out in the other order. *)
Lemma cpu_sort_reorders_equal_keys :
  exists view : list PodInfo,
    filteredPods <$> run Ref.start [podsMsg Ref.thirteen; KeyMsg "c"] = Some view
    /\ GoSort.Slice (less sortCPU) Ref.thirteen = Some view
    /\ map Name view = ["m"; "g"; "c"; "d"; "e"; "f"; "a"; "h"; "i"; "j"; "k"; "l"; "b"]
    /\ ~ stable sortCPU Ref.thirteen view.
Proof.
  eexists. split; [vm_compute; reflexivity|].
  split; [vm_compute; reflexivity|]. split; [vm_compute; reflexivity|].
  intros Hstable. specialize (Hstable (Ref.pod "default" "a" 0 ["app"])).
  vm_compute in Hstable. discriminate Hstable.
Qed.


(** C6, on the code.  From the initial model: three pods arrive, the cursor
    goes down twice, the search bar is opened and "a" is typed.  The view
    shrinks to one pod and the cursor stays at 2, out of range; leaving the
    search and pressing "enter" then indexes the view out of range. *)
Theorem search_keystroke_leaves_cursor_out_of_range :
  let typed :=
    [podsMsg Ref.three; KeyMsg "down"; KeyMsg "down"; KeyMsg "/"; KeyMsg "a"] in
  (fun m => (map Name (filteredPods m), cursor m)) <$> run Ref.start typed
  = Some (["a"], 2)
  /\ (forall m, run Ref.start typed = Some m -> ~ cursor_valid m)
  /\ cursor <$> run Ref.start (typed ++ [KeyMsg "enter"; KeyMsg "enter"]) = None.
Proof.
  intros typed.
  assert (Hrun : (fun m => (map Name (filteredPods m), cursor m)) <$> run Ref.start typed
                 = Some (["a"], 2)) by (vm_compute; reflexivity).
  split; [exact Hrun|]. split; [|vm_compute; reflexivity].
  intros m Hm. rewrite Hm in Hrun. cbn in Hrun. injection Hrun as Hview Hcur.
  assert (Hlen : len (filteredPods m) = 1).
  { unfold len. rewrite <- (length_map Name), Hview. reflexivity. }
  unfold cursor_valid. rewrite Hcur, Hlen. intros [H | [_ H]]; lia.
Qed.

(** *** The theorems at concrete inputs *)

Lemma filterPods_issues_only_witness :
  showIssues (set_showIssues true Ref.listing) = true
  /\ exists m',
       filterPods (set_showIssues true Ref.listing) = Some m'
       /\ (In Ref.restarted (filteredPods m') <->
           ~ ((Status Ref.restarted = "Running" \/ Status Ref.restarted = "Succeeded")
              /\ Restarts Ref.restarted = 0 /\ IsReady Ref.restarted = true)).
Proof.
  split; [reflexivity|].
  destruct (filterPods_issues_only (set_showIssues true Ref.listing) "ALL"
              Ref_rearranges eq_refl eq_refl) as (m' & Hm' & H).
  exists m'. split; [exact Hm'|]. apply H.
  - right. right. right. left. reflexivity.
  - left. reflexivity.
  - left. reflexivity.
Defined.

Lemma filterPods_sort_stable_when_short_witness :
  len (pods Ref.listing) <= 12
  /\ exists m',
       filterPods (set_sort sortCPU Ref.listing) = Some m'
       /\ stable sortCPU (pods Ref.listing) (filteredPods m').
Proof.
  assert (Hshort : len (pods Ref.listing) <= 12) by (vm_compute; discriminate).
  split; [exact Hshort|].
  destruct (filterPods_sort_stable_when_short (set_sort sortCPU Ref.listing) "ALL"
              Ref_rearranges Ref_sorts_as_go eq_refl) as (m' & Hm' & _ & Hstable).
  exists m'. split; [exact Hm'|]. exact (Hstable Hshort).
Defined.

Lemma calculatePagination_window_witness :
  cursor_valid Ref.listing
  /\ len (filteredPods Ref.listing) <= max_int
  /\ perPage Ref.listing = 2
  /\ calculatePagination Ref.listing = (1, 3)
  /\ fst (calculatePagination Ref.listing) <= cursor Ref.listing
     < snd (calculatePagination Ref.listing).
Proof.
  assert (Hc : cursor_valid Ref.listing)
    by (left; vm_compute; split; [discriminate | reflexivity]).
  assert (Hl : len (filteredPods Ref.listing) <= max_int) by (vm_compute; discriminate).
  split; [exact Hc|]. split; [exact Hl|].
  split; [reflexivity|]. split; [reflexivity|].
  destruct (calculatePagination_window Ref.listing Hc Hl)
    as (_ & _ & _ & _ & _ & _ & _ & _ & _ & Hin).
  apply Hin. discriminate.
Defined.

Lemma note_priority_witness :
  len (corev1.ContainerStatuses Ref.crashing) <= max_int
  /\ Message (podInfoOf (E := Ref.externals) ∅ Ref.crashing) = "Error (1)".
Proof.
  assert (Hl : len (corev1.ContainerStatuses Ref.crashing) <= max_int)
    by (vm_compute; discriminate).
  split; [exact Hl|].
  rewrite (note_priority (E := Ref.externals) ∅ Ref.crashing Hl). reflexivity.
Defined.

Lemma container_picker_iff_several_witness :
  index (filteredPods Ref.listing) (cursor Ref.listing)
  = Some (Ref.pod "kube-system" "c" 0 ["app"; "sidecar"])
  /\ exists m' c,
       Update Ref.listing (KeyMsg "enter") = Some (m', c)
       /\ (state m' = viewContainerSelect
           <-> 1 < len (Containers (Ref.pod "kube-system" "c" 0 ["app"; "sidecar"]))).
Proof.
  split; [reflexivity|].
  destruct (container_picker_iff_several Ref.listing
              (Ref.pod "kube-system" "c" 0 ["app"; "sidecar"]) "enter"
              eq_refl eq_refl eq_refl (or_introl eq_refl))
    as (m' & c & Hup & Hiff & _).
  exists m', c. split; [exact Hup | exact Hiff].
Defined.

Lemma restart_confirm_is_delete_confirm_witness :
  exists m1' m2',
    Update (set_podToDelete (Some Ref.restarted) (set_state viewRestartConfirm Ref.listing))
      (KeyMsg "y") = Some (m1', deletePod Ref.restarted)
    /\ Update (set_podToDelete (Some Ref.restarted) (set_state viewDeleteConfirm Ref.listing))
         (KeyMsg "y") = Some (m2', deletePod Ref.restarted)
    /\ podToDelete m1' = None /\ podToDelete m2' = None
    /\ state m1' = viewList /\ state m2' = viewList.
Proof.
  exact (restart_confirm_is_delete_confirm
           (set_podToDelete (Some Ref.restarted) (set_state viewRestartConfirm Ref.listing))
           (set_podToDelete (Some Ref.restarted) (set_state viewDeleteConfirm Ref.listing))
           Ref.restarted "y" eq_refl eq_refl eq_refl eq_refl eq_refl eq_refl
           (or_introl eq_refl)).
Defined.


(** * Further properties

    The commands the reducer can set off, what every state of a run keeps,
    the keys of the list one by one, the view that is computed and drawn,
    what the fetches build, and the diagnosis report. *)

(** ** Strings *)

Lemma length_append (a b : string) :
  String.length (a +:+ b) = (String.length a + String.length b)%nat.
Proof. induction a as [|c a IH]; simpl; [reflexivity | f_equal; exact IH]. Qed.

Lemma length_substring (n : nat) (s : string) :
  (n <= String.length s)%nat -> String.length (String.substring 0 n s) = n.
Proof.
  revert s. induction n as [|n IH]; intros [|c s] Hn; simpl in *; try reflexivity; try lia.
  f_equal. apply IH. lia.
Qed.

Lemma append_assoc (a b c : string) : (a +:+ b) +:+ c = a +:+ (b +:+ c).
Proof.
  induction a as [|x a IH]; [reflexivity|].
  change (String x ((a +:+ b) +:+ c) = String x (a +:+ (b +:+ c))). f_equal. exact IH.
Qed.

Lemma append_nil_r (a : string) : a +:+ "" = a.
Proof.
  induction a as [|x a IH]; [reflexivity|].
  change (String x (a +:+ "") = String x a). f_equal. exact IH.
Qed.

Lemma append_inv_head (a b c : string) : a +:+ b = a +:+ c -> b = c.
Proof.
  induction a as [|x a IH]; [exact (fun H => H)|].
  change (String x (a +:+ b) = String x (a +:+ c) -> b = c). intros [= H]. auto.
Qed.

(** X1.  [truncate], called with a width of two or more as [View] does,
    never panics and returns a string of at most that many bytes: the string
    itself when it fits, else its first [l - 2] bytes followed by "..".  The
    result is not cut again. *)
Theorem truncate_fits (s : string) (l : Z) :
  2 <= l <= max_int ->
  exists t,
    truncate s l = Some t
    /\ Z.of_nat (String.length t) = Z.min (Z.of_nat (String.length s)) l
    /\ (Z.of_nat (String.length s) <= l -> t = s)
    /\ (l < Z.of_nat (String.length s) ->
        t = String.substring 0 (Z.to_nat (l - 2)) s +:+ "..")
    /\ truncate t l = Some t.
Proof.
  intros Hl. unfold truncate.
  destruct (Z.ltb_spec l (Z.of_nat (String.length s))) as [Hlong | Hfits].
  - rewrite int_sub_small by (unfold min_int, max_int in *; lia).
    destruct (Z.ltb_spec (l - 2) 0) as [? | _]; [lia|].
    destruct (Z.ltb_spec (Z.of_nat (String.length s)) (l - 2)) as [? | _]; [lia|].
    cbn [orb].
    assert (Hlen : Z.of_nat (String.length
                     (String.substring 0 (Z.to_nat (l - 2)) s +:+ "..")) = l).
    { rewrite length_append, length_substring by lia. cbn [String.length]. lia. }
    eexists. split; [reflexivity|]. rewrite Hlen.
    repeat split; try lia; try reflexivity.
    destruct (Z.ltb_spec l l); [lia | reflexivity].
  - exists s. destruct (Z.ltb_spec l (Z.of_nat (String.length s))); [lia|].
    repeat split; try lia; try reflexivity.
Qed.

(** ** Tactics for the case analysis of [Update] *)

Lemma key_in_two (key a b : string) : key_in key [a; b] = true -> key = a \/ key = b.
Proof.
  unfold key_in. cbn [existsb]. rewrite !orb_true_iff, !String.eqb_eq.
  intuition discriminate.
Qed.

Ltac split_tests :=
  repeat match goal with
    | |- context [if key_in ?k ?l then _ else _] => destruct (key_in k l) eqn:?
    | |- context [if String.eqb ?a ?b then _ else _] => destruct (String.eqb a b) eqn:?
    | |- context [if ?a <? ?b then _ else _] => destruct (a <? b) eqn:?
    | |- context [mbind _ ?x] => destruct x eqn:?; cbn [mbind option_bind]
    end.

Ltac staged :=
  unfold well_staged, toggleForward in *;
  repeat match goal with |- context [match ?b with _ => _ end] => destruct b end;
  cbn;
  repeat match goal with H : _ /\ _ |- _ => destruct H end;
  repeat split; intros;
  repeat match goal with
    | H : _ \/ _ |- _ => destruct H
    end;
  try discriminate; try congruence; eauto 10.

(** ** The commands [Update] sets off *)

Section Commands.
Context {E : Externals}.

Lemma initiateAction_readOnly (m : model E) (pod : PodInfo) (action : string) :
  readOnly (snd (initiateAction m pod action)) = true.
Proof. unfold initiateAction. split_tests; reflexivity. Qed.

(** From the list, a key quits (on "q" or "ctrl+c", the model untouched) or
    sets off a read-only command. *)
Lemma updateList_commands (m m' : model E) (key : string) (c : Cmd E) :
  updateList m key = Some (m', c) ->
  readOnly c = true
  \/ (c = tea_Quit /\ m' = m /\ (key = "q" \/ key = "ctrl+c")).
Proof.
  unfold updateList. destruct (key_in key ["q"; "ctrl+c"]) eqn:Hq.
  - intros [= <- <-]. right. auto using key_in_two.
  - intros Hup. left. revert Hup. split_tests;
      try (intros [= <- <-]; reflexivity); try discriminate.
    all: intros [= Heq];
      match type of Heq with
      | initiateAction ?m0 ?p0 ?a0 = _ =>
          pose proof (initiateAction_readOnly m0 p0 a0) as Hh; rewrite Heq in Hh; exact Hh
      end.
Qed.

Lemma updateSearch_readOnly (m m' : model E) (key : string) (c : Cmd E) :
  updateSearch m key = Some (m', c) -> readOnly c = true.
Proof.
  unfold updateSearch. destruct (textinput_Update E (textInput m) key).
  split_tests; try (intros [= <- <-]; reflexivity); discriminate.
Qed.

Lemma updateContainerSelect_readOnly (m m' : model E) (key : string) (c : Cmd E) :
  updateContainerSelect m key = Some (m', c) -> readOnly c = true.
Proof.
  unfold updateContainerSelect.
  split_tests; try (intros [= <- <-]; reflexivity); discriminate.
Qed.

Lemma updateViewer_readOnly (m m' : model E) (key : string) (c : Cmd E) :
  updateViewer m key = Some (m', c) -> readOnly c = true.
Proof.
  unfold updateViewer. destruct (viewport_Update E (viewport m) key).
  split_tests; intros [= <- <-]; reflexivity.
Qed.

(** A confirmation answers "y" or "Y" with the deletion it was opened for
    and goes back to the list; every other key sets off nothing. *)
Lemma updateDeleteConfirm_commands (m m' : model E) (key : string) (c : Cmd E) :
  updateDeleteConfirm m key = Some (m', c) ->
  c = cmdNil
  \/ ((key = "y" \/ key = "Y") /\ state m' = viewList /\ podToDelete m' = None
      /\ exists p, podToDelete m = Some p /\ c = deletePod p).
Proof.
  unfold updateDeleteConfirm. destruct (key_in key ["y"; "Y"]) eqn:Hy.
  - destruct (podToDelete m) as [p|]; cbn [mbind option_bind]; [|discriminate].
    intros [= <- <-]. right. eauto 10 using key_in_two.
  - split_tests; intros [= <- <-]; left; reflexivity.
Qed.

Lemma updateRestartConfirm_commands (m m' : model E) (key : string) (c : Cmd E) :
  updateRestartConfirm m key = Some (m', c) ->
  c = cmdNil
  \/ ((key = "y" \/ key = "Y") /\ state m' = viewList /\ podToDelete m' = None
      /\ exists p, podToDelete m = Some p /\ c = deletePod p).
Proof.
  unfold updateRestartConfirm. destruct (key_in key ["y"; "Y"]) eqn:Hy.
  - destruct (podToDelete m) as [p|]; cbn [mbind option_bind]; [|discriminate].
    intros [= <- <-]. right. eauto 10 using key_in_two.
  - split_tests; intros [= <- <-]; left; reflexivity.
Qed.

Lemma updateCleanseConfirm_commands (m m' : model E) (key : string) (c : Cmd E) :
  updateCleanseConfirm m key = Some (m', c) ->
  c = cmdNil
  \/ ((key = "y" \/ key = "Y") /\ state m' = viewList
      /\ exists ns, index (namespaces m) (currentNsIdx m) = Some ns
                    /\ c = cleanseNamespace ns).
Proof.
  unfold updateCleanseConfirm. destruct (key_in key ["y"; "Y"]) eqn:Hy.
  - destruct (index (namespaces m) (currentNsIdx m)) as [ns|];
      cbn [mbind option_bind]; [|discriminate].
    intros [= <- <-]. right. eauto 10 using key_in_two.
  - split_tests; intros [= <- <-]; left; reflexivity.
Qed.

Lemma readOnly_commands (c x : Cmd E) :
  readOnly c = true -> In x (commands c) -> x = c /\ readOnly x = true.
Proof.
  destruct c; try discriminate; cbn; intros _ H; try contradiction;
    destruct H as [<- | []]; auto.
Qed.

(** A message that is not a key sets off nothing, or the next round of
    fetches. *)
Lemma Update_other_commands (m m' : model E) (tmsg : Msg) (c : Cmd E) :
  (forall key, tmsg <> KeyMsg key) ->
  Update m tmsg = Some (m', c) ->
  c = cmdNil \/ c = fetchPods \/ c = tea_Batch [fetchPods; fetchClusterStats; tick].
Proof.
  intros Hkey. destruct tmsg; cbn [Update];
    try (intros [= <- <-]; auto; fail).
  - destruct (Hkey key eq_refl).
  - destruct (filterPods _); cbn [mbind option_bind]; [|discriminate].
    intros [= <- <-]. auto.
Qed.

(** Every command [Update] returns, sorted out. *)
Lemma Update_commands (m m' : model E) (tmsg : Msg) (c : Cmd E) :
  Update m tmsg = Some (m', c) ->
  readOnly c = true \/ c = tea_Quit \/ destructive c = true \/ c = fetchPods
  \/ c = tea_Batch [fetchPods; fetchClusterStats; tick].
Proof.
  intros Hup. destruct tmsg as [| key | | | | | | | | |].
  2: {
    cbn [Update] in Hup. unfold updateKey in Hup.
    destruct (searchActive m).
    { left. exact (updateSearch_readOnly _ _ _ _ Hup). }
    destruct (state m).
    - destruct (updateList_commands _ _ _ _ Hup) as [Hc | (-> & _)]; auto.
    - left. exact (updateViewer_readOnly _ _ _ _ Hup).
    - left. exact (updateViewer_readOnly _ _ _ _ Hup).
    - left. exact (updateViewer_readOnly _ _ _ _ Hup).
    - destruct (updateDeleteConfirm_commands _ _ _ _ Hup)
        as [-> | (_ & _ & _ & p & _ & ->)]; auto.
    - destruct (updateRestartConfirm_commands _ _ _ _ Hup)
        as [-> | (_ & _ & _ & p & _ & ->)]; auto.
    - destruct (updateCleanseConfirm_commands _ _ _ _ Hup)
        as [-> | (_ & _ & ns & _ & ->)]; auto.
    - left. exact (updateContainerSelect_readOnly _ _ _ _ Hup).
  }
  all: match type of Hup with
       | Update _ ?t = _ =>
           assert (Hkey : forall key, t <> KeyMsg key) by (intros; discriminate);
           destruct (Update_other_commands m m' t c Hkey Hup) as [-> | [-> | ->]]
       end; auto.
Qed.

(** X2.  A pod or a namespace is deleted only by "y" or "Y" typed into the
    confirmation opened for it: whenever the command [Update] returns
    contains a delete, the message was that key, the search bar was closed,
    the session was in the delete or restart confirmation with that very pod
    staged (or in the cleanse confirmation with that very namespace
    selected), and the session goes back to the list. *)
Theorem destructive_only_after_confirmation
    (m m' : model E) (tmsg : Msg) (c x : Cmd E) :
  Update m tmsg = Some (m', c) ->
  In x (commands c) ->
  destructive x = true ->
  exists key,
    tmsg = KeyMsg key /\ (key = "y" \/ key = "Y")
    /\ searchActive m = false /\ c = x /\ state m' = viewList
    /\ ((exists p, x = deletePod p /\ podToDelete m = Some p /\ podToDelete m' = None
                   /\ (state m = viewDeleteConfirm \/ state m = viewRestartConfirm))
        \/ (exists ns, x = cleanseNamespace ns /\ state m = viewCleanseConfirm
                       /\ index (namespaces m) (currentNsIdx m) = Some ns)).
Proof.
  intros Hup Hin Hx.
  assert (Hro : readOnly c = true -> False).
  { intros Hc. destruct (readOnly_commands c x Hc Hin) as [-> Hr].
    destruct c; discriminate. }
  assert (Hnil : c = cmdNil -> False) by (intros ->; exact (Hro eq_refl)).
  destruct tmsg as [| key | | | | | | | | |].
  2: {
    cbn [Update] in Hup. unfold updateKey in Hup.
    destruct (searchActive m) eqn:Hs.
    { destruct (Hro (updateSearch_readOnly _ _ _ _ Hup)). }
    exists key. split; [reflexivity|].
    destruct (state m) eqn:Hst.
    - destruct (updateList_commands _ _ _ _ Hup) as [Hc | (-> & _ & _)];
        [destruct (Hro Hc)|]. cbn in Hin. destruct Hin as [<- | []]. discriminate.
    - destruct (Hro (updateViewer_readOnly _ _ _ _ Hup)).
    - destruct (Hro (updateViewer_readOnly _ _ _ _ Hup)).
    - destruct (Hro (updateViewer_readOnly _ _ _ _ Hup)).
    - destruct (updateDeleteConfirm_commands _ _ _ _ Hup)
        as [Hc | (Hk & Hst' & Hp' & p & Hp & ->)]; [destruct (Hnil Hc)|].
      cbn in Hin. destruct Hin as [<- | []]. eauto 12.
    - destruct (updateRestartConfirm_commands _ _ _ _ Hup)
        as [Hc | (Hk & Hst' & Hp' & p & Hp & ->)]; [destruct (Hnil Hc)|].
      cbn in Hin. destruct Hin as [<- | []]. eauto 12.
    - destruct (updateCleanseConfirm_commands _ _ _ _ Hup)
        as [Hc | (Hk & Hst' & ns & Hns & ->)]; [destruct (Hnil Hc)|].
      cbn in Hin. destruct Hin as [<- | []]. eauto 12.
    - destruct (Hro (updateContainerSelect_readOnly _ _ _ _ Hup)).
  }
  all: exfalso;
    match type of Hup with
    | Update _ ?t = _ =>
        assert (Hkey : forall key, t <> KeyMsg key) by (intros; discriminate);
        destruct (Update_other_commands m m' t c Hkey Hup) as [-> | [-> | ->]]
    end;
    cbn in Hin; repeat (destruct Hin as [<- | Hin]; try discriminate Hx); exact Hin.
Qed.

(** X3.  The program quits only on "q" or "ctrl+c" typed over the list with
    the search bar closed; in the search bar, in a viewer, in the picker and
    in a confirmation those keys never quit. *)
Theorem quit_only_from_the_list (m m' : model E) (tmsg : Msg) (c : Cmd E) :
  Update m tmsg = Some (m', c) ->
  In tea_Quit (commands c) ->
  exists key,
    tmsg = KeyMsg key /\ (key = "q" \/ key = "ctrl+c")
    /\ state m = viewList /\ searchActive m = false /\ m' = m /\ c = tea_Quit.
Proof.
  intros Hup Hin.
  assert (Hro : readOnly c = true -> False).
  { intros Hc. destruct (readOnly_commands c _ Hc Hin) as [<- Hr]. discriminate. }
  assert (Hnil : c = cmdNil -> False) by (intros ->; exact (Hro eq_refl)).
  destruct tmsg as [| key | | | | | | | | |].
  2: {
    cbn [Update] in Hup. unfold updateKey in Hup.
    destruct (searchActive m) eqn:Hs.
    { destruct (Hro (updateSearch_readOnly _ _ _ _ Hup)). }
    exists key. split; [reflexivity|].
    destruct (state m) eqn:Hst.
    - destruct (updateList_commands _ _ _ _ Hup) as [Hc | (-> & -> & Hk)];
        [destruct (Hro Hc) | auto 10].
    - destruct (Hro (updateViewer_readOnly _ _ _ _ Hup)).
    - destruct (Hro (updateViewer_readOnly _ _ _ _ Hup)).
    - destruct (Hro (updateViewer_readOnly _ _ _ _ Hup)).
    - destruct (updateDeleteConfirm_commands _ _ _ _ Hup)
        as [Hc | (_ & _ & _ & p & _ & ->)]; [destruct (Hnil Hc)|].
      cbn in Hin. destruct Hin as [[=] | []].
    - destruct (updateRestartConfirm_commands _ _ _ _ Hup)
        as [Hc | (_ & _ & _ & p & _ & ->)]; [destruct (Hnil Hc)|].
      cbn in Hin. destruct Hin as [[=] | []].
    - destruct (updateCleanseConfirm_commands _ _ _ _ Hup)
        as [Hc | (_ & _ & ns & _ & ->)]; [destruct (Hnil Hc)|].
      cbn in Hin. destruct Hin as [[=] | []].
    - destruct (Hro (updateContainerSelect_readOnly _ _ _ _ Hup)).
  }
  all: exfalso;
    match type of Hup with
    | Update _ ?t = _ =>
        assert (Hkey : forall key, t <> KeyMsg key) by (intros; discriminate);
        destruct (Update_other_commands m m' t c Hkey Hup) as [-> | [-> | ->]]
    end;
    cbn in Hin; repeat (destruct Hin as [Hin | Hin]; try discriminate Hin); exact Hin.
Qed.

(** X4.  The namespaces are listed once, by [Init]: no message makes
    [Update] ask for them again, the periodic tick included. *)
Theorem namespaces_are_listed_only_at_start
    (m m' : model E) (tmsg : Msg) (c : Cmd E) :
  Update m tmsg = Some (m', c) ->
  ~ In fetchNamespaces (commands c) /\ In fetchNamespaces (commands (Init m)).
Proof.
  intros Hup. split; [|cbn; auto].
  intros Hin.
  destruct (Update_commands _ _ _ _ Hup) as [Hc | [-> | [Hc | [-> | ->]]]].
  - destruct (readOnly_commands c _ Hc Hin) as [<- Hr]. discriminate.
  - cbn in Hin. destruct Hin as [[=] | []].
  - destruct c; try discriminate; cbn in Hin; destruct Hin as [[=] | []].
  - cbn in Hin. destruct Hin as [[=] | []].
  - cbn in Hin. repeat (destruct Hin as [Hin | Hin]; try discriminate Hin). exact Hin.
Qed.

End Commands.

(** ** What every state of a run keeps *)

Section Staging.
Context {E : Externals}.

Lemma filterPods_fields (m m' : model E) :
  filterPods m = Some m' -> exists view, m' = set_filteredPods view m.
Proof.
  unfold filterPods. destruct (index _ _); cbn [mbind option_bind]; [|discriminate].
  intros [= <-]. eauto.
Qed.

Lemma initiateAction_well_staged (m : model E) (pod : PodInfo) (action : string) :
  action = "logs" \/ action = "shell" ->
  state m = viewList ->
  searchActive m = false ->
  well_staged m -> well_staged (fst (initiateAction m pod action)).
Proof.
  intros Ha Hst Hs Hw. unfold initiateAction.
  destruct (Z.ltb_spec 1 (len (Containers pod))).
  - staged.
  - destruct (String.eqb action "logs"); staged.
Qed.

Lemma updateList_well_staged (m m' : model E) (key : string) (c : Cmd E) :
  state m = viewList -> searchActive m = false ->
  well_staged m -> updateList m key = Some (m', c) -> well_staged m'.
Proof.
  intros Hst Hs Hw. unfold updateList.
  split_tests; try discriminate;
    try (intros [= <- <-]);
    repeat match goal with
      | H : filterPods _ = Some _ |- _ =>
          apply filterPods_fields in H; destruct H as [? ->]
      end.
  all: try (staged; fail).
  all: intros [= Heq];
    match type of Heq with
    | initiateAction ?m0 ?p0 ?a0 = _ =>
        pose proof (initiateAction_well_staged m0 p0 a0) as Hi;
        rewrite Heq in Hi; apply Hi; auto
    end.
Qed.

Lemma updateSearch_well_staged (m m' : model E) (key : string) (c : Cmd E) :
  searchActive m = true ->
  well_staged m -> updateSearch m key = Some (m', c) -> well_staged m'.
Proof.
  intros Hs Hw. unfold updateSearch.
  destruct (textinput_Update E (textInput m) key).
  split_tests; try discriminate; intros [= <- <-];
    repeat match goal with
      | H : filterPods _ = Some _ |- _ =>
          apply filterPods_fields in H; destruct H as [? ->]
      end; staged.
Qed.

Lemma updateContainerSelect_well_staged (m m' : model E) (key : string) (c : Cmd E) :
  state m = viewContainerSelect -> searchActive m = false ->
  well_staged m -> updateContainerSelect m key = Some (m', c) -> well_staged m'.
Proof.
  intros Hst Hs Hw. unfold updateContainerSelect.
  split_tests; try discriminate; intros [= <- <-]; staged.
Qed.

Lemma updateViewer_well_staged (m m' : model E) (key : string) (c : Cmd E) :
  state m = viewLogs \/ state m = viewDiagnosis \/ state m = viewYaml ->
  searchActive m = false ->
  well_staged m -> updateViewer m key = Some (m', c) -> well_staged m'.
Proof.
  intros Hst Hs Hw. unfold updateViewer.
  destruct (viewport_Update E (viewport m) key).
  split_tests; intros [= <- <-]; staged.
Qed.

Lemma updateConfirm_well_staged (m m' : model E) (key : string) (c : Cmd E) :
  searchActive m = false ->
  well_staged m ->
  updateDeleteConfirm m key = Some (m', c)
  \/ updateRestartConfirm m key = Some (m', c)
  \/ updateCleanseConfirm m key = Some (m', c) ->
  state m = viewDeleteConfirm \/ state m = viewRestartConfirm
  \/ state m = viewCleanseConfirm ->
  well_staged m'.
Proof.
  intros Hs Hw [Hup | [Hup | Hup]] Hst; revert Hup;
    unfold updateDeleteConfirm, updateRestartConfirm, updateCleanseConfirm;
    split_tests; try discriminate; intros [= <- <-]; staged.
Qed.

(** One step of the reducer keeps the staging. *)
Lemma Update_well_staged (m m' : model E) (tmsg : Msg) (c : Cmd E) :
  well_staged m -> Update m tmsg = Some (m', c) -> well_staged m'.
Proof.
  intros Hw. destruct tmsg as [| key | | | | | | | | |]; cbn [Update].
  2: {
    unfold updateKey. destruct (searchActive m) eqn:Hs.
    { apply updateSearch_well_staged; assumption. }
    destruct (state m) eqn:Hst.
    - apply updateList_well_staged; assumption.
    - apply updateViewer_well_staged; auto.
    - apply updateViewer_well_staged; auto.
    - apply updateViewer_well_staged; auto.
    - intros Hup. eapply updateConfirm_well_staged; eauto.
    - intros Hup. eapply updateConfirm_well_staged; eauto.
    - intros Hup. eapply updateConfirm_well_staged; eauto.
    - apply updateContainerSelect_well_staged; assumption.
  }
  all: try (intros [= <- <-]; staged; fail).
  destruct (filterPods _) eqn:Hf; cbn [mbind option_bind]; [|discriminate].
  apply filterPods_fields in Hf. destruct Hf as [view ->].
  intros [= <- <-].
  destruct (_ <=? _); [destruct (_ <? _)|]; staged.
Qed.

Lemma initialModel_well_staged (k : string) (ti : textinput_Model E) :
  well_staged (initialModel k ti).
Proof. staged. Qed.

(** X5.  Every state of a run from a well-staged state (the initial model
    is one) is well staged: the namespace list starts with "ALL", the search
    bar is open only over the list, a delete or restart confirmation has its
    pod, the picker has its pod with that pod's several containers and the
    action, and a viewer has its pod.  So the dereferences of
    [m.podToDelete] and [m.selectedPod] in [Update] and [View] never meet
    nil. *)
Theorem run_keeps_staging (m m' : model E) (events : list Msg) :
  well_staged m -> run m events = Some m' -> well_staged m'.
Proof.
  revert m. induction events as [|e events IH]; intros m Hw; cbn [run].
  - intros [= <-]. exact Hw.
  - destruct (Update m e) as [[m1 c]|] eqn:Hup; cbn [mbind option_bind]; [|discriminate].
    apply IH. eapply Update_well_staged; eassumption.
Qed.

Lemma filterPods_runs (m : model E) :
  (exists ns, index (namespaces m) (currentNsIdx m) = Some ns) ->
  exists m', filterPods m = Some m'.
Proof. intros [ns Hns]. unfold filterPods. rewrite Hns. cbn. eauto. Qed.

Lemma pod_under_cursor (m : model E) :
  (filteredPods m <> [] -> exists p, index (filteredPods m) (cursor m) = Some p) ->
  (0 <? len (filteredPods m)) = true ->
  exists p, index (filteredPods m) (cursor m) = Some p.
Proof.
  intros H Hlen. apply H. intros Hnil. rewrite Hnil in Hlen. discriminate.
Qed.

Lemma next_namespace_in_range (m : model E) :
  len (namespaces m) <= max_int ->
  (exists ns, index (namespaces m) (currentNsIdx m) = Some ns) ->
  (1 <? len (namespaces m)) = true ->
  exists ns,
    index (namespaces m)
      (if len (namespaces m) <=? int_add (currentNsIdx m) 1
       then 0 else int_add (currentNsIdx m) 1) = Some ns.
Proof.
  intros Hmax [ns Hns] Hlen. apply Z.ltb_lt in Hlen.
  apply index_Some_range in Hns. apply index_in_range.
  rewrite int_add_small by (unfold min_int, max_int in *; lia).
  destruct (Z.leb_spec (len (namespaces m)) (currentNsIdx m + 1)); lia.
Qed.

Lemma updateList_runs (m : model E) (key : string) :
  indices_in_range m -> exists m' c, updateList m key = Some (m', c).
Proof.
  intros (Hmax & Hns & Hcur & _). unfold updateList.
  destruct (filterPods_runs (set_sort sortCPU m) Hns) as [m1 H1].
  destruct (filterPods_runs (set_sort sortMem m) Hns) as [m2 H2].
  destruct (filterPods_runs (set_cursor 0 (set_showIssues (negb (showIssues m)) m)) Hns)
    as [m3 H3].
  rewrite H1, H2, H3. cbn [mbind option_bind].
  destruct (key_in key ["q"; "ctrl+c"]); [eauto|].
  destruct (key_in key ["up"; "k"]); [eauto|].
  destruct (key_in key ["down"; "j"]); [eauto|].
  repeat (match goal with
          | |- context [if String.eqb key ?k then _ else _] =>
              destruct (String.eqb key k); [|]
          end;
          [ try (eauto; fail) | ]).
  all: try (eauto; fail).
  - (* "n" *)
    destruct (1 <? len (namespaces m)) eqn:Hlen; [|eauto].
    destruct (next_namespace_in_range m Hmax Hns Hlen) as [ns' Hns'].
    match goal with
    | |- context [filterPods ?m0] =>
        destruct (filterPods_runs m0) as [m4 H4];
        [ exists ns'; cbn; destruct (_ <=? _); exact Hns' | rewrite H4; cbn; eauto ]
    end.
  - (* "enter" *)
    destruct (0 <? len (filteredPods m)) eqn:Hpos; [|eauto].
    destruct (pod_under_cursor m Hcur Hpos) as [p Hp]. rewrite Hp. cbn.
    destruct (initiateAction m p "logs"). eauto.
  - destruct (0 <? len (filteredPods m)) eqn:Hpos; [|eauto].
    destruct (pod_under_cursor m Hcur Hpos) as [p Hp]. rewrite Hp. cbn.
    destruct (initiateAction m p "shell"). eauto.
  - destruct (0 <? len (filteredPods m)) eqn:Hpos; [|eauto].
    destruct (pod_under_cursor m Hcur Hpos) as [p Hp]. rewrite Hp. cbn. eauto.
  - destruct (0 <? len (filteredPods m)) eqn:Hpos; [|eauto].
    destruct (pod_under_cursor m Hcur Hpos) as [p Hp]. rewrite Hp. cbn. eauto.
  - destruct (0 <? len (filteredPods m)) eqn:Hpos; [|eauto].
    destruct (pod_under_cursor m Hcur Hpos) as [p Hp]. rewrite Hp. cbn. eauto.
  - destruct (0 <? len (filteredPods m)) eqn:Hpos; [|eauto].
    destruct (pod_under_cursor m Hcur Hpos) as [p Hp]. rewrite Hp. cbn. eauto.
  - (* "C" *)
    destruct Hns as [ns Hns]. rewrite Hns. cbn. destruct (String.eqb ns "ALL"); eauto.
  - (* "f" *)
    destruct (0 <? len (filteredPods m)) eqn:Hpos; [|eauto].
    destruct (pod_under_cursor m Hcur Hpos) as [p Hp]. rewrite Hp. cbn. eauto.
Qed.

Lemma updateSearch_runs (m : model E) (key : string) :
  indices_in_range m -> exists m' c, updateSearch m key = Some (m', c).
Proof.
  intros (_ & Hns & _). unfold updateSearch.
  destruct (key_in key ["enter"; "esc"]); [eauto|].
  destruct (textinput_Update E (textInput m) key) as [ti cmd].
  destruct (filterPods_runs (set_textInput ti m) Hns) as [m1 H1].
  rewrite H1. cbn. eauto.
Qed.

Lemma updateContainerSelect_runs (m : model E) (key : string) :
  state m = viewContainerSelect ->
  well_staged m -> indices_in_range m ->
  exists m' c, updateContainerSelect m key = Some (m', c).
Proof.
  intros Hst (_ & _ & _ & Hpick & _) (_ & _ & _ & Hcc).
  destruct (Hpick Hst) as (p & Hp & _). destruct (Hcc Hst) as [c Hc].
  unfold updateContainerSelect. rewrite Hc.
  cbn [mbind option_bind selectedPod set_state]. rewrite Hp. cbn [mbind option_bind].
  split_tests; eauto.
Qed.

Lemma updateConfirm_runs (m : model E) (key : string) :
  well_staged m -> indices_in_range m ->
  (state m = viewDeleteConfirm -> exists m' c, updateDeleteConfirm m key = Some (m', c))
  /\ (state m = viewRestartConfirm ->
      exists m' c, updateRestartConfirm m key = Some (m', c))
  /\ exists m' c, updateCleanseConfirm m key = Some (m', c).
Proof.
  intros (_ & _ & Hstaged & _) (_ & [ns Hns] & _).
  unfold updateDeleteConfirm, updateRestartConfirm, updateCleanseConfirm.
  rewrite Hns. cbn [mbind option_bind].
  repeat split; try intros Hst;
    try (destruct Hstaged as [p Hp]; [auto|]; rewrite Hp; cbn [mbind option_bind]);
    split_tests; eauto.
Qed.

(** X6.  From a well-staged state whose namespace index, cursor and picker
    cursor are in range, no message makes [Update] panic. *)
Theorem Update_does_not_panic (m : model E) (tmsg : Msg) :
  well_staged m -> indices_in_range m ->
  exists m' c, Update m tmsg = Some (m', c).
Proof.
  intros Hw Hi. destruct tmsg as [| key | | | | | | | | |]; cbn [Update]; eauto.
  - unfold updateKey. destruct (searchActive m); [apply updateSearch_runs; exact Hi|].
    destruct (updateConfirm_runs m key Hw Hi) as (Hd & Hr & Hc).
    destruct (state m) eqn:Hst; auto.
    + apply updateList_runs; exact Hi.
    + unfold updateViewer. destruct (viewport_Update E (viewport m) key).
      destruct (key_in key ["esc"; "q"]); eauto.
    + unfold updateViewer. destruct (viewport_Update E (viewport m) key).
      destruct (key_in key ["esc"; "q"]); eauto.
    + unfold updateViewer. destruct (viewport_Update E (viewport m) key).
      destruct (key_in key ["esc"; "q"]); eauto.
    + apply updateContainerSelect_runs; assumption.
  - destruct Hi as (_ & Hns & _).
    destruct (filterPods_runs (set_loading false (set_pods l m)) Hns) as [m1 H1].
    rewrite H1. cbn. eauto.
Qed.


End Staging.

(** ** The keys *)

Section Keys.
Context {E : Externals}.

(** X8.  With the search bar open a key only edits the search: "enter" and
    "esc" close the bar and leave the view as filtered; any other key goes
    to the text field, after which the view is filtered anew.  The session
    state, the snapshot, the cursor, the sort mode, the issues toggle, the
    namespace, the staged pod and the port-forwards stay as they were. *)
Theorem search_bar_takes_every_key (m m' : model E) (key : string) (c : Cmd E) :
  searchActive m = true ->
  Update m (KeyMsg key) = Some (m', c) ->
  state m' = state m /\ pods m' = pods m /\ cursor m' = cursor m /\ sort m' = sort m
  /\ showIssues m' = showIssues m /\ namespaces m' = namespaces m
  /\ currentNsIdx m' = currentNsIdx m /\ podToDelete m' = podToDelete m
  /\ activeForwards m' = activeForwards m
  /\ (key = "enter" \/ key = "esc" ->
      searchActive m' = false /\ filteredPods m' = filteredPods m /\ c = cmdNil)
  /\ (key <> "enter" /\ key <> "esc" ->
      searchActive m' = true
      /\ textInput m' = fst (textinput_Update E (textInput m) key)
      /\ c = libCmd (snd (textinput_Update E (textInput m) key))
      /\ filterPods (set_textInput (fst (textinput_Update E (textInput m) key)) m)
         = Some m').
Proof.
  intros Hs. unfold Update, updateKey. rewrite Hs. unfold updateSearch.
  destruct (key_in key ["enter"; "esc"]) eqn:Hkey.
  - intros [= <- <-]. cbn. apply key_in_two in Hkey.
    repeat split; auto; intuition congruence.
  - assert (Hne : ~ (key = "enter" \/ key = "esc")).
    { intros [-> | ->]; discriminate Hkey. }
    destruct (textinput_Update E (textInput m) key) as [ti cmd].
    destruct (filterPods (set_textInput ti m)) as [m1|] eqn:Hf;
      cbn [mbind option_bind]; [|discriminate].
    intros [= <- <-]. cbn [fst snd]. pose proof Hf as Hf0.
    unfold filterPods in Hf. cbn in Hf.
    destruct (index (namespaces m) (currentNsIdx m)); cbn in Hf; [|discriminate].
    injection Hf as <-. cbn. rewrite Hs. repeat split; auto; tauto.
Qed.

(** X9.  The negative keys of a confirmation discard what was staged: the
    session is back on the list with no command, no pod is staged for
    deletion any more, and the snapshot, the view, the cursor and the
    port-forwards are as they were. *)
Theorem cancel_discards_the_staged_action (m : model E) (key : string) :
  searchActive m = false ->
  state m = viewDeleteConfirm \/ state m = viewRestartConfirm
  \/ state m = viewCleanseConfirm ->
  key = "n" \/ key = "N" \/ key = "esc" \/ key = "q" ->
  exists m',
    Update m (KeyMsg key) = Some (m', cmdNil)
    /\ state m' = viewList
    /\ (state m <> viewCleanseConfirm -> podToDelete m' = None)
    /\ pods m' = pods m /\ filteredPods m' = filteredPods m /\ cursor m' = cursor m
    /\ activeForwards m' = activeForwards m.
Proof.
  intros Hs Hst Hkey. unfold Update, updateKey. rewrite Hs.
  destruct Hst as [Hst | [Hst | Hst]]; rewrite Hst;
    unfold updateDeleteConfirm, updateRestartConfirm, updateCleanseConfirm;
    destruct Hkey as [-> | [-> | [-> | ->]]]; decide_keys;
    eexists; (split; [reflexivity|]); cbn; repeat split; auto; congruence.
Qed.

(** X10.  The cleanse key.  With "ALL" selected it only writes a warning
    into the status line, and no key pressed next deletes anything; with a
    namespace selected it opens the confirmation and changes nothing else. *)
Theorem cleanse_is_refused_for_all_namespaces (m : model E) (ns : string) :
  searchActive m = false ->
  state m = viewList ->
  index (namespaces m) (currentNsIdx m) = Some ns ->
  exists m',
    Update m (KeyMsg "C") = Some (m', cmdNil)
    /\ (ns = "ALL" ->
        m' = set_msg "⚠️ Cannot Cleanse 'ALL'. Select a namespace." m
        /\ forall key m'' c, Update m' (KeyMsg key) = Some (m'', c) ->
                             destructive c = false)
    /\ (ns <> "ALL" -> m' = set_state viewCleanseConfirm m).
Proof.
  intros Hs Hst Hns. unfold Update at 1, updateKey. rewrite Hs, Hst. unfold updateList.
  decide_keys. rewrite Hns. cbn [mbind option_bind].
  destruct (String.eqb_spec ns "ALL") as [-> | Hne].
  - eexists. split; [reflexivity|]. split; [|congruence].
    intros _. split; [reflexivity|].
    intros key m'' c. unfold Update, updateKey. cbn [searchActive state set_msg].
    rewrite Hs, Hst. intros Hup.
    destruct (updateList_commands _ _ _ _ Hup) as [Hc | (-> & _)]; [|reflexivity].
    destruct c; try discriminate; reflexivity.
  - eexists. split; [reflexivity|]. split; [congruence | reflexivity].
Qed.

(** X11.  The cursor keys move the cursor by one row and never out of the
    view: up stops at the first row, down at the last. *)
Theorem cursor_keys_stay_in_the_view (m : model E) (key : string) :
  searchActive m = false ->
  state m = viewList ->
  cursor_valid m ->
  len (filteredPods m) <= max_int ->
  key = "up" \/ key = "k" \/ key = "down" \/ key = "j" ->
  exists m',
    Update m (KeyMsg key) = Some (m', cmdNil)
    /\ cursor_valid m'
    /\ filteredPods m' = filteredPods m
    /\ (key = "up" \/ key = "k" -> cursor m' = Z.max 0 (cursor m - 1))
    /\ (key = "down" \/ key = "j" ->
        cursor m' = Z.max (cursor m) (Z.min (cursor m + 1) (len (filteredPods m) - 1))).
Proof.
  intros Hs Hst Hc Hmax Hkey. unfold Update, updateKey. rewrite Hs, Hst. unfold updateList.
  pose proof (len_nonneg (filteredPods m)) as Hlen.
  assert (Hcur : 0 <= cursor m
                 /\ (cursor m < len (filteredPods m)
                     \/ (filteredPods m = [] /\ cursor m = 0))).
  { destruct Hc as [Hc | [Hnil Hc0]]; [lia|]. rewrite Hc0. split; [lia|]. right. auto. }
  assert (Hempty : filteredPods m = [] -> len (filteredPods m) = 0)
    by (intros ->; reflexivity).
  assert (Hsub : int_sub (len (filteredPods m)) 1 = len (filteredPods m) - 1)
    by (apply int_sub_small; unfold min_int, max_int in *; lia).
  destruct Hkey as [-> | [-> | [-> | ->]]]; decide_keys; rewrite ?Hsub;
    try destruct (Z.ltb_spec 0 (cursor m));
    try destruct (Z.ltb_spec (cursor m) (len (filteredPods m) - 1));
    (eexists; split; [reflexivity|]; unfold cursor_valid; cbn;
     rewrite ?int_sub_small, ?int_add_small by (unfold min_int, max_int in *; lia);
     split; [destruct Hc as [Hc | [Hnil Hc0]];
             [left; lia | specialize (Hempty Hnil); right; split; [exact Hnil | lia]]|];
     split; [reflexivity|];
     split; intros Hk; try (destruct Hk as [[=] | [=]]; fail); lia).
Qed.

(** One press of "n". *)
Lemma namespace_key_step (m : model E) :
  searchActive m = false ->
  state m = viewList ->
  1 < len (namespaces m) <= max_int ->
  0 <= currentNsIdx m < len (namespaces m) ->
  exists m',
    Update m (KeyMsg "n") = Some (m', cmdNil)
    /\ currentNsIdx m' = (currentNsIdx m + 1) mod len (namespaces m)
    /\ namespaces m' = namespaces m /\ state m' = viewList /\ searchActive m' = false
    /\ pods m' = pods m /\ showIssues m' = showIssues m /\ textInput m' = textInput m
    /\ sort m' = sortDefault /\ cursor m' = 0.
Proof.
  intros Hs Hst Hn Hidx.
  set (idx' := (currentNsIdx m + 1) mod len (namespaces m)).
  assert (Hidx' : 0 <= idx' < len (namespaces m)) by (apply Z.mod_pos_bound; lia).
  destruct (index_in_range (namespaces m) idx' Hidx') as [ns Hns].
  unfold Update, updateKey. rewrite Hs, Hst. unfold updateList. decide_keys.
  destruct (Z.ltb_spec 1 (len (namespaces m))) as [_ | ?]; [|lia].
  cbn [namespaces currentNsIdx set_currentNsIdx].
  rewrite int_add_small by (unfold min_int, max_int in *; lia).
  assert (Hnext : (if len (namespaces m) <=? currentNsIdx m + 1 then 0
                   else currentNsIdx m + 1) = idx').
  { unfold idx'. destruct (Z.leb_spec (len (namespaces m)) (currentNsIdx m + 1)).
    - replace (currentNsIdx m + 1) with (len (namespaces m)) by lia.
      rewrite Z.mod_same by lia. reflexivity.
    - rewrite Z.mod_small by lia. reflexivity. }
  unfold filterPods.
  destruct (len (namespaces m) <=? currentNsIdx m + 1);
    cbn [namespaces currentNsIdx set_currentNsIdx set_cursor set_sort];
    rewrite Hnext, Hns; cbn [mbind option_bind];
    (eexists; split; [reflexivity|]; cbn; rewrite ?Hs, ?Hst; repeat split; auto).
Qed.

(** X12.  The namespace key goes round the namespaces: after [k] presses
    the index has advanced by [k] modulo the number of namespaces, so as
    many presses as there are namespaces bring the selection back. *)
Theorem namespace_key_goes_round (m : model E) (k : nat) :
  searchActive m = false ->
  state m = viewList ->
  1 < len (namespaces m) <= max_int ->
  0 <= currentNsIdx m < len (namespaces m) ->
  exists m',
    run m (repeat (KeyMsg "n") k) = Some m'
    /\ currentNsIdx m' = (currentNsIdx m + Z.of_nat k) mod len (namespaces m)
    /\ namespaces m' = namespaces m
    /\ (k = length (namespaces m) -> currentNsIdx m' = currentNsIdx m).
Proof.
  intros Hs Hst Hn Hidx.
  enough (H : exists m',
             run m (repeat (KeyMsg "n") k) = Some m'
             /\ currentNsIdx m' = (currentNsIdx m + Z.of_nat k) mod len (namespaces m)
             /\ namespaces m' = namespaces m).
  { destruct H as (m' & Hrun & Hm' & Hnss). exists m'. repeat split; auto.
    intros ->. rewrite Hm'. fold (len (namespaces m)).
    rewrite <- (Z.mul_1_l (len (namespaces m))) at 1.
    rewrite Z.mod_add by lia. apply Z.mod_small. lia. }
  revert m Hs Hst Hn Hidx. induction k as [|k IH]; intros m Hs Hst Hn Hidx.
  - exists m. cbn. rewrite Z.add_0_r, Z.mod_small by lia. auto.
  - destruct (namespace_key_step m Hs Hst Hn Hidx)
      as (m1 & Hup & Hi1 & Hn1 & Hst1 & Hs1 & _).
    destruct (IH m1 Hs1 Hst1) as (m' & Hrun & Hi' & Hn').
    { rewrite Hn1. exact Hn. }
    { rewrite Hi1, Hn1. apply Z.mod_pos_bound. lia. }
    exists m'. cbn [repeat run]. rewrite Hup. cbn [mbind option_bind].
    split; [exact Hrun|]. split; [|congruence].
    rewrite Hi', Hi1, Hn1. rewrite Zplus_mod_idemp_l. f_equal. lia.
Qed.

(** The issues key over the list never fails while a namespace is
    selected. *)
Lemma tab_key_runs (m : model E) :
  searchActive m = false ->
  state m = viewList ->
  (exists ns, index (namespaces m) (currentNsIdx m) = Some ns) ->
  exists m',
    Update m (KeyMsg "tab") = Some (m', cmdNil)
    /\ searchActive m' = false /\ state m' = viewList
    /\ namespaces m' = namespaces m /\ currentNsIdx m' = currentNsIdx m.
Proof.
  intros Hs Hst [ns Hns]. unfold Update, updateKey. rewrite Hs, Hst. unfold updateList.
  decide_keys. unfold filterPods.
  cbn [namespaces currentNsIdx set_cursor set_showIssues]. rewrite Hns.
  cbn [mbind option_bind].
  eexists. split; [reflexivity|].
  destruct (showIssues m); cbn; auto.
Qed.

(** X13.  The issues toggle is its own inverse: a second "tab" restores
    the toggle and shows the view that filtering the original model gives,
    with the cursor on the first row. *)
Theorem issues_toggle_twice (m m1 m2 : model E) (c1 c2 : Cmd E) :
  searchActive m = false ->
  state m = viewList ->
  Update m (KeyMsg "tab") = Some (m1, c1) ->
  Update m1 (KeyMsg "tab") = Some (m2, c2) ->
  showIssues m1 = negb (showIssues m)
  /\ showIssues m2 = showIssues m
  /\ cursor m2 = 0
  /\ exists m0, filterPods m = Some m0 /\ filteredPods m2 = filteredPods m0.
Proof.
  intros Hs Hst. unfold Update, updateKey. rewrite Hs, Hst. unfold updateList at 1.
  decide_keys. unfold filterPods at 1. cbn [namespaces currentNsIdx set_cursor set_showIssues].
  destruct (index (namespaces m) (currentNsIdx m)) as [ns|] eqn:Hns;
    cbn [mbind option_bind]; [|discriminate].
  intros [= <- <-].
  match goal with
  | |- context [searchActive ?x] =>
      assert (Hs1 : searchActive x = false) by (destruct (showIssues _); exact Hs);
      assert (Hst1 : state x = viewList) by (destruct (showIssues _); exact Hst)
  end.
  rewrite Hs1, Hst1. unfold updateList. decide_keys. unfold filterPods.
  destruct (showIssues m) eqn:Hi; cbn; rewrite ?Hi, Hns; cbn;
    intros [= <- <-]; cbn; rewrite ?Hi; repeat split; eauto.
Qed.

(** X14.  The "f" key flips the port-forward of the pod under the cursor
    and of no other: a running forward is dropped; with none running, one to
    the pod's port (80 when the pod declares none) is recorded if the
    process starts, and nothing is recorded if it does not.  The FWD column
    of every other pod, the view, the cursor and the session state stay, and
    no command is issued. *)
Theorem forward_key_flips_one_pod (m : model E) (p : PodInfo) :
  searchActive m = false ->
  state m = viewList ->
  index (filteredPods m) (cursor m) = Some p ->
  exists m',
    Update m (KeyMsg "f") = Some (m', cmdNil)
    /\ (forall q, podKey (Namespace q) (Name q) <> podKey (Namespace p) (Name p) ->
          fwdStatus m' q = fwdStatus m q)
    /\ (fwdStatus m p <> "-" -> fwdStatus m' p = "-")
    /\ (fwdStatus m p = "-" ->
        match exec_Start E ["kubectl"; "port-forward"; "-n"; Namespace p; Name p;
                            "8080:" +:+ fmt_d (if Port p =? 0 then 80 else Port p)] with
        | None => fwdStatus m' p = "● 8080"
        | Some _ => activeForwards m' = activeForwards m
        end)
    /\ filteredPods m' = filteredPods m /\ cursor m' = cursor m
    /\ pods m' = pods m /\ state m' = viewList.
Proof.
  intros Hs Hst Hp. unfold Update, updateKey. rewrite Hs, Hst. unfold updateList.
  decide_keys. rewrite Hp. cbn [mbind option_bind].
  assert (Hpos : (0 <? len (filteredPods m)) = true).
  { apply Z.ltb_lt. destruct (index_Some_range _ _ _ Hp). lia. }
  rewrite Hpos. eexists. split; [reflexivity|].
  unfold toggleForward, fwdStatus, podKey.
  destruct (activeForwards m !! (Namespace p +:+ "/" +:+ Name p)) as [c|] eqn:Hc.
  - cbn. rewrite lookup_delete_eq. repeat split; auto; try congruence.
    intros q Hq. rewrite lookup_delete_ne by congruence. reflexivity.
  - destruct (exec_Start E _) as [err|] eqn:Hstart; cbn.
    + rewrite Hc. repeat split; auto; try congruence.
    + rewrite lookup_insert_eq. repeat split; auto; try congruence.
      intros q Hq. rewrite lookup_insert_ne by congruence. reflexivity.
Qed.


(** The picker after [k] presses of "down". *)
Lemma picker_down (m : model E) (k : nat) :
  searchActive m = false ->
  state m = viewContainerSelect ->
  len (containerList m) <= max_int ->
  0 <= containerCursor m ->
  containerCursor m + Z.of_nat k < len (containerList m) ->
  exists m',
    run m (repeat (KeyMsg "down") k) = Some m'
    /\ containerCursor m' = containerCursor m + Z.of_nat k
    /\ state m' = viewContainerSelect /\ searchActive m' = false
    /\ containerList m' = containerList m /\ selectedPod m' = selectedPod m
    /\ targetAction m' = targetAction m /\ kubeconfig m' = kubeconfig m.
Proof.
  revert m. induction k as [|k IH]; intros m Hs Hst Hmax H0 Hk.
  - exists m. cbn [repeat run]. rewrite Z.add_0_r. repeat split; auto.
  - cbn [repeat run]. unfold Update at 1, updateKey. rewrite Hs, Hst.
    unfold updateContainerSelect. decide_keys.
    rewrite int_sub_small by (pose proof (len_nonneg (containerList m));
                              unfold min_int, max_int in *; lia).
    destruct (Z.ltb_spec (containerCursor m) (len (containerList m) - 1)) as [_ | ?]; [|lia].
    cbn [mbind option_bind].
    rewrite int_add_small by (unfold min_int, max_int in *; lia).
    destruct (IH (set_containerCursor (containerCursor m + 1) m)) as (m' & Hrun & Hc & Hrest);
      try assumption; cbn [containerCursor containerList set_containerCursor]; try lia.
    exists m'. split; [exact Hrun|]. split; [|exact Hrest].
    rewrite Hc. cbn [containerCursor set_containerCursor]. lia.
Qed.

(** X16.  The container picker, end to end: "enter" or "s" on a pod of
    several containers opens the picker; [k] presses of "down" and "enter"
    then fetch the logs of the pod's [k]-th container, or open a shell in
    it, and the session is in the log viewer, or back on the list. *)
Theorem picked_container_reaches_the_command
    (m : model E) (p : PodInfo) (key c : string) (k : nat) :
  searchActive m = false ->
  state m = viewList ->
  index (filteredPods m) (cursor m) = Some p ->
  1 < len (Containers p) <= max_int ->
  key = "enter" \/ key = "s" ->
  Containers p !! k = Some c ->
  exists m1 m2 m3,
    Update m (KeyMsg key) = Some (m1, cmdNil)
    /\ state m1 = viewContainerSelect
    /\ run m1 (repeat (KeyMsg "down") k) = Some m2
    /\ Update m2 (KeyMsg "enter")
       = Some (m3, if String.eqb key "enter" then fetchLogs p c
                   else openShell (Namespace p) (Name p) c (kubeconfig m))
    /\ state m3 = (if String.eqb key "enter" then viewLogs else viewList)
    /\ selectedPod m3 = Some p.
Proof.
  intros Hs Hst Hp [Hmany Hmax] Hkey Hc.
  pose proof (index_Some_range _ _ _ Hp) as Hrange.
  pose proof (lookup_lt_Some _ _ _ Hc) as Hk.
  set (action := if String.eqb key "enter" then "logs" else "shell").
  assert (Hup : Update m (KeyMsg key) = Some (initiateAction m p action)).
  { unfold Update, updateKey. rewrite Hs, Hst. unfold updateList, action.
    destruct Hkey as [-> | ->]; decide_keys;
      (destruct (Z.ltb_spec 0 (len (filteredPods m))) as [_ | ?]; [|lia]);
      rewrite Hp; reflexivity. }
  rewrite (initiateAction_several m p action Hmany) in Hup.
  match type of Hup with _ = Some (?x, _) => set (m1 := x) in * end.
  destruct (picker_down m1 k) as (m2 & Hrun & Hcc & Hst2 & Hs2 & Hcl & Hsel & Hta & Hkc);
    try reflexivity; try exact Hs;
    cbn [m1 containerList containerCursor set_containerCursor set_state set_targetAction
         set_containerList set_selectedPod]; unfold len in *; try lia.
  exists m1, m2.
  assert (Hidx : index (containerList m2) (containerCursor m2) = Some c).
  { rewrite Hcl, Hcc. unfold m1.
    cbn [containerList containerCursor set_containerCursor set_state set_targetAction
         set_containerList set_selectedPod].
    rewrite Z.add_0_l. unfold index.
    destruct (Z.ltb_spec (Z.of_nat k) 0); [lia|]. rewrite Nat2Z.id. exact Hc. }
  unfold Update at 2, updateKey. rewrite Hs2, Hst2. unfold updateContainerSelect.
  decide_keys. rewrite Hidx. cbn [mbind option_bind targetAction set_state selectedPod kubeconfig].
  rewrite Hta, Hsel, ?Hkc.
  cbn [m1 targetAction selectedPod kubeconfig set_containerCursor
       set_state set_targetAction set_containerList set_selectedPod].
  unfold action.
  destruct Hkey as [-> | ->]; decide_keys; cbn [mbind option_bind];
    eexists; (split; [exact Hup|]); (split; [reflexivity|]); (split; [exact Hrun|]);
    rewrite ?Hkc;
    cbn [m1 targetAction selectedPod kubeconfig set_containerCursor
         set_state set_targetAction set_containerList set_selectedPod];
    (split; [reflexivity|]); cbn [state selectedPod set_state];
    rewrite ?Hsel, ?Hst2; cbn; auto.
Qed.

(** A viewer and back, for a text that comes back. *)
Lemma viewer_round_trip_text (m : model E) (p : PodInfo) (key back text : string) :
  searchActive m = false ->
  state m = viewList ->
  index (filteredPods m) (cursor m) = Some p ->
  key = "?" \/ key = "y" \/ (key = "enter" /\ len (Containers p) <= 1) ->
  back = "esc" \/ back = "q" ->
  exists m1 m2 m3 c,
    Update m (KeyMsg key) = Some (m1, c)
    /\ c = (if String.eqb key "?" then diagnosePod p
            else if String.eqb key "y" then fetchYaml (Namespace p) (Name p)
            else fetchLogs p (hd "" (Containers p)))
    /\ state m1 = (if String.eqb key "?" then viewDiagnosis
                   else if String.eqb key "y" then viewYaml else viewLogs)
    /\ selectedPod m1 = Some p
    /\ Update m1 (if String.eqb key "?" then diagMsg text
                  else if String.eqb key "y" then yamlMsg text else logsMsg text)
       = Some (m2, cmdNil)
    /\ state m2 = state m1
    /\ (if String.eqb key "?" then diagContent m2
        else if String.eqb key "y" then yamlContent m2 else logContent m2) = text
    /\ Update m2 (KeyMsg back) = Some (m3, cmdNil)
    /\ state m3 = viewList /\ searchActive m3 = false
    /\ pods m3 = pods m /\ filteredPods m3 = filteredPods m /\ cursor m3 = cursor m
    /\ sort m3 = sort m /\ showIssues m3 = showIssues m
    /\ namespaces m3 = namespaces m /\ currentNsIdx m3 = currentNsIdx m
    /\ activeForwards m3 = activeForwards m.
Proof.
  intros Hs Hst Hp Hkey Hback.
  pose proof (index_Some_range _ _ _ Hp) as Hrange.
  assert (Hpos : (0 <? len (filteredPods m)) = true) by (apply Z.ltb_lt; lia).
  unfold Update at 1, updateKey. rewrite Hs, Hst. unfold updateList.
  destruct Hkey as [-> | [-> | [-> Hfew]]]; decide_keys; rewrite Hpos, Hp;
    cbn [mbind option_bind]; rewrite ?(initiateAction_few m p "logs" Hfew); decide_keys;
    do 4 eexists; (split; [reflexivity|]); (split; [reflexivity|]);
    (split; [reflexivity|]); (split; [reflexivity|]);
    cbn [Update]; (split; [reflexivity|]); (split; [reflexivity|]);
    (split; [reflexivity|]);
    unfold updateKey; cbn [searchActive state set_viewport set_diagContent set_yamlContent
                            set_logContent set_msg set_state set_selectedPod];
    rewrite Hs; unfold updateViewer;
    (destruct Hback as [-> | ->]; decide_keys;
     (split; [reflexivity|]); cbn; rewrite ?Hs; repeat split; reflexivity).
Qed.

(** X17.  A viewer and back: "?", "y", or "enter" on a pod of at most one
    container, opens the diagnosis, YAML or log viewer on the pod under the
    cursor and sets off the matching fetch; whatever that fetch answers (a
    failure included) is a text that is stored without leaving the viewer;
    "esc" or "q" then returns to the list with the snapshot, the view, the
    cursor, the sort mode, the issues toggle, the namespace and the
    port-forwards as they were. *)
Theorem viewer_round_trip (m : model E) (p : PodInfo) (key back : string) (answer : Msg) :
  searchActive m = false ->
  state m = viewList ->
  index (filteredPods m) (cursor m) = Some p ->
  (key = "?"
   /\ exists (diagTitle redText dimText : string -> string) events stream,
        answer = diagnosePod_run diagTitle redText dimText p events stream)
  \/ (key = "y" /\ exists out, answer = fetchYaml_run (Namespace p) (Name p) out)
  \/ (key = "enter" /\ len (Containers p) <= 1
      /\ exists stream, answer = fetchLogs_run p (hd "" (Containers p)) stream) ->
  back = "esc" \/ back = "q" ->
  exists m1 m2 m3 c,
    Update m (KeyMsg key) = Some (m1, c)
    /\ c = (if String.eqb key "?" then diagnosePod p
            else if String.eqb key "y" then fetchYaml (Namespace p) (Name p)
            else fetchLogs p (hd "" (Containers p)))
    /\ state m1 = (if String.eqb key "?" then viewDiagnosis
                   else if String.eqb key "y" then viewYaml else viewLogs)
    /\ selectedPod m1 = Some p
    /\ Update m1 answer = Some (m2, cmdNil)
    /\ state m2 = state m1
    /\ answer = (if String.eqb key "?" then diagMsg (diagContent m2)
                 else if String.eqb key "y" then yamlMsg (yamlContent m2)
                 else logsMsg (logContent m2))
    /\ Update m2 (KeyMsg back) = Some (m3, cmdNil)
    /\ state m3 = viewList /\ searchActive m3 = false
    /\ pods m3 = pods m /\ filteredPods m3 = filteredPods m /\ cursor m3 = cursor m
    /\ sort m3 = sort m /\ showIssues m3 = showIssues m
    /\ namespaces m3 = namespaces m /\ currentNsIdx m3 = currentNsIdx m
    /\ activeForwards m3 = activeForwards m.
Proof.
  intros Hs Hst Hp Hkey Hback.
  assert (Htext : exists text,
             answer = (if String.eqb key "?" then diagMsg text
                       else if String.eqb key "y" then yamlMsg text else logsMsg text)
             /\ (key = "?" \/ key = "y" \/ (key = "enter" /\ len (Containers p) <= 1))).
  { destruct Hkey as [[-> (dt & rt & dm & ev & st & ->)]
                     | [[-> (out & ->)] | (-> & Hfew & stream & ->)]].
    - eexists. split; [reflexivity | auto].
    - destruct out; eexists; (split; [reflexivity | auto]).
    - destruct stream; eexists; (split; [reflexivity | auto]). }
  destruct Htext as (text & -> & Hkey').
  destruct (viewer_round_trip_text m p key back text Hs Hst Hp Hkey' Hback)
    as (m1 & m2 & m3 & c & H1 & Hc & Hst1 & Hsel & H2 & Hst2 & Htxt & H3 & Hrest).
  exists m1, m2, m3, c.
  split; [exact H1|]. split; [exact Hc|]. split; [exact Hst1|]. split; [exact Hsel|].
  split; [exact H2|]. split; [exact Hst2|]. split; [|split; [exact H3 | exact Hrest]].
  destruct (String.eqb key "?"); [|destruct (String.eqb key "y")]; rewrite Htxt; reflexivity.
Qed.

End Keys.

(** ** The view: what is shown, in which order, in which window *)

Lemma ltb_asym (a b : string) : String.ltb a b = true -> String.ltb b a = false.
Proof.
  unfold String.ltb. rewrite (String.compare_antisym a b).
  destruct (String.compare b a); cbn; congruence.
Qed.

Lemma ltb_trans (a b c : string) :
  String.ltb a b = true -> String.ltb b c = true -> String.ltb a c = true.
Proof.
  unfold String.ltb. intros Hab Hbc.
  assert (Hab' : String.compare a b = Lt) by (destruct (String.compare a b); congruence).
  assert (Hbc' : String.compare b c = Lt) by (destruct (String.compare b c); congruence).
  apply OrderedTypeEx.String_as_OT.cmp_lt in Hab', Hbc'.
  pose proof (OrderedTypeEx.String_as_OT.lt_trans _ _ _ Hab' Hbc') as Hac.
  apply OrderedTypeEx.String_as_OT.cmp_lt in Hac.
  unfold OrderedTypeEx.String_as_OT.cmp in Hac. rewrite Hac. reflexivity.
Qed.

Lemma ltb_total (a b : string) :
  String.ltb a b = false -> a = b \/ String.ltb b a = true.
Proof.
  intros Hab. destruct (String.ltb b a) eqn:Hba; [right; reflexivity|].
  left. apply ltb_false_eq; assumption.
Qed.

Lemma ltb_negtrans (a b c : string) :
  String.ltb a b = false -> String.ltb b c = false -> String.ltb a c = false.
Proof.
  intros Hab Hbc. destruct (String.ltb a c) eqn:Hac; [|reflexivity].
  destruct (ltb_total _ _ Hab) as [-> | Hba]; [congruence|].
  rewrite (ltb_trans _ _ _ Hba Hac) in Hbc. discriminate.
Qed.

Section InsertionSorted.
Context {A : Type} (less : A -> A -> bool).
Hypothesis Hasym : forall a b, less a b = true -> less b a = false.
Hypothesis Hnegtrans :
  forall a b c, less a b = false -> less b c = false -> less a c = false.

Lemma insertBack_In (x : A) (before : list A) (z : A) :
  In z (GoSort.insertBack less x before) -> z = x \/ In z before.
Proof.
  induction before as [|y before IH]; cbn [GoSort.insertBack].
  - intros [<- | []]. left. reflexivity.
  - destruct (less x y).
    + intros [<- | H]; [right; left; reflexivity|].
      destruct (IH H) as [-> | Hin]; [left; reflexivity | right; right; exact Hin].
    + intros [<- | H]; [left; reflexivity | right; exact H].
Qed.

(** [before] lists the sorted elements from the last one. *)
Lemma insertBack_sorted (x : A) (before : list A) :
  Sorted.StronglySorted (fun u v => less u v = false) before ->
  Sorted.StronglySorted (fun u v => less u v = false) (GoSort.insertBack less x before).
Proof.
  induction before as [|y before IH]; intros Hs; cbn [GoSort.insertBack].
  - repeat constructor.
  - apply Sorted.StronglySorted_inv in Hs. destruct Hs as [Hs Hy].
    destruct (less x y) eqn:Hxy.
    + constructor; [apply IH; exact Hs|].
      apply List.Forall_forall. intros z Hz. destruct (insertBack_In _ _ _ Hz) as [-> | Hin].
      * apply Hasym. exact Hxy.
      * rewrite List.Forall_forall in Hy. apply Hy. exact Hin.
    + constructor; [constructor; assumption|].
      constructor; [exact Hxy|].
      rewrite List.Forall_forall in Hy |- *. intros z Hz.
      exact (Hnegtrans _ _ _ Hxy (Hy z Hz)).
Qed.

Lemma sorted_snoc (R : A -> A -> Prop) (l : list A) (a : A) :
  Sorted.StronglySorted R l -> Forall (fun x => R x a) l -> Sorted.StronglySorted R (l ++ [a]).
Proof.
  induction l as [|x l IH]; intros Hs Ha; cbn.
  - repeat constructor.
  - apply Sorted.StronglySorted_inv in Hs. destruct Hs as [Hs Hx].
    inversion Ha as [|? ? Hxa Hla]; subst.
    constructor; [apply IH; assumption|].
    apply Forall_app. split; [exact Hx | constructor; [exact Hxa | constructor]].
Qed.

Lemma sorted_rev (R : A -> A -> Prop) (l : list A) :
  Sorted.StronglySorted R l -> Sorted.StronglySorted (fun a b => R b a) (rev l).
Proof.
  induction l as [|x l IH]; intros Hs; cbn [rev]; [constructor|].
  apply Sorted.StronglySorted_inv in Hs. destruct Hs as [Hs Hx].
  apply sorted_snoc; [apply IH; exact Hs|].
  apply List.Forall_forall. intros z Hz. apply in_rev in Hz.
  rewrite List.Forall_forall in Hx. apply Hx. exact Hz.
Qed.

Lemma insertionSort_sorted (x : list A) :
  Sorted.StronglySorted (inOrder less) (GoSort.insertionSort less x).
Proof.
  unfold GoSort.insertionSort.
  apply (sorted_rev (fun u v => less u v = false)).
  enough (H : forall rest before,
             Sorted.StronglySorted (fun u v => less u v = false) before ->
             Sorted.StronglySorted (fun u v => less u v = false)
               (fold_left (fun before y => GoSort.insertBack less y before) rest before))
    by (apply H; constructor).
  induction rest as [|y rest IH]; intros before Hs; cbn [fold_left]; [exact Hs|].
  apply IH, insertBack_sorted, Hs.
Qed.

End InsertionSorted.

Lemma window_in_range {A} (l : list A) (start : Z) (n a : nat) :
  0 <= start ->
  start + Z.of_nat a + Z.of_nat n <= len l ->
  mapM (fun k => index l (start + Z.of_nat k)) (seq a n)
  = Some (take n (drop (Z.to_nat start + a) l)).
Proof.
  intros Hs. revert a. induction n as [|n IH]; intros a Hn; [reflexivity|].
  cbn [seq mapM].
  destruct (index_in_range l (start + Z.of_nat a)) as [x Hx]; [unfold len in *; lia|].
  rewrite Hx. cbn [mbind option_bind]. rewrite IH by lia. cbn [mbind option_bind mret option_ret].
  f_equal. unfold index in Hx. destruct (Z.ltb_spec (start + Z.of_nat a) 0); [lia|].
  replace (Z.to_nat (start + Z.of_nat a)) with (Z.to_nat start + a)%nat in Hx by lia.
  rewrite (drop_S _ _ _ Hx). cbn [take]. rewrite Nat.add_succ_r. reflexivity.
Qed.

Lemma lookup_In {A} (l : list A) (i : nat) (x : A) : l !! i = Some x -> In x l.
Proof. intros H. apply list_elem_of_In. exact (list_elem_of_lookup_2 l i x H). Qed.

Lemma window_rows {A} (l : list A) (start stop : Z) :
  0 <= start <= stop ->
  stop <= len l ->
  mapM (fun k => index l (start + Z.of_nat k)) (seq 0 (Z.to_nat (stop - start)))
  = Some (take (Z.to_nat (stop - start)) (drop (Z.to_nat start) l)).
Proof.
  intros H Hl. rewrite (window_in_range l start (Z.to_nat (stop - start)) 0) by lia.
  rewrite Nat.add_0_r. reflexivity.
Qed.

Section ViewProperties.
Context {E : Externals}.

(** X18.  The filtered view holds exactly the pods of the snapshot that pass
    the namespace test, the issues test and the search test at once; it is
    no longer than the snapshot, and [filterPods] changes nothing else in
    the model. *)
Theorem filtered_view_is_the_conjunction (m : model E) (selectedNs : string) :
  rearranges E ->
  index (namespaces m) (currentNsIdx m) = Some selectedNs ->
  exists m',
    filterPods m = Some m'
    /\ m' = set_filteredPods (filteredPods m') m
    /\ len (filteredPods m') <= len (pods m)
    /\ forall p,
         In p (filteredPods m') <->
         In p (pods m)
         /\ (selectedNs = "ALL" \/ Namespace p = selectedNs)
         /\ (showIssues m = true -> healthy p = false)
         /\ (strings_ToLower E (textinput_Value E (textInput m)) = ""
             \/ strings_Contains (strings_ToLower E (Name p))
                  (strings_ToLower E (textinput_Value E (textInput m))) = true).
Proof.
  intros Hperm Hns. eexists. split; [apply filterPods_eq; exact Hns|]. cbn.
  split; [reflexivity|]. split.
  - unfold len. rewrite <- (Permutation_length (Hperm _ _ _)).
    pose proof (List.filter_length_le
                  (retained selectedNs
                     (strings_ToLower E (textinput_Value E (textInput m))) (showIssues m))
                  (pods m)). lia.
  - intros p. rewrite <- retained_true_iff, <- filter_In. split; intros H.
    + eapply Permutation_in; [apply Permutation_sym, Hperm | exact H].
    + eapply Permutation_in; [apply Hperm | exact H].
Qed.

Lemma less_asym (s : sortMode) (a b : PodInfo) : less s a b = true -> less s b a = false.
Proof.
  destruct s; cbn [less].
  - destruct (String.eqb (Status a) "Running"), (String.eqb (Status b) "Running");
      cbn; try congruence; apply ltb_asym.
  - rewrite Z.ltb_lt, Z.ltb_ge. lia.
  - rewrite Z.ltb_lt, Z.ltb_ge. lia.
Qed.

Lemma less_negtrans (s : sortMode) (a b c : PodInfo) :
  less s a b = false -> less s b c = false -> less s a c = false.
Proof.
  destruct s; cbn [less].
  - destruct (String.eqb (Status a) "Running"), (String.eqb (Status b) "Running"),
      (String.eqb (Status c) "Running"); cbn; try congruence; apply ltb_negtrans.
  - rewrite !Z.ltb_ge. lia.
  - rewrite !Z.ltb_ge. lia.
Qed.

(** X19.  The comparison that [filterPods] hands to [sort.Slice] is a
    strict weak ordering in each of the three sort modes, as [sort.Slice]
    requires: no pod is less than itself, the comparison is asymmetric and
    transitive, and so is "not less than". *)
Theorem less_is_a_strict_weak_order (s : sortMode) :
  (forall a, less s a a = false)
  /\ (forall a b, less s a b = true -> less s b a = false)
  /\ (forall a b c, less s a b = true -> less s b c = true -> less s a c = true)
  /\ (forall a b c, less s a b = false -> less s b c = false -> less s a c = false).
Proof.
  destruct s; cbn [less].
  - repeat split.
    + intros a. rewrite ltb_irrefl. destruct (String.eqb (Status a) "Running"); reflexivity.
    + intros a b.
      destruct (String.eqb (Status a) "Running"), (String.eqb (Status b) "Running");
        cbn; try congruence; apply ltb_asym.
    + intros a b c.
      destruct (String.eqb (Status a) "Running"), (String.eqb (Status b) "Running"),
        (String.eqb (Status c) "Running"); cbn; try congruence; apply ltb_trans.
    + intros a b c.
      destruct (String.eqb (Status a) "Running"), (String.eqb (Status b) "Running"),
        (String.eqb (Status c) "Running"); cbn; try congruence; apply ltb_negtrans.
  - repeat split; intros; rewrite ?Z.ltb_lt, ?Z.ltb_ge in *; lia.
  - repeat split; intros; rewrite ?Z.ltb_lt, ?Z.ltb_ge in *; lia.
Qed.

(** X20.  A view of at most twelve pods comes out sorted: no pod is less,
    under the comparison of the sort mode, than one listed before it.  In
    the default mode the pods that are not running therefore come first, and
    the names do not descend among the running ones. *)
Theorem filterPods_sorted_when_short (m : model E) (selectedNs : string) :
  sorts_as_go E ->
  index (namespaces m) (currentNsIdx m) = Some selectedNs ->
  len (List.filter
         (retained selectedNs (strings_ToLower E (textinput_Value E (textInput m)))
            (showIssues m))
         (pods m)) <= 12 ->
  exists m',
    filterPods m = Some m'
    /\ Sorted.StronglySorted (inOrder (less (sort m))) (filteredPods m')
    /\ (sort m = sortDefault ->
        forall i j a b,
          (i < j)%nat -> filteredPods m' !! i = Some a -> filteredPods m' !! j = Some b ->
          Status a = "Running" -> Status b = "Running" /\ String.ltb (Name b) (Name a) = false).
Proof.
  intros Hgo Hns Hshort.
  eexists. split; [apply filterPods_eq; exact Hns|]. cbn [filteredPods set_filteredPods].
  rewrite (Hgo _ _ _ _ (Slice_short (less (sort m)) _ Hshort)).
  assert (Hsorted : Sorted.StronglySorted (inOrder (less (sort m)))
                      (GoSort.insertionSort (less (sort m))
                         (List.filter
                            (retained selectedNs
                               (strings_ToLower E (textinput_Value E (textInput m)))
                               (showIssues m)) (pods m)))).
  { apply insertionSort_sorted; [apply less_asym | apply less_negtrans]. }
  split; [exact Hsorted|].
  intros Hdef i j a b Hij Ha Hb Hrun. rewrite Hdef in Hsorted, Ha, Hb.
  revert Hsorted i j Hij Ha Hb. generalize (GoSort.insertionSort (less sortDefault)
    (List.filter (retained selectedNs (strings_ToLower E (textinput_Value E (textInput m)))
       (showIssues m)) (pods m))).
  intros l Hl. induction Hl as [|x l Hl IH Hx]; intros i j Hij Ha Hb.
  - rewrite lookup_nil in Ha. discriminate.
  - destruct j as [|j]; [lia|]. destruct i as [|i].
    + cbn in Ha, Hb. injection Ha as ->.
      rewrite List.Forall_forall in Hx.
      assert (Hin : In b l) by (apply list_elem_of_In; exact (list_elem_of_lookup_2 _ _ _ Hb)).
      specialize (Hx b Hin). unfold inOrder in Hx. cbn [less] in Hx.
      apply String.eqb_eq in Hrun. rewrite Hrun in Hx.
      destruct (String.eqb_spec (Status b) "Running") as [Hb' | Hb']; cbn in Hx;
        [split; assumption | discriminate].
    + cbn in Ha, Hb. apply (IH i j); [lia | exact Ha | exact Hb].
Qed.

(** X21.  The rows [View] draws.  With the cursor past the end of a view
    longer than a page the loop over the window indexes out of range and
    [View] panics; in every other case it draws exactly the pods of the
    window of [calculatePagination], as many as the page or the view holds,
    the pod under the cursor among them. *)
Theorem table_rows_are_the_window (m : model E) :
  0 <= cursor m < max_int ->
  len (filteredPods m) <= max_int ->
  (perPage m < len (filteredPods m) <= cursor m -> tableRows m = None)
  /\ (~ perPage m < len (filteredPods m) <= cursor m ->
      exists rows,
        tableRows m = Some rows
        /\ rows = take (Z.to_nat (snd (calculatePagination m) - fst (calculatePagination m)))
                    (drop (Z.to_nat (fst (calculatePagination m))) (filteredPods m))
        /\ len rows = Z.min (perPage m) (len (filteredPods m))
        /\ forall p, index (filteredPods m) (cursor m) = Some p -> In p rows).
Proof.
  intros Hc Hlen. pose proof (perPage_pos m) as HP.
  pose proof (len_nonneg (filteredPods m)) as Hl0.
  unfold tableRows, calculatePagination.
  destruct (Z.ltb_spec (perPage m) (len (filteredPods m))) as [Hbig | Hfit].
  - destruct (Z.ltb_spec (cursor m) (perPage m)) as [Hlow | Hhigh].
    + split; [lia|]. intros _. cbn [fst snd].
      eexists. split; [apply window_rows; lia|]. split; [reflexivity|]. split.
      * unfold len. rewrite length_take, length_drop. unfold len in *. lia.
      * intros p Hp. unfold index in Hp. destruct (cursor m <? 0); [discriminate|].
        apply (lookup_In _ (Z.to_nat (cursor m))).
        rewrite lookup_take_lt by lia. exact Hp.
    + rewrite (int_sub_small (cursor m) (perPage m))
        by (unfold min_int, max_int in *; lia).
      rewrite !int_add_small by (unfold min_int, max_int in *; lia).
      cbn [fst snd]. split.
      * intros [_ Hout]. apply mapM_None_2, Exists_exists.
        exists (Z.to_nat (perPage m) - 1)%nat. split.
        { apply list_elem_of_In, in_seq. lia. }
        unfold index. destruct (Z.ltb_spec (cursor m - perPage m + 1
                                            + Z.of_nat (Z.to_nat (perPage m) - 1)) 0); [reflexivity|].
        apply lookup_ge_None_2. unfold len in *. lia.
      * intros Hin.
        eexists. split; [apply window_rows; lia|]. split; [reflexivity|]. split.
        -- unfold len. rewrite length_take, length_drop. unfold len in *. lia.
        -- intros p Hp. unfold index in Hp. destruct (cursor m <? 0); [discriminate|].
           apply (lookup_In _ (Z.to_nat (perPage m) - 1)%nat).
           rewrite lookup_take_lt by lia. rewrite lookup_drop.
           replace (Z.to_nat (cursor m - perPage m + 1) + (Z.to_nat (perPage m) - 1))%nat
             with (Z.to_nat (cursor m)) by lia.
           exact Hp.
  - split; [lia|]. intros _. cbn [fst snd].
    eexists. split; [apply window_rows; lia|]. split; [reflexivity|]. split.
    + unfold len. rewrite length_take, length_drop. unfold len in *. lia.
    + intros p Hp. destruct (index_Some_range _ _ _ Hp) as [H0 H1].
      unfold index in Hp. destruct (cursor m <? 0); [discriminate|].
      apply (lookup_In _ (Z.to_nat (cursor m))).
      rewrite lookup_take_lt by lia. exact Hp.
Qed.

Lemma tableRows_runs (m : model E) :
  len (filteredPods m) <= max_int ->
  (filteredPods m <> [] -> exists p, index (filteredPods m) (cursor m) = Some p) ->
  exists rows, tableRows m = Some rows.
Proof.
  intros Hlen Hcur. pose proof (perPage_pos m) as HP.
  pose proof (len_nonneg (filteredPods m)) as Hl0.
  unfold tableRows, calculatePagination.
  destruct (Z.ltb_spec (perPage m) (len (filteredPods m))) as [Hbig | Hfit].
  - destruct Hcur as [p Hp].
    { intros Hnil. rewrite Hnil in Hbig. unfold len in Hbig. cbn in Hbig. lia. }
    destruct (index_Some_range _ _ _ Hp) as [H0 H1].
    destruct (Z.ltb_spec (cursor m) (perPage m)) as [Hlow | Hhigh].
    + eexists. apply window_rows; lia.
    + rewrite (int_sub_small (cursor m) (perPage m))
        by (unfold min_int, max_int in *; lia).
      rewrite !int_add_small by (unfold min_int, max_int in *; lia).
      eexists. apply window_rows; lia.
  - eexists. apply window_rows; lia.
Qed.

(** X22.  Away from the cursor a row is drawn in the plain colour exactly
    when its pod is one the issues filter hides; an orange row is a ready
    pod that has restarted; the selected style is for the cursor only. *)
Theorem plain_row_iff_healthy (m : model E) (i : Z) (p : PodInfo) :
  i <> cursor m ->
  0 <= Restarts p ->
  (rowStyleOf m i p = cSecondary <-> healthy p = true)
  /\ (rowStyleOf m i p = cOrange ->
      0 < Restarts p /\ IsReady p = true)
  /\ rowStyleOf m i p <> selectedRowStyle.
Proof.
  intros Hi Hr. unfold rowStyleOf, healthy.
  destruct (Z.eqb_spec i (cursor m)) as [? | _]; [contradiction|].
  destruct (String.eqb (Status p) "Running"), (String.eqb (Status p) "Succeeded"),
    (IsReady p); cbn;
    destruct (Z.ltb_spec 0 (Restarts p)), (Z.eqb_spec (Restarts p) 0);
    repeat split; intros; try discriminate; try congruence; try lia.
Qed.

(** X23.  [View] does not panic on a well-staged state whose indices are in
    range, in a terminal whose height is not below -2. *)
Theorem View_does_not_panic (m : model E) :
  well_staged m ->
  indices_in_range m ->
  len (filteredPods m) <= max_int ->
  -3 < height m ->
  View m = Some tt.
Proof.
  intros (_ & _ & Hdel & _ & Hview) (_ & [ns Hns] & Hcur & _) Hlen Hh.
  assert (Hmargin : topMargin m = Some tt).
  { unfold topMargin. destruct (Z.ltb_spec (height m ÷ 3) 0) as [Hneg|]; [|reflexivity].
    pose proof (Z.quot_small_iff (height m) 3 ltac:(lia)) as Hq.
    destruct (Z.le_gt_cases 0 (height m)) as [Hpos | Hlow].
    - pose proof (Z.quot_pos (height m) 3 Hpos ltac:(lia)). lia.
    - assert (height m ÷ 3 = 0) by (apply Hq; lia). lia. }
  unfold View. destruct (width m =? 0); [reflexivity|].
  destruct (state m) eqn:Hst.
  - rewrite Hns. cbn [mbind option_bind].
    destruct (tableRows_runs m Hlen Hcur) as [rows ->]. cbn [mbind option_bind].
    destruct ((0 <? len (filteredPods m)) && (cursor m <? len (filteredPods m))) eqn:Hb;
      [|reflexivity].
    destruct Hcur as [p ->]; [|reflexivity].
    intros Hnil. rewrite Hnil in Hb. discriminate.
  - destruct Hview as [p ->]; auto.
  - destruct Hview as [p ->]; auto.
  - destruct Hview as [p ->]; auto.
  - destruct Hdel as [p ->]; auto.
  - destruct Hdel as [p ->]; auto.
  - rewrite Hns. exact Hmargin.
  - exact Hmargin.
Qed.

End ViewProperties.

(** ** What the fetches build *)

Lemma sumOf_cons {A} (f : A -> Z) (x : A) (l : list A) :
  sumOf f (x :: l) = f x + sumOf f l.
Proof. reflexivity. Qed.

Lemma wrap_add_l (bits a c : Z) :
  1 <= bits -> wrap bits (wrap bits a + c) = wrap bits (a + c).
Proof.
  intros Hb. unfold wrap.
  replace ((a + 2 ^ (bits - 1)) mod 2 ^ bits - 2 ^ (bits - 1) + c + 2 ^ (bits - 1))
    with ((a + 2 ^ (bits - 1)) mod 2 ^ bits + c) by lia.
  rewrite Zplus_mod_idemp_l. f_equal. f_equal. lia.
Qed.

Lemma wrap_small (bits a : Z) :
  1 <= bits -> - 2 ^ (bits - 1) <= a < 2 ^ (bits - 1) -> wrap bits a = a.
Proof.
  intros Hb Ha. unfold wrap.
  assert (H2 : 2 ^ bits = 2 * 2 ^ (bits - 1)).
  { replace bits with (Z.succ (bits - 1)) at 1 by lia. apply Z.pow_succ_r. lia. }
  rewrite Z.mod_small by lia. lia.
Qed.

Lemma fold_wrap_sum {A} (bits : Z) (f : A -> Z) (l : list A) (a : Z) :
  1 <= bits ->
  wrap bits (fold_left (fun acc x => wrap bits (acc + f x)) l (wrap bits a))
  = wrap bits (a + sumOf f l) /\
  fold_left (fun acc x => wrap bits (acc + f x)) l (wrap bits a)
  = wrap bits (a + sumOf f l).
Proof.
  intros Hb. revert a. induction l as [|x l IH]; intros a; cbn [fold_left]; rewrite ?sumOf_cons.
  - cbn [sumOf fold_right]. rewrite Z.add_0_r. split; [|reflexivity].
    rewrite <- (Z.add_0_r (wrap bits a)) at 1. rewrite wrap_add_l by exact Hb.
    rewrite Z.add_0_r. reflexivity.
  - rewrite wrap_add_l by exact Hb. destruct (IH (a + f x)) as [H1 H2].
    rewrite H1, H2. split; f_equal; lia.
Qed.

Lemma fold_int_add_sum {A} (f : A -> Z) (l : list A) :
  fold_left (fun acc x => int_add acc (f x)) l 0 = wrap 64 (sumOf f l).
Proof.
  pose proof (fold_wrap_sum 64 f l 0 ltac:(lia)) as [_ H].
  rewrite (wrap_small 64 0) in H by lia. exact H.
Qed.

Lemma fold_pair {A} (f g : Z -> A -> Z) (l : list A) (a b : Z) :
  fold_left (fun '(x, y) n => (f x n, g y n)) l (a, b)
  = (fold_left f l a, fold_left g l b).
Proof. revert a b. induction l as [|n l IH]; intros a b; cbn; [reflexivity | apply IH]. Qed.

Section Fetches.
Context {E : Externals}.

(** X24.  A pod listing that succeeds reaches the view: the snapshot is the
    listing with one row per pod, the loading flag is cleared, the view holds
    the rows that pass the filters, and the cursor is pulled back into the
    view; the session state and the search bar are untouched. *)
Theorem fetched_pods_reach_the_view (m : model E) (items : list corev1.Pod)
    (mList : option (list PodMetrics)) (selectedNs : string) :
  rearranges E ->
  0 <= cursor m ->
  len items <= max_int ->
  index (namespaces m) (currentNsIdx m) = Some selectedNs ->
  exists m',
    Update m (fetchPods_run (Ok items) mList) = Some (m', cmdNil)
    /\ pods m' = map (podInfoOf (usageMap mList)) items
    /\ loading m' = false
    /\ cursor_valid m'
    /\ cursor m' = Z.max 0 (Z.min (cursor m) (len (filteredPods m') - 1))
    /\ (forall p, In p (filteredPods m') <->
                  In p (pods m')
                  /\ retained selectedNs
                       (strings_ToLower E (textinput_Value E (textInput m)))
                       (showIssues m) p = true)
    /\ state m' = state m /\ searchActive m' = searchActive m.
Proof.
  intros Hperm H0 Hmax Hns.
  destruct (Update m (fetchPods_run (Ok items) mList)) as [[m' c]|] eqn:Hup.
  2:{ revert Hup. unfold fetchPods_run, Update, filterPods. cbn. rewrite Hns. discriminate. }
  assert (Hlen : len (map (podInfoOf (usageMap mList)) items) <= max_int)
    by (unfold len in *; rewrite length_map; exact Hmax).
  pose proof (snapshot_reclamps_cursor m m' _ c Hperm H0 Hlen Hup) as Hvalid.
  revert Hup Hvalid. unfold fetchPods_run, Update, filterPods.
  cbn [namespaces currentNsIdx set_pods set_loading]. rewrite Hns. cbn [mbind option_bind].
  cbn [pods textInput showIssues sort set_pods set_loading set_filteredPods filteredPods cursor].
  set (view := sort_Slice E PodInfo _ _).
  assert (Hview : forall p, In p view <->
            In p (map (podInfoOf (usageMap mList)) items)
            /\ retained selectedNs (strings_ToLower E (textinput_Value E (textInput m)))
                 (showIssues m) p = true).
  { intros p. rewrite <- filter_In. unfold view. split; intros H.
    - eapply Permutation_in; [apply Permutation_sym, Hperm | exact H].
    - eapply Permutation_in; [apply Hperm | exact H]. }
  pose proof (len_nonneg view) as Hv0.
  assert (Hvmax : len view <= max_int).
  { unfold view, len in *. rewrite <- (Permutation_length (Hperm _ _ _)).
    pose proof (List.filter_length_le
                  (retained selectedNs (strings_ToLower E (textinput_Value E (textInput m)))
                     (showIssues m)) (map (podInfoOf (usageMap mList)) items)).
    lia. }
  destruct (Z.leb_spec (len view) (cursor m)) as [Hout | Hin];
    [destruct (Z.ltb_spec 0 (len view)) as [Hpos | Hzero]|];
    intros [= <- <-] Hvalid;
    (eexists; split; [reflexivity|]);
    cbn [pods loading cursor filteredPods state searchActive
         set_cursor set_filteredPods set_loading set_pods];
    (split; [reflexivity|]); (split; [reflexivity|]); (split; [exact Hvalid|]);
    (split; [|split; [exact Hview | split; reflexivity]]).
  - rewrite int_sub_small by (unfold min_int, max_int in *; lia). lia.
  - lia.
  - lia.
Qed.

Lemma fold_statusStep_restarts (cs : list corev1.ContainerStatus) (r ready : Z)
    (msg : string) :
  (fold_left statusStep cs (wrap 32 r, ready, msg)).1.1
  = wrap 32 (r + sumOf corev1.RestartCount cs).
Proof.
  revert r ready msg. induction cs as [|c cs IH]; intros r ready msg.
  - cbn. rewrite Z.add_0_r. reflexivity.
  - cbn [fold_left statusStep]. rewrite sumOf_cons. unfold int32_add.
    rewrite wrap_add_l by lia. rewrite IH. f_equal. lia.
Qed.

Lemma statuses_fold (cs : list corev1.ContainerStatus) :
  len cs <= max_int ->
  fold_left statusStep cs (0, 0, "[OK]")
  = (wrap 32 (sumOf corev1.RestartCount cs), readyCount cs,
     default "[OK]" (last (omap ownReason cs))).
Proof.
  intros Hmax.
  destruct (fold_statusStep cs 0 0 "[OK]" ltac:(lia) ltac:(lia)) as [r' Hr'].
  pose proof (fold_statusStep_restarts cs 0 0 "[OK]") as Hr.
  rewrite (wrap_small 32 0) in Hr by lia. rewrite Hr' in Hr. cbn in Hr.
  rewrite Hr'. rewrite Hr. reflexivity.
Qed.

(** X25.  What a row counts: the restarts are the sum of the containers'
    restart counts in 32-bit arithmetic, the READY column is the number of
    ready container statuses over their number, and the pod counts as ready
    exactly when it has container statuses and all are ready, or its phase is
    Succeeded.  The status is the phase and the containers are those of the
    pod's spec. *)
Theorem fetched_pod_counts
    (uMap : gmap string (Quantity E * Quantity E)) (p : corev1.Pod) :
  len (corev1.ContainerStatuses p) <= max_int ->
  Restarts (podInfoOf uMap p)
  = wrap 32 (sumOf corev1.RestartCount (corev1.ContainerStatuses p))
  /\ Ready (podInfoOf uMap p)
     = fmt_d (readyCount (corev1.ContainerStatuses p)) +:+ "/"
       +:+ fmt_d (len (corev1.ContainerStatuses p))
  /\ (IsReady (podInfoOf uMap p) = true <->
      (corev1.ContainerStatuses p <> []
       /\ forallb corev1.Ready (corev1.ContainerStatuses p) = true)
      \/ corev1.Phase p = "Succeeded")
  /\ Status (podInfoOf uMap p) = corev1.Phase p
  /\ Containers (podInfoOf uMap p) = map corev1.ContainerName (corev1.SpecContainers p).
Proof.
  intros Hmax. unfold podInfoOf. rewrite (statuses_fold _ Hmax).
  destruct (uMap !! _) as [[cpu mem]|];
    cbn [Restarts Ready IsReady Status Containers];
    (split; [reflexivity|]); (split; [reflexivity|]);
    (split; [|split; reflexivity]);
    rewrite orb_true_iff, andb_true_iff, readyCount_all, String.eqb_eq, Z.ltb_lt,
      <- (len_nil_iff (corev1.ContainerStatuses p));
    pose proof (len_nonneg (corev1.ContainerStatuses p)); intuition lia.
Qed.


Lemma usageMap_lookup (items : list PodMetrics)
    (acc : gmap string (Quantity E * Quantity E)) (k : string) :
  fold_left
    (fun uMap i =>
       let '(cT, mT) :=
         fold_left
           (fun '(cT, mT) c =>
              (quantity_Add E cT (UsageCpu c), quantity_Add E mT (UsageMemory c)))
           (MetricsContainers i) (quantity_zero E, quantity_zero E) in
       <[MetricsNamespace i +:+ "/" +:+ MetricsName i := (cT, mT)]> uMap)
    items acc !! k
  = match last (List.filter
                  (fun i => String.eqb (podKey (MetricsNamespace i) (MetricsName i)) k)
                  items) with
    | Some i => Some (containerTotals i)
    | None => acc !! k
    end.
Proof.
  revert acc. induction items as [|i items IH]; intros acc; [reflexivity|].
  cbn [fold_left List.filter]. rewrite IH. fold (containerTotals i).
  unfold podKey at 2.
  destruct (String.eqb_spec (MetricsNamespace i +:+ "/" +:+ MetricsName i) k) as [Hk | Hk].
  - rewrite last_cons.
    destruct (last (List.filter _ items)); [reflexivity|].
    destruct (containerTotals i) as [cT mT]. rewrite Hk. apply lookup_insert_eq.
  - destruct (last (List.filter _ items)); [reflexivity|].
    destruct (containerTotals i) as [cT mT]. apply lookup_insert_ne. exact Hk.
Qed.

(** X27.  The usage of a pod is that of the last metrics item that carries
    its namespace and name: the raw values are the milli-value and the value
    of that item's container sums and the columns print them; a pod without
    such an item, or with no metrics at all, shows "-" and counts as zero in
    the CPU and memory sorts. *)
Theorem pod_usage_is_its_last_metrics_item
    (mList : option (list PodMetrics)) (p : corev1.Pod) :
  match last (List.filter
                (fun i => String.eqb (podKey (MetricsNamespace i) (MetricsName i))
                            (podKey (corev1.Namespace p) (corev1.Name p)))
                (default [] mList)) with
  | Some i =>
      RawCpu (podInfoOf (usageMap mList) p) = quantity_MilliValue E (containerTotals i).1
      /\ RawMem (podInfoOf (usageMap mList) p) = quantity_Value E (containerTotals i).2
      /\ CpuUsage (podInfoOf (usageMap mList) p)
         = fmt_d (RawCpu (podInfoOf (usageMap mList) p)) +:+ "m"
      /\ MemUsage (podInfoOf (usageMap mList) p)
         = fmt_d (RawMem (podInfoOf (usageMap mList) p) ÷ 1048576) +:+ "Mi"
  | None =>
      RawCpu (podInfoOf (usageMap mList) p) = 0
      /\ RawMem (podInfoOf (usageMap mList) p) = 0
      /\ CpuUsage (podInfoOf (usageMap mList) p) = "-"
      /\ MemUsage (podInfoOf (usageMap mList) p) = "-"
  end.
Proof.
  assert (Hlook : usageMap mList !! (corev1.Namespace p +:+ "/" +:+ corev1.Name p)
                  = match last (List.filter
                                  (fun i => String.eqb
                                              (podKey (MetricsNamespace i) (MetricsName i))
                                              (podKey (corev1.Namespace p) (corev1.Name p)))
                                  (default [] mList)) with
                    | Some i => Some (containerTotals i)
                    | None => None
                    end).
  { destruct mList as [items|]; [|reflexivity].
    unfold usageMap. rewrite usageMap_lookup. cbn [default]. unfold podKey.
    destruct (last _); [reflexivity | apply lookup_empty]. }
  unfold podInfoOf.
  destruct (fold_left statusStep _ _) as [[r ready] msg]. rewrite Hlook.
  destruct (last _) as [i|]; [destruct (containerTotals i) as [cT mT]|];
    cbn; repeat split; reflexivity.
Qed.

(** X28.  The cluster summary of a node listing that succeeds: the node
    count is the length of the listing and the four totals are the sums of
    the nodes' allocatable CPU and memory and of the node metrics' usage, in
    64-bit arithmetic; without node metrics the usage is zero. *)
Theorem cluster_stats_are_sums (nodes : list Node) (nodeMetrics : option (list NodeMetrics)) :
  exists s,
    fetchClusterStats_run (Ok nodes) nodeMetrics = statsMsg s
    /\ NodeCount s = len nodes
    /\ TotalCpuCap s = wrap 64 (sumOf (fun n => quantity_MilliValue E (AllocatableCpu n)) nodes)
    /\ TotalMemCap s = wrap 64 (sumOf (fun n => quantity_Value E (AllocatableMemory n)) nodes)
    /\ TotalCpuUsage s
       = wrap 64 (sumOf (fun nm => quantity_MilliValue E (NodeUsageCpu nm))
                    (default [] nodeMetrics))
    /\ TotalMemUsage s
       = wrap 64 (sumOf (fun nm => quantity_Value E (NodeUsageMemory nm))
                    (default [] nodeMetrics)).
Proof.
  unfold fetchClusterStats_run.
  rewrite (fold_pair (fun cpu n => int_add cpu (quantity_MilliValue E (AllocatableCpu n)))
             (fun mem n => int_add mem (quantity_Value E (AllocatableMemory n)))).
  rewrite !fold_int_add_sum.
  destruct nodeMetrics as [ms|].
  - rewrite (fold_pair (fun cpu nm => int_add cpu (quantity_MilliValue E (NodeUsageCpu nm)))
               (fun mem nm => int_add mem (quantity_Value E (NodeUsageMemory nm)))).
    rewrite !fold_int_add_sum. eexists. split; [reflexivity|]. cbn. repeat split.
  - eexists. split; [reflexivity|]. cbn. repeat split.
Qed.

End Fetches.

(** ** The diagnosis report *)

Section DiagnosisProperties.
Variables diagTitle redText dimText : string -> string.

Lemma events_fold (items : list Event) (acc : string) :
  fold_left
    (fun report e =>
       if String.eqb (EventType e) "Warning"
       then report +:+ ("* " +:+ redText (EventReason e) +:+ ": "
                        +:+ EventMessage e +:+ newline)
       else report)
    items acc
  = fold_left
      (fun report e =>
         if String.eqb (EventType e) "Warning"
         then report +:+ ("* " +:+ redText (EventReason e) +:+ ": "
                          +:+ EventMessage e +:+ newline)
         else report)
      (List.filter (fun e => String.eqb (EventType e) "Warning") items) acc.
Proof.
  revert acc. induction items as [|e items IH]; intros acc; cbn [fold_left List.filter];
    [reflexivity|].
  destruct (String.eqb (EventType e) "Warning") eqn:He.
  - cbn [fold_left]. rewrite He. apply IH.
  - apply IH.
Qed.

Lemma filter_filter_warning (l : list Event) :
  List.filter (fun e => String.eqb (EventType e) "Warning")
    (List.filter (fun e => String.eqb (EventType e) "Warning") l)
  = List.filter (fun e => String.eqb (EventType e) "Warning") l.
Proof.
  induction l as [|x l IHl]; cbn [List.filter]; [reflexivity|].
  destruct (String.eqb (EventType x) "Warning") eqn:Hx; cbn [List.filter];
    rewrite ?Hx, IHl; reflexivity.
Qed.

Lemma len_pos {A} (l : list A) : l <> [] -> (0 <? len l) = true.
Proof. destruct l; [contradiction|]. reflexivity. Qed.

(** X29.  The events section of the report shows the warnings only.  A
    listing of events that fails reads as one that is empty ("No critical
    events."); events that are not warnings leave no line; and a listing
    that holds events but no warning leaves the section empty, which is not
    the report of an empty listing. *)
Theorem diagnosis_shows_only_the_warnings
    (pod : PodInfo) (items : list Event) (err : string) (stream : option string) :
  diagnosePod_run diagTitle redText dimText pod (Err err) stream = diagnosePod_run diagTitle redText dimText pod (Ok []) stream
  /\ (List.filter (fun e => String.eqb (EventType e) "Warning") items <> [] ->
      diagnosePod_run diagTitle redText dimText pod (Ok items) stream
      = diagnosePod_run diagTitle redText dimText pod (Ok (List.filter (fun e => String.eqb (EventType e) "Warning") items))
          stream)
  /\ (items <> [] ->
      List.filter (fun e => String.eqb (EventType e) "Warning") items = [] ->
      diagnosePod_run diagTitle redText dimText pod (Ok items) stream <> diagnosePod_run diagTitle redText dimText pod (Ok []) stream).
Proof.
  split; [reflexivity|]. split.
  - intros Hw. unfold diagnosePod_run.
    assert (Hne : items <> []) by (intros ->; apply Hw; reflexivity).
    rewrite (len_pos _ Hne), (len_pos _ Hw).
    rewrite (events_fold items),
      (events_fold (List.filter (fun e => String.eqb (EventType e) "Warning") items)),
      filter_filter_warning.
    reflexivity.
  - intros Hne Hw. unfold diagnosePod_run.
    rewrite (len_pos _ Hne), (events_fold items), Hw.
    cbn [fold_left len length Z.of_nat Z.ltb Z.compare].
    destruct (5 <? Restarts pod), (String.eqb (Status pod) "Pending"),
      (negb (IsReady pod) && String.eqb (Status pod) "Running"), stream;
      intros [= H]; rewrite !append_assoc in H;
      do 3 apply append_inv_head in H; lazy in H; discriminate.
Qed.


End DiagnosisProperties.

(** ** The further properties on sample states *)

Lemma wide_well_staged : well_staged Sample.wide.
Proof.
  unfold well_staged. split; [reflexivity|]. split; [intros _; reflexivity|].
  repeat split; intros H; vm_compute in H; intuition discriminate.
Qed.

Lemma wide_indices_in_range : indices_in_range Sample.wide.
Proof.
  unfold indices_in_range. split; [vm_compute; discriminate|].
  split; [eexists; reflexivity|].
  split; [intros _; eexists; reflexivity | intros H; discriminate H].
Qed.

Lemma truncate_fits_witness :
  2 <= 6 <= max_int /\ truncate "kube-system" 6 = Some "kube..".
Proof.
  assert (H : 2 <= 6 <= max_int) by (unfold max_int; lia).
  split; [exact H|].
  destruct (truncate_fits "kube-system" 6 H) as (t & Ht & _ & _ & Hcut & _).
  rewrite Ht, Hcut by (cbn; lia). reflexivity.
Defined.

Lemma destructive_only_after_confirmation_witness :
  exists m',
    Update Sample.confirming (KeyMsg "y") = Some (m', deletePod Ref.restarted)
    /\ podToDelete Sample.confirming = Some Ref.restarted
    /\ state m' = viewList.
Proof.
  assert (Hup : exists m', Update Sample.confirming (KeyMsg "y")
                           = Some (m', deletePod Ref.restarted))
    by (eexists; reflexivity).
  destruct Hup as [m' Hup]. exists m'. split; [exact Hup|].
  destruct (destructive_only_after_confirmation _ _ _ _ (deletePod Ref.restarted)
              Hup (or_introl eq_refl) eq_refl)
    as (key & _ & _ & _ & _ & Hst & _).
  split; [reflexivity | exact Hst].
Defined.

Lemma quit_only_from_the_list_witness :
  Update Ref.listing (KeyMsg "q") = Some (Ref.listing, tea_Quit)
  /\ state Ref.listing = viewList.
Proof.
  assert (Hup : Update Ref.listing (KeyMsg "q") = Some (Ref.listing, tea_Quit))
    by reflexivity.
  split; [exact Hup|].
  destruct (quit_only_from_the_list _ _ _ _ Hup (or_introl eq_refl))
    as (key & _ & _ & Hst & _).
  exact Hst.
Defined.

Lemma namespaces_are_listed_only_at_start_witness :
  Update Ref.listing tickMsg
  = Some (Ref.listing, tea_Batch [fetchPods; fetchClusterStats; tick])
  /\ ~ In fetchNamespaces
         (commands (tea_Batch [fetchPods; fetchClusterStats; tick] : Cmd Ref.externals)).
Proof.
  assert (Hup : Update Ref.listing tickMsg
                = Some (Ref.listing, tea_Batch [fetchPods; fetchClusterStats; tick]))
    by reflexivity.
  split; [exact Hup|].
  exact (proj1 (namespaces_are_listed_only_at_start _ _ _ _ Hup)).
Defined.

Lemma run_keeps_staging_witness :
  well_staged Ref.start
  /\ exists m',
       run Ref.start [podsMsg Ref.three; KeyMsg "down"; KeyMsg "d"] = Some m'
       /\ state m' = viewDeleteConfirm
       /\ well_staged m'.
Proof.
  assert (Hw : well_staged Ref.start) by apply initialModel_well_staged.
  split; [exact Hw|].
  assert (Hrun : run Ref.start [podsMsg Ref.three; KeyMsg "down"; KeyMsg "d"]
                 = Some (after Ref.start [podsMsg Ref.three; KeyMsg "down"; KeyMsg "d"]))
    by reflexivity.
  eexists. split; [exact Hrun|]. split; [reflexivity|].
  exact (run_keeps_staging _ _ _ Hw Hrun).
Defined.

Lemma Update_does_not_panic_witness :
  well_staged Sample.wide /\ indices_in_range Sample.wide
  /\ exists m' c, Update Sample.wide (KeyMsg "d") = Some (m', c).
Proof.
  split; [exact wide_well_staged|]. split; [exact wide_indices_in_range|].
  exact (Update_does_not_panic Sample.wide (KeyMsg "d")
           wide_well_staged wide_indices_in_range).
Defined.


Lemma search_bar_takes_every_key_witness :
  searchActive Sample.searching = true
  /\ exists m' c,
       Update Sample.searching (KeyMsg "a") = Some (m', c)
       /\ cursor m' = cursor Sample.searching /\ searchActive m' = true.
Proof.
  split; [reflexivity|].
  assert (Hup : exists r, Update Sample.searching (KeyMsg "a") = Some r)
    by (eexists; reflexivity).
  destruct Hup as [[m' c] Hup]. exists m', c. split; [exact Hup|].
  destruct (search_bar_takes_every_key Sample.searching m' "a" c eq_refl Hup)
    as (_ & _ & Hc & _ & _ & _ & _ & _ & _ & _ & Htyped).
  split; [exact Hc|]. apply Htyped. split; discriminate.
Defined.

Lemma cancel_discards_the_staged_action_witness :
  exists m',
    Update Sample.confirming (KeyMsg "n") = Some (m', cmdNil)
    /\ state m' = viewList /\ podToDelete m' = None.
Proof.
  destruct (cancel_discards_the_staged_action Sample.confirming "n" eq_refl
              (or_introl eq_refl) (or_introl eq_refl))
    as (m' & Hup & Hst & Hp & _).
  exists m'. split; [exact Hup|]. split; [exact Hst|]. apply Hp. discriminate.
Defined.

Lemma cleanse_is_refused_for_all_namespaces_witness :
  index (namespaces Ref.listing) (currentNsIdx Ref.listing) = Some "ALL"
  /\ exists m', Update Ref.listing (KeyMsg "C") = Some (m', cmdNil) /\ state m' = viewList.
Proof.
  split; [reflexivity|].
  destruct (cleanse_is_refused_for_all_namespaces Ref.listing "ALL"
              eq_refl eq_refl eq_refl)
    as (m' & Hup & Hall & _).
  exists m'. split; [exact Hup|]. destruct (Hall eq_refl) as [-> _]. reflexivity.
Defined.

Lemma cursor_keys_stay_in_the_view_witness :
  cursor_valid Ref.listing
  /\ exists m', Update Ref.listing (KeyMsg "down") = Some (m', cmdNil) /\ cursor m' = 3.
Proof.
  assert (Hc : cursor_valid Ref.listing)
    by (left; vm_compute; split; [discriminate | reflexivity]).
  assert (Hl : len (filteredPods Ref.listing) <= max_int) by (vm_compute; discriminate).
  split; [exact Hc|].
  destruct (cursor_keys_stay_in_the_view Ref.listing "down" eq_refl eq_refl Hc Hl
              (or_intror (or_intror (or_introl eq_refl))))
    as (m' & Hup & _ & _ & _ & Hdown).
  exists m'. split; [exact Hup|]. rewrite (Hdown (or_introl eq_refl)). reflexivity.
Defined.

Lemma namespace_key_goes_round_witness :
  exists m', run Ref.listing (repeat (KeyMsg "n") 3) = Some m' /\ currentNsIdx m' = 0.
Proof.
  destruct (namespace_key_goes_round Ref.listing 3 eq_refl eq_refl)
    as (m' & Hrun & _ & _ & Hback).
  - vm_compute. split; [reflexivity | discriminate].
  - vm_compute. split; [discriminate | reflexivity].
  - exists m'. split; [exact Hrun|]. rewrite (Hback eq_refl). reflexivity.
Defined.

Lemma issues_toggle_twice_witness :
  exists m1 m2,
    Update Ref.listing (KeyMsg "tab") = Some (m1, cmdNil)
    /\ Update m1 (KeyMsg "tab") = Some (m2, cmdNil)
    /\ showIssues m1 = true /\ showIssues m2 = false /\ cursor m2 = 0.
Proof.
  destruct (tab_key_runs Ref.listing eq_refl eq_refl (ex_intro _ "ALL" eq_refl))
    as (m1 & H1 & Hs1 & Hst1 & Hn1 & Hi1).
  assert (Hns1 : exists ns, index (namespaces m1) (currentNsIdx m1) = Some ns)
    by (rewrite Hn1, Hi1; exists "ALL"; reflexivity).
  destruct (tab_key_runs m1 Hs1 Hst1 Hns1) as (m2 & H2 & _).
  destruct (issues_toggle_twice Ref.listing m1 m2 cmdNil cmdNil eq_refl eq_refl H1 H2)
    as (Hi & Hi2 & Hc & _).
  exists m1, m2. split; [exact H1|]. split; [exact H2|].
  split; [exact Hi|]. split; [exact Hi2 | exact Hc].
Defined.

Lemma forward_key_flips_one_pod_witness :
  exists m',
    Update Ref.listing (KeyMsg "f") = Some (m', cmdNil)
    /\ fwdStatus m' (Ref.pod "kube-system" "c" 0 ["app"; "sidecar"]) = "● 8080"
    /\ fwdStatus m' Ref.restarted = "-".
Proof.
  destruct (forward_key_flips_one_pod Ref.listing
              (Ref.pod "kube-system" "c" 0 ["app"; "sidecar"]) eq_refl eq_refl eq_refl)
    as (m' & Hup & Hothers & _ & Hstart & _).
  exists m'. split; [exact Hup|]. split; [exact (Hstart eq_refl)|].
  rewrite Hothers; [reflexivity | discriminate].
Defined.


Lemma picked_container_reaches_the_command_witness :
  exists m1 m2 m3,
    Update Ref.listing (KeyMsg "enter") = Some (m1, cmdNil)
    /\ run m1 [KeyMsg "down"] = Some m2
    /\ Update m2 (KeyMsg "enter")
       = Some (m3, fetchLogs (Ref.pod "kube-system" "c" 0 ["app"; "sidecar"]) "sidecar")
    /\ state m3 = viewLogs.
Proof.
  destruct (picked_container_reaches_the_command Ref.listing
              (Ref.pod "kube-system" "c" 0 ["app"; "sidecar"]) "enter" "sidecar" 1
              eq_refl eq_refl eq_refl)
    as (m1 & m2 & m3 & H1 & _ & H2 & H3 & Hst & _).
  - vm_compute. split; [reflexivity | discriminate].
  - left. reflexivity.
  - reflexivity.
  - exists m1, m2, m3. split; [exact H1|]. split; [exact H2|].
    split; [exact H3 | exact Hst].
Defined.

Lemma viewer_round_trip_witness :
  exists m1 m2 m3,
    Update Ref.listing (KeyMsg "?")
    = Some (m1, diagnosePod (Ref.pod "kube-system" "c" 0 ["app"; "sidecar"]))
    /\ Update m1 (diagnosePod_run (fun s => s) (fun s => s) (fun s => s)
                    (Ref.pod "kube-system" "c" 0 ["app"; "sidecar"]) (Err "timeout") None)
       = Some (m2, cmdNil)
    /\ Update m2 (KeyMsg "esc") = Some (m3, cmdNil)
    /\ state m3 = viewList /\ cursor m3 = 2.
Proof.
  destruct (viewer_round_trip Ref.listing
              (Ref.pod "kube-system" "c" 0 ["app"; "sidecar"]) "?" "esc"
              (diagnosePod_run (fun s => s) (fun s => s) (fun s => s)
                 (Ref.pod "kube-system" "c" 0 ["app"; "sidecar"]) (Err "timeout") None)
              eq_refl eq_refl eq_refl)
    as (m1 & m2 & m3 & c & H1 & -> & _ & _ & H2 & _ & _ & H3 & Hst & _ & _ & _ & Hc & _).
  - left. split; [reflexivity|].
    exists (fun s => s), (fun s => s), (fun s => s), (Err "timeout"), None. reflexivity.
  - left. reflexivity.
  - exists m1, m2, m3. split; [exact H1|]. split; [exact H2|]. split; [exact H3|].
    split; [exact Hst | exact Hc].
Defined.

Lemma filtered_view_is_the_conjunction_witness :
  exists m', filterPods Ref.listing = Some m' /\ In Ref.restarted (filteredPods m').
Proof.
  destruct (filtered_view_is_the_conjunction Ref.listing "ALL" Ref_rearranges eq_refl)
    as (m' & Hf & _ & _ & Hin).
  exists m'. split; [exact Hf|]. apply Hin.
  split; [right; right; right; left; reflexivity|].
  split; [left; reflexivity|].
  split; [intros H; discriminate H | left; reflexivity].
Defined.

Lemma filterPods_sorted_when_short_witness :
  exists m',
    filterPods Ref.listing = Some m'
    /\ Sorted.StronglySorted (inOrder (less sortDefault)) (filteredPods m').
Proof.
  destruct (filterPods_sorted_when_short Ref.listing "ALL" Ref_sorts_as_go eq_refl)
    as (m' & Hf & Hs & _).
  - vm_compute. discriminate.
  - exists m'. split; [exact Hf | exact Hs].
Defined.

Lemma table_rows_are_the_window_witness :
  exists rows,
    tableRows Ref.listing = Some rows
    /\ len rows = 2
    /\ In (Ref.pod "kube-system" "c" 0 ["app"; "sidecar"]) rows.
Proof.
  destruct (table_rows_are_the_window Ref.listing) as [_ Hrows].
  - vm_compute. split; [discriminate | reflexivity].
  - vm_compute. discriminate.
  - destruct Hrows as (rows & Hr & _ & Hlen & Hin).
    + vm_compute. intros [_ H]. apply H. reflexivity.
    + exists rows. split; [exact Hr|].
      split; [rewrite Hlen; reflexivity | apply Hin; reflexivity].
Defined.

Lemma plain_row_iff_healthy_witness :
  rowStyleOf Ref.listing 3 Ref.restarted = cOrange /\ healthy Ref.restarted = false.
Proof.
  destruct (plain_row_iff_healthy Ref.listing 3 Ref.restarted) as (Hplain & _ & _).
  - intros H. vm_compute in H. discriminate H.
  - vm_compute. discriminate.
  - split; [reflexivity|]. apply not_true_is_false. intros Hh.
    apply Hplain in Hh. vm_compute in Hh. discriminate Hh.
Defined.

Lemma View_does_not_panic_witness :
  well_staged Sample.wide /\ indices_in_range Sample.wide /\ View Sample.wide = Some tt.
Proof.
  split; [exact wide_well_staged|]. split; [exact wide_indices_in_range|].
  apply (View_does_not_panic Sample.wide wide_well_staged wide_indices_in_range).
  - vm_compute. discriminate.
  - vm_compute. reflexivity.
Defined.

Lemma fetched_pods_reach_the_view_witness :
  exists m',
    Update Ref.listing
      (fetchPods_run (E := Ref.externals) (Ok [Ref.crashing; Sample.running]) None)
    = Some (m', cmdNil)
    /\ map Name (pods m') = ["web-0"; "api-0"]
    /\ loading m' = false /\ cursor_valid m'.
Proof.
  destruct (fetched_pods_reach_the_view Ref.listing [Ref.crashing; Sample.running] None
              "ALL" Ref_rearranges)
    as (m' & Hup & Hpods & Hl & Hv & _).
  - vm_compute. discriminate.
  - vm_compute. discriminate.
  - reflexivity.
  - exists m'. split; [exact Hup|]. split; [rewrite Hpods; reflexivity|].
    split; [exact Hl | exact Hv].
Defined.

Lemma fetched_pod_counts_witness :
  Restarts (podInfoOf (E := Ref.externals) ∅ Ref.crashing) = 4
  /\ Ready (podInfoOf (E := Ref.externals) ∅ Ref.crashing) = "0/2".
Proof.
  assert (Hl : len (corev1.ContainerStatuses Ref.crashing) <= max_int)
    by (vm_compute; discriminate).
  destruct (fetched_pod_counts (E := Ref.externals) ∅ Ref.crashing Hl) as (Hr & Hready & _).
  rewrite Hr, Hready. split; reflexivity.
Defined.


